(** * Constituency metric scorer ([analysis.py]): model and properties

    The scorer joins three tables on the constituency key, computes national
    baselines over the joined table, and derives three composite scores per
    row.  This development embeds that script and states its properties.

    ** Numbers

    The script computes on IEEE binary64 values held either in pandas / numpy
    containers or as Python scalars.  Two embeddings of its arithmetic are
    given.
    - The first one keeps the special values that drive the control flow of
      the script -- [NaN] and the two infinities -- and replaces the finite
      binary64 values by exact rationals ([Qc]): rounding error, overflow
      and the sign of zero are not represented.  It carries the properties
      of the structure of the computation: which rows are joined, which
      terms enter a mean, which guard yields a missing value.
    - The second one, module [B64], follows the scorer operation by
      operation on binary64 numbers, as [SpecFloat] defines them.  It
      carries the properties that depend on rounding, on overflow or on
      infinite operands.
    Division comes in two flavours, as in the script:
    - [xdiv]: the element-wise division of pandas / numpy, which never
      raises and yields an infinity or [NaN] on a zero divisor;
    - [truediv]: the [/] of Python scalars, which raises
      [ZeroDivisionError] on a zero divisor.

    ** Input data

    A numeric cell of an input table holds a number or nothing ([cell]);
    reading the table turns an empty cell into [NaN].  The infinities only
    arise inside the script, from the division of two columns. *)

From Stdlib Require Import QArith Qcanon Qabs Qcabs Qround ZArith List Ascii
  String Bool SpecFloat.
From Stdlib Require Import Decimal DecimalString DecimalNat Finite.
From Stdlib Require Import Lia Lqa.
Import ListNotations.

(* ================================================================== *)
(** * Extended rationals: the float model *)
(* ================================================================== *)

Module XFloat.

Inductive xfloat : Type :=
| Fin (q : Qc)
| PInf
| NInf
| NaN.

Definition q_of_Z (z : Z) : Qc := Q2Qc (inject_Z z).
Definition q_of_nat (n : nat) : Qc := q_of_Z (Z.of_nat n).

Definition xzero : xfloat := Fin 0%Qc.
Definition xone : xfloat := Fin 1%Qc.

(** [pd.isna] / [np.isnan] on a float. *)
Definition isna (x : xfloat) : bool :=
  match x with NaN => true | _ => false end.

Definition is_inf (x : xfloat) : bool :=
  match x with PInf | NInf => true | _ => false end.

Definition is_fin (x : xfloat) : bool :=
  match x with Fin _ => true | _ => false end.

(** An infinity carrying the sign given by a comparison against zero;
    [Eq] stands for a zero factor and gives [NaN]. *)
Definition inf_of_sign (c : comparison) : xfloat :=
  match c with Gt => PInf | Lt => NInf | Eq => NaN end.

Definition xopp (x : xfloat) : xfloat :=
  match x with
  | Fin a => Fin (- a)%Qc
  | PInf => NInf
  | NInf => PInf
  | NaN => NaN
  end.

Definition xadd (x y : xfloat) : xfloat :=
  match x, y with
  | NaN, _ | _, NaN => NaN
  | Fin a, Fin b => Fin (a + b)%Qc
  | PInf, NInf | NInf, PInf => NaN
  | PInf, _ | _, PInf => PInf
  | NInf, _ | _, NInf => NInf
  end.

Definition xsub (x y : xfloat) : xfloat := xadd x (xopp y).

Definition xabs (x : xfloat) : xfloat :=
  match x with
  | Fin a => Fin (Qcabs a)
  | PInf | NInf => PInf
  | NaN => NaN
  end.

Definition xmul (x y : xfloat) : xfloat :=
  match x, y with
  | NaN, _ | _, NaN => NaN
  | Fin a, Fin b => Fin (a * b)%Qc
  | Fin a, PInf | PInf, Fin a => inf_of_sign (a ?= 0)%Qc
  | Fin a, NInf | NInf, Fin a => inf_of_sign (0 ?= a)%Qc
  | PInf, PInf | NInf, NInf => PInf
  | PInf, NInf | NInf, PInf => NInf
  end.

(** Element-wise division as pandas and numpy perform it: a zero divisor
    gives an infinity with the sign of the dividend, or [NaN] for [0/0]. *)
Definition xdiv (x y : xfloat) : xfloat :=
  match x, y with
  | NaN, _ | _, NaN => NaN
  | Fin a, Fin b =>
      match (b ?= 0)%Qc with
      | Eq => inf_of_sign (a ?= 0)%Qc
      | _ => Fin (a / b)%Qc
      end
  | Fin _, (PInf | NInf) => Fin 0%Qc
  | PInf, Fin b => match (b ?= 0)%Qc with Lt => NInf | _ => PInf end
  | NInf, Fin b => match (b ?= 0)%Qc with Lt => PInf | _ => NInf end
  | (PInf | NInf), (PInf | NInf) => NaN
  end.

(** Python's [==] on floats: [NaN] equals nothing, itself included. *)
Definition xeqb (x y : xfloat) : bool :=
  match x, y with
  | Fin a, Fin b => Qc_eq_bool a b
  | PInf, PInf | NInf, NInf => true
  | _, _ => false
  end.

(** The larger of two values that are not [NaN]. *)
Definition xmax (x y : xfloat) : xfloat :=
  match x, y with
  | NaN, _ | _, NaN => NaN
  | PInf, _ | _, PInf => PInf
  | NInf, z | z, NInf => z
  | Fin a, Fin b => match (a ?= b)%Qc with Lt => Fin b | _ => Fin a end
  end.

(** Structural equality test, used to decide closed equations. *)
Definition xfloat_beq (x y : xfloat) : bool :=
  match x, y with
  | Fin a, Fin b => Qc_eq_bool a b
  | PInf, PInf | NInf, NInf | NaN, NaN => true
  | _, _ => false
  end.

(** Rounding to the nearest integer, ties to the even neighbour. *)
Definition round_half_even (q : Q) : Z :=
  let n := Qnum q in
  let d := Zpos (Qden q) in
  let f := (n / d)%Z in
  match (2 * (n mod d) ?= d)%Z with
  | Lt => f
  | Gt => (f + 1)%Z
  | Eq => if Z.even f then f else (f + 1)%Z
  end.

Definition ten4 : Qc := q_of_Z 10000.

(** [round(x, 4)] on a finite value. *)
Definition round4 (q : Qc) : Qc :=
  (q_of_Z (round_half_even (q * ten4)%Qc) / ten4)%Qc.

(** [round(x, 4)] on a float: the infinities and [NaN] are returned as is. *)
Definition py_round4 (x : xfloat) : xfloat :=
  match x with
  | Fin q => Fin (round4 q)
  | other => other
  end.

(** Python's builtin [sum]: a left fold that starts from [0]. *)
Definition py_sum (l : list xfloat) : xfloat := fold_left xadd l xzero.

(** Mean that skips [NaN] entries; an input with no entry left gives [NaN].
    This is [Series.mean()] of pandas (with its default [skipna=True]) and
    [np.nanmean] of numpy.  Infinite entries are kept. *)
Definition mean_skipna (l : list xfloat) : xfloat :=
  let v := filter (fun x => negb (isna x)) l in
  match v with
  | [] => NaN
  | _ => xdiv (py_sum v) (Fin (q_of_nat (List.length v)))
  end.

(** [Series.max()] of pandas: the largest entry that is not [NaN]. *)
Definition max_skipna (l : list xfloat) : xfloat :=
  match filter (fun x => negb (isna x)) l with
  | [] => NaN
  | x :: v => fold_left xmax v x
  end.

End XFloat.
Export XFloat.

(* ================================================================== *)
(** * Python values and exceptions *)
(* ================================================================== *)

Module Py.

Inductive exn : Type := ZeroDivisionError | TypeError.

Inductive res (A : Type) : Type :=
| Ok (a : A)
| Raise (e : exn).
Arguments Ok {A} a.
Arguments Raise {A} e.

Definition bind {A B} (m : res A) (k : A -> res B) : res B :=
  match m with
  | Ok a => k a
  | Raise e => Raise e
  end.

Fixpoint mapM {A B} (f : A -> res B) (l : list A) : res (list B) :=
  match l with
  | [] => Ok []
  | a :: t =>
      bind (f a) (fun b => bind (mapM f t) (fun bs => Ok (b :: bs)))
  end.

(** The objects the divisor of [safe_div] is tested against.  [NpNan] is the
    very object [np.nan]; any other float object, a [NaN]-valued one
    included, is a [PyFloat]. *)
Inductive pyval : Type :=
| PyNone
| NpNan
| PyFloat (x : xfloat).

(** [a / b] on Python scalars. *)
Definition truediv (a b : xfloat) : res xfloat :=
  if xeqb b xzero then Raise ZeroDivisionError else Ok (xdiv a b).

(** [a / b] where [b] is an arbitrary object. *)
Definition py_truediv (a : xfloat) (b : pyval) : res xfloat :=
  match b with
  | PyNone => Raise TypeError
  | NpNan => truediv a NaN
  | PyFloat x => truediv a x
  end.

(** [b in (0, None, np.nan)]: each element is compared by identity, then by
    [==]. *)
Definition in_guard (b : pyval) : bool :=
  match b with
  | PyNone => true
  | NpNan => true
  | PyFloat x => xeqb x xzero
  end.

End Py.
Export Py.

Notation "x <- m ;; k" := (bind m (fun x => k))
  (at level 61, m at next level, right associativity).

(* ================================================================== *)
(** * Tables and the left merge *)
(* ================================================================== *)

Module Tables.

(** The merge key: [["pc_id", "state", "constituency_name"]]. *)
Record key : Type := mk_key {
  k_pc_id : string;
  k_state : string;
  k_constituency_name : string
}.

Definition key_eqb (a b : key) : bool :=
  String.eqb (k_pc_id a) (k_pc_id b)
  && String.eqb (k_state a) (k_state b)
  && String.eqb (k_constituency_name a) (k_constituency_name b).

(** A numeric cell of an input file: a number, or nothing. *)
Definition cell : Type := option Qc.

(** The float that [pd.read_csv] stores for a cell: [NaN] for an empty
    one. *)
Definition of_cell (c : cell) : xfloat :=
  match c with
  | Some q => Fin q
  | None => NaN
  end.

(** A row of the demographics table; only the columns the scorer reads are
    kept. *)
Record demo_row : Type := mk_demo {
  d_key : key;
  d_total_registered_voters : cell;
  d_female_voters : cell;
  d_age_18_25 : cell;
  d_age_26_40 : cell;
  d_age_41_60 : cell;
  d_age_60_plus : cell;
  d_literacy_rate_percent : cell;
  d_last_election_turnout_percent : cell
}.

Record migration_row : Type := mk_migration {
  m_key : key;
  m_form6_addition_requests : cell;
  m_net_migration : cell
}.

Record system_row : Type := mk_system {
  s_key : key;
  s_total_requests : cell;
  s_rejected : cell;
  s_objections_raised : cell;
  s_cases_per_officer : cell
}.

(** A row of the joined table [df]. *)
Record joined : Type := mk_joined {
  pc_id : string;
  state : string;
  constituency_name : string;
  total_registered_voters : xfloat;
  female_voters : xfloat;
  age_18_25 : xfloat;
  age_26_40 : xfloat;
  age_41_60 : xfloat;
  age_60_plus : xfloat;
  literacy_rate_percent : xfloat;
  last_election_turnout_percent : xfloat;
  form6_addition_requests : xfloat;
  net_migration : xfloat;
  total_requests : xfloat;
  rejected : xfloat;
  objections_raised : xfloat;
  cases_per_officer : xfloat
}.

(** [left.merge(right, on=key, how="left")]: the rows of [left] in their
    order; a left row is paired with each right row of equal key, in the
    order of [right], and is kept once, unpaired, when there is none. *)
Definition merge_left {L R : Type} (kl : L -> key) (kr : R -> key)
    (left : list L) (right : list R) : list (L * option R) :=
  flat_map
    (fun l =>
       match filter (fun r => key_eqb (kl l) (kr r)) right with
       | [] => [(l, None)]
       | ms => map (fun r => (l, Some r)) ms
       end)
    left.

(** A column of the right table after the merge: the columns of an unpaired
    right row are filled with [NaN]. *)
Definition col {R : Type} (f : R -> cell) (o : option R) : xfloat :=
  match o with
  | Some r => of_cell (f r)
  | None => NaN
  end.

Definition join_row (x : demo_row * option migration_row * option system_row)
  : joined :=
  let '(d, om, os) := x in
  {| pc_id := k_pc_id (d_key d);
     state := k_state (d_key d);
     constituency_name := k_constituency_name (d_key d);
     total_registered_voters := of_cell (d_total_registered_voters d);
     female_voters := of_cell (d_female_voters d);
     age_18_25 := of_cell (d_age_18_25 d);
     age_26_40 := of_cell (d_age_26_40 d);
     age_41_60 := of_cell (d_age_41_60 d);
     age_60_plus := of_cell (d_age_60_plus d);
     literacy_rate_percent := of_cell (d_literacy_rate_percent d);
     last_election_turnout_percent := of_cell (d_last_election_turnout_percent d);
     form6_addition_requests := col m_form6_addition_requests om;
     net_migration := col m_net_migration om;
     total_requests := col s_total_requests os;
     rejected := col s_rejected os;
     objections_raised := col s_objections_raised os;
     cases_per_officer := col s_cases_per_officer os |}.

(** [df = demo_df.merge(migration_df, ...).merge(system_df, ...)]. *)
Definition df (demo_df : list demo_row) (migration_df : list migration_row)
    (system_df : list system_row) : list joined :=
  map join_row
    (merge_left (fun x => d_key (fst x)) s_key
       (merge_left d_key m_key demo_df migration_df)
       system_df).

End Tables.
Export Tables.

(* ================================================================== *)
(** * The scorer *)
(* ================================================================== *)

Module Analysis.

(** [safe_div(a, b)]. *)
Definition safe_div (a : xfloat) (b : pyval) : res xfloat :=
  if negb (in_guard b) then py_truediv a b else Ok NaN.

(** [deviation_score(value, reference)]. *)
Definition deviation_score (value reference : xfloat) : res xfloat :=
  if isna value || isna reference || xeqb reference xzero then Ok NaN
  else
    r <- truediv (xabs (xsub value reference)) reference ;;
    Ok (xsub xone r).

(** [normalize_partial(scores, weights)].  The final [/] is taken on Python
    scalars, as [total_weight] is a sum of the literal weights; were the
    numerator a numpy scalar, a zero [total_weight] would give an infinity
    or [NaN] instead of raising.  The weights of the script are positive,
    so their sum over a non-empty [valid] is never zero. *)
Definition normalize_partial (scores weights : list xfloat) : res xfloat :=
  let valid :=
    filter (fun sw => negb (isna (fst sw))) (combine scores weights) in
  match valid with
  | [] => Ok NaN
  | _ =>
      let total_weight := py_sum (map snd valid) in
      truediv (py_sum (map (fun sw => xmul (fst sw) (snd sw)) valid))
        total_weight
  end.

Definition IDEAL_GENDER_RATIO : xfloat := Fin (Q2Qc (1 # 2)).

(** The national reference values, computed once over [df]. *)
Record baselines : Type := mk_baselines {
  national_age_avg : list xfloat;
  national_literacy_avg : xfloat;
  national_turnout_avg : xfloat;
  national_form6_avg : xfloat;
  national_rejection_rate_avg : xfloat;
  national_objection_rate_avg : xfloat;
  national_max_cases_per_officer : xfloat
}.

(** [(df[num] / df[den])]: element-wise division of two columns. *)
Definition series_div (num den : joined -> xfloat) (t : list joined)
  : list xfloat :=
  map (fun r => xdiv (num r) (den r)) t.

Definition compute_baselines (t : list joined) : baselines :=
  {| national_age_avg :=
       [ mean_skipna (map age_18_25 t); mean_skipna (map age_26_40 t);
         mean_skipna (map age_41_60 t); mean_skipna (map age_60_plus t) ];
     national_literacy_avg := mean_skipna (map literacy_rate_percent t);
     national_turnout_avg :=
       mean_skipna (map last_election_turnout_percent t);
     national_form6_avg := mean_skipna (map form6_addition_requests t);
     national_rejection_rate_avg :=
       mean_skipna (series_div rejected total_requests t);
     national_objection_rate_avg :=
       mean_skipna (series_div objections_raised total_requests t);
     national_max_cases_per_officer :=
       max_skipna (map cases_per_officer t) |}.

(** [age_vec - age_avg_vec], element by element. *)
Fixpoint vec_sub (u v : list xfloat) : list xfloat :=
  match u, v with
  | a :: u', b :: v' => xsub a b :: vec_sub u' v'
  | _, _ => []
  end.

Definition age_vec (row : joined) : list xfloat :=
  [age_18_25 row; age_26_40 row; age_41_60 row; age_60_plus row].

(** [ADS = 1 - np.nanmean(np.abs(age_vec - age_avg_vec))]. *)
Definition ADS (b : baselines) (row : joined) : xfloat :=
  xsub xone
    (mean_skipna (map xabs (vec_sub (age_vec row) (national_age_avg b)))).

Definition GBS (row : joined) : res xfloat :=
  gender_ratio <-
    safe_div (female_voters row) (PyFloat (total_registered_voters row)) ;;
  deviation_score gender_ratio IDEAL_GENDER_RATIO.

Definition LCS (b : baselines) (row : joined) : res xfloat :=
  deviation_score (literacy_rate_percent row) (national_literacy_avg b).

Definition TAS (b : baselines) (row : joined) : res xfloat :=
  deviation_score (last_election_turnout_percent row)
    (national_turnout_avg b).

Definition w (n d : positive) : xfloat := Fin (Q2Qc (Zpos n # d)).

Definition SHS_weights : list xfloat :=
  [w 25 100; w 30 100; w 20 100; w 25 100].
Definition MPI_weights : list xfloat := [w 6 10; w 4 10].
Definition APS_weights : list xfloat := [w 40 100; w 35 100; w 25 100].

Definition SHS (b : baselines) (row : joined) : res xfloat :=
  gbs <- GBS row ;;
  let ads := ADS b row in
  lcs <- LCS b row ;;
  tas <- TAS b row ;;
  normalize_partial [gbs; ads; lcs; tas] SHS_weights.

Definition MPI (b : baselines) (row : joined) : res xfloat :=
  nmi <-
    safe_div (xabs (net_migration row))
      (PyFloat (form6_addition_requests row)) ;;
  f6r <-
    safe_div (form6_addition_requests row)
      (PyFloat (national_form6_avg b)) ;;
  normalize_partial [nmi; f6r] MPI_weights.

Definition APS (b : baselines) (row : joined) : res xfloat :=
  rejection_rate <-
    safe_div (rejected row) (PyFloat (total_requests row)) ;;
  rrd <-
    safe_div rejection_rate (PyFloat (national_rejection_rate_avg b)) ;;
  objection_rate <-
    safe_div (objections_raised row) (PyFloat (total_requests row)) ;;
  odd <-
    safe_div objection_rate (PyFloat (national_objection_rate_avg b)) ;;
  alp <-
    safe_div (cases_per_officer row)
      (PyFloat (national_max_cases_per_officer b)) ;;
  normalize_partial [rrd; odd; alp] APS_weights.

(** One dictionary appended to [results]; [None] is Python's [None]. *)
Record score_record : Type := mk_score {
  r_pc_id : string;
  r_state : string;
  r_constituency_name : string;
  statistical_health_score : option xfloat;
  migration_pressure_index : option xfloat;
  abuse_of_process_score : option xfloat
}.

(** [round(x, 4) if not pd.isna(x) else None]. *)
Definition emit (x : xfloat) : option xfloat :=
  if negb (isna x) then Some (py_round4 x) else None.

(** The body of the loop over [df.iterrows()]. *)
Definition score_row (b : baselines) (row : joined) : res score_record :=
  shs <- SHS b row ;;
  mpi <- MPI b row ;;
  aps <- APS b row ;;
  Ok {| r_pc_id := pc_id row;
        r_state := state row;
        r_constituency_name := constituency_name row;
        statistical_health_score := emit shs;
        migration_pressure_index := emit mpi;
        abuse_of_process_score := emit aps |}.

(** The loop: [results], or the exception that stopped it. *)
Definition results (t : list joined) : res (list score_record) :=
  mapM (score_row (compute_baselines t)) t.

(** The whole script, from the three tables read to [results]. *)
Definition analysis (demo_df : list demo_row)
    (migration_df : list migration_row) (system_df : list system_row)
  : res (list score_record) :=
  results (df demo_df migration_df system_df).

End Analysis.
Export Analysis.

(* ================================================================== *)
(** * The behaviour the specification describes *)
(* ================================================================== *)

Module Spec.

(** A denominator that yields a value: neither missing nor zero. *)
Definition usable_denominator (x : xfloat) : bool :=
  negb (isna x) && negb (xeqb x xzero).

(** A rate baseline as the specification words it: the mean of the per-row
    ratios, where a row with a zero or missing denominator contributes no
    value. *)
Definition rate_baseline_spec (num den : joined -> xfloat) (t : list joined)
  : xfloat :=
  mean_skipna
    (map (fun r => xdiv (num r) (den r))
       (filter (fun r => usable_denominator (den r)) t)).

(** The (score, weight) pairs whose score is present. *)
Fixpoint surviving (scores weights : list xfloat) : list (xfloat * xfloat) :=
  match scores, weights with
  | s :: ss, wt :: ws =>
      if isna s then surviving ss ws else (s, wt) :: surviving ss ws
  | _, _ => []
  end.

(** Sum of a list, as the mathematical sum of its terms. *)
Definition total (l : list xfloat) : xfloat := fold_right xadd xzero l.

(** The weighted mean of (score, weight) pairs, normalised by the sum of
    their weights. *)
Definition weighted_mean (ps : list (xfloat * xfloat)) : res xfloat :=
  truediv (total (map (fun p => xmul (fst p) (snd p)) ps))
    (total (map snd ps)).

(** [weighted_partial_average]: the weighted mean of the surviving pairs;
    missing when nothing survives. *)
Definition weighted_partial_average (scores weights : list xfloat)
  : res xfloat :=
  match surviving scores weights with
  | [] => Ok NaN
  | ps => weighted_mean ps
  end.

(** The absolute differences of the brackets whose value is present. *)
Fixpoint present_terms (ages avgs : list xfloat) : list xfloat :=
  match ages, avgs with
  | a :: ages', m :: avgs' =>
      if isna a then present_terms ages' avgs'
      else xabs (xsub a m) :: present_terms ages' avgs'
  | _, _ => []
  end.

(** [deviation_score] as a formula on rationals. *)
Definition deviation_formula (v r : Qc) : Qc :=
  (1 - Qcabs (v - r) / r)%Qc.

End Spec.
Export Spec.

(* ================================================================== *)
(** * Value forms of the scorer *)
(* ================================================================== *)

(** The scorer's functions never raise on the values the loop feeds them;
    the definitions below give the value each of them returns, and the
    lemmas further down relate them to the functions above. *)

Module Values.

Definition safe_div_v (a x : xfloat) : xfloat :=
  if xeqb x xzero then NaN else xdiv a x.

Definition deviation_v (value reference : xfloat) : xfloat :=
  if isna value || isna reference || xeqb reference xzero then NaN
  else xsub xone (xdiv (xabs (xsub value reference)) reference).

Definition normalize_v (scores weights : list xfloat) : xfloat :=
  match surviving scores weights with
  | [] => NaN
  | ps =>
      xdiv (py_sum (map (fun p => xmul (fst p) (snd p)) ps))
        (py_sum (map snd ps))
  end.

Definition GBS_v (row : joined) : xfloat :=
  deviation_v (safe_div_v (female_voters row) (total_registered_voters row))
    IDEAL_GENDER_RATIO.

Definition LCS_v (b : baselines) (row : joined) : xfloat :=
  deviation_v (literacy_rate_percent row) (national_literacy_avg b).

Definition TAS_v (b : baselines) (row : joined) : xfloat :=
  deviation_v (last_election_turnout_percent row) (national_turnout_avg b).

Definition SHS_v (b : baselines) (row : joined) : xfloat :=
  normalize_v [GBS_v row; ADS b row; LCS_v b row; TAS_v b row] SHS_weights.

Definition MPI_v (b : baselines) (row : joined) : xfloat :=
  normalize_v
    [ safe_div_v (xabs (net_migration row)) (form6_addition_requests row);
      safe_div_v (form6_addition_requests row) (national_form6_avg b) ]
    MPI_weights.

Definition APS_v (b : baselines) (row : joined) : xfloat :=
  normalize_v
    [ safe_div_v (safe_div_v (rejected row) (total_requests row))
        (national_rejection_rate_avg b);
      safe_div_v (safe_div_v (objections_raised row) (total_requests row))
        (national_objection_rate_avg b);
      safe_div_v (cases_per_officer row) (national_max_cases_per_officer b) ]
    APS_weights.

Definition score_row_v (b : baselines) (row : joined) : score_record :=
  {| r_pc_id := pc_id row;
     r_state := state row;
     r_constituency_name := constituency_name row;
     statistical_health_score := emit (SHS_v b row);
     migration_pressure_index := emit (MPI_v b row);
     abuse_of_process_score := emit (APS_v b row) |}.

(** A float that is finite or missing. *)
Definition not_inf (x : xfloat) : Prop := is_inf x = false.

(** A weight: a positive finite number. *)
Definition positive_weight (x : xfloat) : Prop :=
  exists q : Qc, x = Fin q /\ (0 < q)%Qc.

(** The numeric cells of a joined row are finite or missing. *)
Definition cells_not_inf (r : joined) : Prop :=
  Forall not_inf
    [ total_registered_voters r; female_voters r; age_18_25 r; age_26_40 r;
      age_41_60 r; age_60_plus r; literacy_rate_percent r;
      last_election_turnout_percent r; form6_addition_requests r;
      net_migration r; total_requests r; rejected r; objections_raised r;
      cases_per_officer r ].

(** The identity columns of an output record. *)
Definition record_key (r : score_record) : key :=
  {| k_pc_id := r_pc_id r;
     k_state := r_state r;
     k_constituency_name := r_constituency_name r |}.

Definition demo_pc_id (d : demo_row) : string := k_pc_id (d_key d).
Definition migration_pc_id (m : migration_row) : string := k_pc_id (m_key m).
Definition system_pc_id (s : system_row) : string := k_pc_id (s_key s).

(** Decides closed equations between results. *)
Definition res_beq (x y : res xfloat) : bool :=
  match x, y with
  | Ok a, Ok b => xfloat_beq a b
  | Raise ZeroDivisionError, Raise ZeroDivisionError => true
  | Raise TypeError, Raise TypeError => true
  | _, _ => false
  end.

Definition opt_beq (x y : option xfloat) : bool :=
  match x, y with
  | Some a, Some b => xfloat_beq a b
  | None, None => true
  | _, _ => false
  end.

End Values.
Export Values.

(* ================================================================== *)
(** * Sample tables *)
(* ================================================================== *)

Module Samples.

Definition num (z : Z) : xfloat := Fin (q_of_Z z).

(** A cell that holds an integer. *)
Definition cnum (z : Z) : cell := Some (q_of_Z z).

Definition sample_key (id : string) : key :=
  {| k_pc_id := id; k_state := "S"; k_constituency_name := id |}.

(** A demographics row whose numeric cells are empty. *)
Definition blank_demo (id : string) : demo_row :=
  mk_demo (sample_key id) None None None None None None None None.

(** The joined row of a constituency found in neither right table. *)
Definition demo_only (d : demo_row) : joined := join_row (d, None, None).

(** Two constituencies; the first one has one request rejected and one
    objection raised against a total of zero requests. *)
Definition zero_total_demo : list demo_row :=
  [blank_demo "PC001"; blank_demo "PC002"].

Definition zero_total_system : list system_row :=
  [ mk_system (sample_key "PC001") (cnum 0) (cnum 1) (cnum 1) (cnum 5);
    mk_system (sample_key "PC002") (cnum 2) (cnum 1) (cnum 1) (cnum 5) ].

Definition zero_total_table : list joined :=
  df zero_total_demo [] zero_total_system.

Definition zero_total_row : joined :=
  join_row
    (blank_demo "PC001", None,
     Some (mk_system (sample_key "PC001") (cnum 0) (cnum 1) (cnum 1)
             (cnum 5))).

(** One constituency whose age brackets are zero where present: the national
    averages of the present brackets are zero. *)
Definition zero_age_demo : list demo_row :=
  [ mk_demo (sample_key "PC001") None None (cnum 0) None (cnum 0) (cnum 0)
      None None ].

Definition zero_age_row : joined :=
  demo_only
    (mk_demo (sample_key "PC001") None None (cnum 0) None (cnum 0) (cnum 0)
       None None).

(** A constituency that sits on every reference value. *)
Definition balanced_row : joined :=
  demo_only
    (mk_demo (sample_key "PC001") (cnum 2000) (cnum 1000) (cnum 300)
       (cnum 700) (cnum 600) (cnum 400) (cnum 74) (cnum 67)).

Definition balanced_baselines : baselines :=
  {| national_age_avg := [num 300; num 700; num 600; num 400];
     national_literacy_avg := num 74;
     national_turnout_avg := num 67;
     national_form6_avg := NaN;
     national_rejection_rate_avg := NaN;
     national_objection_rate_avg := NaN;
     national_max_cases_per_officer := NaN |}.

(** Three small input tables: the second constituency has no migration
    row and the system-load table is empty. *)
Definition sample_demo : list demo_row :=
  [ mk_demo (sample_key "PC001") (cnum 2000) (cnum 1000) (cnum 300)
      (cnum 700) (cnum 600) (cnum 400) (cnum 74) (cnum 67);
    mk_demo (sample_key "PC002") (cnum 1000) (cnum 400) (cnum 100) None
      (cnum 500) (cnum 400) (cnum 80) None ].

Definition sample_migration : list migration_row :=
  [ mk_migration (sample_key "PC001") (cnum 50) (cnum (-10)) ].

Definition sample_system : list system_row := [].

End Samples.
Export Samples.

(* ================================================================== *)
(** * The sub-scores of the migration and abuse-of-process indices *)
(* ================================================================== *)

(** The intermediate values of the loop body, under the names the script
    gives them. *)

Module SubScores.

Definition NMI (row : joined) : res xfloat :=
  safe_div (xabs (net_migration row)) (PyFloat (form6_addition_requests row)).

Definition F6R (b : baselines) (row : joined) : res xfloat :=
  safe_div (form6_addition_requests row) (PyFloat (national_form6_avg b)).

Definition rejection_rate (row : joined) : res xfloat :=
  safe_div (rejected row) (PyFloat (total_requests row)).

Definition RRD (b : baselines) (row : joined) : res xfloat :=
  r <- rejection_rate row ;;
  safe_div r (PyFloat (national_rejection_rate_avg b)).

Definition objection_rate (row : joined) : res xfloat :=
  safe_div (objections_raised row) (PyFloat (total_requests row)).

Definition ODD (b : baselines) (row : joined) : res xfloat :=
  r <- objection_rate row ;;
  safe_div r (PyFloat (national_objection_rate_avg b)).

Definition ALP (b : baselines) (row : joined) : res xfloat :=
  safe_div (cases_per_officer row)
    (PyFloat (national_max_cases_per_officer b)).

(** The number of right rows a left row is paired with. *)
Definition matches {R : Type} (kr : R -> key) (k : key) (right : list R)
  : nat :=
  List.length (filter (fun r => key_eqb k (kr r)) right).

End SubScores.
Export SubScores.

(* ================================================================== *)
(** * The synthetic data generator ([synthetic_generation.py]) *)
(* ================================================================== *)

(** The generator asks Faker for random numbers and derives the columns of
    a row from them.  The embedding takes the numbers Faker returned as the
    _draws_ of a row, and gives the derivation of the columns.  The ranges
    Faker was asked for are the [*_ok] predicates.  The column
    [avg_processing_time_days], whose range is computed with [math.log], and
    the constant text columns are left out. *)

Module Generation.

(** [int(x)]: truncation towards zero. *)
Definition py_int (q : Qc) : Z := Z.quot (Qnum q) (Zpos (Qden q)).

Definition ten_pow (digits : nat) : Qc := q_of_Z (10 ^ Z.of_nat digits).

(** [round(x, digits)]. *)
Definition py_round (digits : nat) (q : Qc) : Qc :=
  (q_of_Z (round_half_even (q * ten_pow digits)%Qc) / ten_pow digits)%Qc.

Definition dec (n : Z) (d : positive) : Qc := Q2Qc (n # d).

Definition TOTAL_VOTERS_INDIA : Z := 968000000.
Definition ANNUAL_FORM6_NATIONAL : Z := 2000000.
Definition AVG_VOTERS_PER_PC : Qc := (q_of_Z TOTAL_VOTERS_INDIA / q_of_Z 543)%Qc.

(** ** Category A: voter demographics *)

Record demographic_draws : Type := mk_demographic_draws {
  dr_total_voters : Z;
  dr_male_ratio : Qc;
  dr_age_18_25 : Qc;
  dr_age_26_40 : Qc;
  dr_age_41_60 : Qc;
  dr_literacy_rate : Qc;
  dr_turnout_rate : Qc
}.

Definition demographic_draws_ok (d : demographic_draws) : Prop :=
  (py_int (AVG_VOTERS_PER_PC * dec 5 10) <= dr_total_voters d
   <= py_int (AVG_VOTERS_PER_PC * dec 18 10))%Z
  /\ (dec 48 100 <= dr_male_ratio d <= dec 54 100)%Qc
  /\ (dec 15 100 <= dr_age_18_25 d <= dec 22 100)%Qc
  /\ (dec 30 100 <= dr_age_26_40 d <= dec 38 100)%Qc
  /\ (dec 28 100 <= dr_age_41_60 d <= dec 35 100)%Qc
  /\ (dec 55 1 <= dr_literacy_rate d <= dec 95 1)%Qc
  /\ (dec 45 1 <= dr_turnout_rate d <= dec 85 1)%Qc.

Record demographic_record : Type := mk_demographic_record {
  g_total_registered_voters : Z;
  g_male_voters : Z;
  g_female_voters : Z;
  g_age_18_25 : Z;
  g_age_26_40 : Z;
  g_age_41_60 : Z;
  g_age_60_plus : Z;
  g_literacy_rate_percent : Qc;
  g_last_election_turnout_percent : Qc
}.

Definition demographic_row (d : demographic_draws) : demographic_record :=
  let total_voters := dr_total_voters d in
  let male_voters := py_int (q_of_Z total_voters * dr_male_ratio d) in
  let female_voters := (total_voters - male_voters)%Z in
  let age_18_25 := py_int (q_of_Z total_voters * dr_age_18_25 d) in
  let age_26_40 := py_int (q_of_Z total_voters * dr_age_26_40 d) in
  let age_41_60 := py_int (q_of_Z total_voters * dr_age_41_60 d) in
  let age_60_plus :=
    (total_voters - (age_18_25 + age_26_40 + age_41_60))%Z in
  {| g_total_registered_voters := total_voters;
     g_male_voters := male_voters;
     g_female_voters := female_voters;
     g_age_18_25 := age_18_25;
     g_age_26_40 := age_26_40;
     g_age_41_60 := age_41_60;
     g_age_60_plus := age_60_plus;
     g_literacy_rate_percent := py_round 2 (dr_literacy_rate d);
     g_last_election_turnout_percent := py_round 2 (dr_turnout_rate d) |}.

(** ** Category B: migration *)

Record migration_draws : Type := mk_migration_draws {
  dr_base_form6 : Z;
  dr_inward_ratio : Qc;
  dr_form_7_deletions : Z;
  dr_form_8_corrections : Z
}.

(** [AVG_FORM6_PER_PC = ANNUAL_FORM6_NATIONAL / TOTAL_PCS], for the number of
    constituencies read. *)
Definition AVG_FORM6_PER_PC (TOTAL_PCS : positive) : Qc :=
  (q_of_Z ANNUAL_FORM6_NATIONAL / q_of_Z (Zpos TOTAL_PCS))%Qc.

(** The binary64 numbers the literals [0.35] and [0.65] denote: the first
    lies below 35/100 and the second above 65/100. *)
Definition float_0_35 : Qc := Q2Qc (3152519739159347 # 9007199254740992).
Definition float_0_65 : Qc := Q2Qc (5854679515581645 # 9007199254740992).

Definition migration_draws_ok (TOTAL_PCS : positive) (d : migration_draws)
  : Prop :=
  (py_int (AVG_FORM6_PER_PC TOTAL_PCS * dec 4 10) <= dr_base_form6 d
   <= py_int (AVG_FORM6_PER_PC TOTAL_PCS * dec 20 10))%Z
  /\ (float_0_35 <= dr_inward_ratio d <= float_0_65)%Qc
  /\ (py_int (q_of_Z (dr_base_form6 d) * dec 5 100) <= dr_form_7_deletions d
      <= py_int (q_of_Z (dr_base_form6 d) * dec 15 100))%Z
  /\ (py_int (q_of_Z (dr_base_form6 d) * dec 10 100)
      <= dr_form_8_corrections d
      <= py_int (q_of_Z (dr_base_form6 d) * dec 25 100))%Z.

Record migration_record : Type := mk_migration_record {
  g_form6_addition_requests : Z;
  g_form6_inward_migration : Z;
  g_form6_outward_migration : Z;
  g_net_migration : Z;
  g_form7_deletion_requests : Z;
  g_form8_correction_requests : Z
}.

Definition migration_row_of (d : migration_draws) : migration_record :=
  let base_form6 := dr_base_form6 d in
  let inward := py_int (q_of_Z base_form6 * dr_inward_ratio d) in
  let outward := (base_form6 - inward)%Z in
  let net := (inward - outward)%Z in
  {| g_form6_addition_requests := base_form6;
     g_form6_inward_migration := inward;
     g_form6_outward_migration := outward;
     g_net_migration := net;
     g_form7_deletion_requests := dr_form_7_deletions d;
     g_form8_correction_requests := dr_form_8_corrections d |}.

(** ** Category C: system load *)

Record system_draws : Type := mk_system_draws {
  dr_approved_ratio : Qc;
  dr_rejected_ratio : Qc;
  dr_objections : Z;
  dr_resolved_ratio : Qc;
  dr_freeze_pending : Z;
  dr_officers_assigned : Z
}.

Record system_record : Type := mk_system_record {
  g_total_requests : Z;
  g_approved : Z;
  g_rejected : Z;
  g_pending : Z;
  g_objections_raised : Z;
  g_objections_resolved : Z;
  g_objections_pending : Z;
  g_freeze_period_pending : Z;
  g_officers_assigned : Z;
  g_cases_per_officer : Qc
}.

(** [officers_assigned] is drawn from 2 to 12, so [total_requests /
    officers_assigned] has a nonzero divisor; the quotient below is the
    rational one. *)
Definition system_row_of (mig_row : migration_record) (d : system_draws)
  : system_record :=
  let total_requests :=
    (g_form6_addition_requests mig_row + g_form7_deletion_requests mig_row
     + g_form8_correction_requests mig_row)%Z in
  let approved := py_int (q_of_Z total_requests * dr_approved_ratio d) in
  let rejected := py_int (q_of_Z total_requests * dr_rejected_ratio d) in
  let pending := Z.max 0 (total_requests - (approved + rejected)) in
  let objections :=
    if (0 <? total_requests)%Z then dr_objections d else 0%Z in
  let objections_resolved :=
    py_int (q_of_Z objections * dr_resolved_ratio d) in
  let objections_pending := Z.max 0 (objections - objections_resolved) in
  let freeze_pending :=
    if (0 <? pending)%Z then dr_freeze_pending d else 0%Z in
  let officers_assigned := dr_officers_assigned d in
  {| g_total_requests := total_requests;
     g_approved := approved;
     g_rejected := rejected;
     g_pending := pending;
     g_objections_raised := objections;
     g_objections_resolved := objections_resolved;
     g_objections_pending := objections_pending;
     g_freeze_period_pending := freeze_pending;
     g_officers_assigned := officers_assigned;
     g_cases_per_officer :=
       py_round 1 (q_of_Z total_requests / q_of_Z officers_assigned) |}.

(** The ranges asked of Faker for the system-load draws of a row with the
    given [total_requests] and [pending]. *)
Definition system_draws_ok (total_requests pending : Z) (d : system_draws)
  : Prop :=
  (dec 75 100 <= dr_approved_ratio d <= dec 92 100)%Qc
  /\ (dec 3 100 <= dr_rejected_ratio d <= dec 12 100)%Qc
  /\ (Z.max 0 (py_int (q_of_Z total_requests * dec 1 100)) <= dr_objections d
      <= py_int (q_of_Z total_requests * dec 8 100))%Z
  /\ (dec 60 100 <= dr_resolved_ratio d <= dec 95 100)%Qc
  /\ (py_int (q_of_Z pending * dec 3 10) <= dr_freeze_pending d
      <= Z.max (py_int (q_of_Z pending * dec 3 10))
           (py_int (q_of_Z pending * dec 7 10)))%Z
  /\ (2 <= dr_officers_assigned d <= 12)%Z.

(** ** The written tables, as the scorer reads them *)

Definition int_cell (z : Z) : cell := Some (q_of_Z z).

Definition written_demo (k : key) (r : demographic_record) : demo_row :=
  {| d_key := k;
     d_total_registered_voters := int_cell (g_total_registered_voters r);
     d_female_voters := int_cell (g_female_voters r);
     d_age_18_25 := int_cell (g_age_18_25 r);
     d_age_26_40 := int_cell (g_age_26_40 r);
     d_age_41_60 := int_cell (g_age_41_60 r);
     d_age_60_plus := int_cell (g_age_60_plus r);
     d_literacy_rate_percent := Some (g_literacy_rate_percent r);
     d_last_election_turnout_percent :=
       Some (g_last_election_turnout_percent r) |}.

Definition written_migration (k : key) (r : migration_record)
  : migration_row :=
  {| m_key := k;
     m_form6_addition_requests := int_cell (g_form6_addition_requests r);
     m_net_migration := int_cell (g_net_migration r) |}.

Definition written_system (k : key) (r : system_record) : system_row :=
  {| s_key := k;
     s_total_requests := int_cell (g_total_requests r);
     s_rejected := int_cell (g_rejected r);
     s_objections_raised := int_cell (g_objections_raised r);
     s_cases_per_officer := Some (g_cases_per_officer r) |}.

(** ** The three loops *)

(** Each loop runs once per row of the table it iterates over and appends
    one row, computed from the draws of that iteration: [draws] lists them
    in the order of the iterations. *)
Definition demographic_rows (pc_df : list key)
    (draws : list demographic_draws) : list (key * demographic_record) :=
  map (fun kd => (fst kd, demographic_row (snd kd))) (combine pc_df draws).

Definition migration_rows (pc_df : list key) (draws : list migration_draws)
  : list (key * migration_record) :=
  map (fun kd => (fst kd, migration_row_of (snd kd))) (combine pc_df draws).

(** The loop over [migration_df.iterrows()]. *)
Definition system_rows (migration_df : list (key * migration_record))
    (draws : list system_draws) : list (key * system_record) :=
  map (fun md => (fst (fst md), system_row_of (snd (fst md)) (snd md)))
    (combine migration_df draws).

(** The three files, as the scorer reads them. *)
Definition written_demo_df (rows : list (key * demographic_record))
  : list demo_row :=
  map (fun kr => written_demo (fst kr) (snd kr)) rows.

Definition written_migration_df (rows : list (key * migration_record))
  : list migration_row :=
  map (fun kr => written_migration (fst kr) (snd kr)) rows.

Definition written_system_df (rows : list (key * system_record))
  : list system_row :=
  map (fun kr => written_system (fst kr) (snd kr)) rows.

End Generation.
Export Generation.

(* ================================================================== *)
(** * The constituency list ([fetch_constituencies.py]) *)
(* ================================================================== *)

(** The names found by the web search are the input [extracted_names] of
    the script's main part; the search and the regular expressions are not
    modelled. *)

Module Fetch.

#[local] Open Scope string_scope.

Definition KNOWN_CONSTITUENCIES : list (string * string) :=
  [
    ("Maharashtra", "Mumbai North"); ("Maharashtra", "Mumbai South");
    ("Maharashtra", "Mumbai North West");
    ("Maharashtra", "Mumbai North East");
    ("Maharashtra", "Mumbai North Central");
    ("Maharashtra", "Mumbai South Central"); ("Maharashtra", "Pune");
    ("Maharashtra", "Nagpur"); ("Maharashtra", "Thane");
    ("Maharashtra", "Nashik"); ("Delhi", "Chandni Chowk");
    ("Delhi", "New Delhi"); ("Delhi", "North East Delhi");
    ("Delhi", "East Delhi"); ("Delhi", "North West Delhi");
    ("Delhi", "West Delhi"); ("Delhi", "South Delhi");
    ("Karnataka", "Bangalore North"); ("Karnataka", "Bangalore Central");
    ("Karnataka", "Bangalore South"); ("Karnataka", "Bangalore Rural");
    ("Karnataka", "Mysore"); ("Karnataka", "Mangalore");
    ("Tamil Nadu", "Chennai North"); ("Tamil Nadu", "Chennai South");
    ("Tamil Nadu", "Chennai Central"); ("Tamil Nadu", "Coimbatore");
    ("Tamil Nadu", "Madurai"); ("West Bengal", "Kolkata North");
    ("West Bengal", "Kolkata South"); ("West Bengal", "Howrah");
    ("West Bengal", "Darjeeling"); ("Gujarat", "Ahmedabad East");
    ("Gujarat", "Ahmedabad West"); ("Gujarat", "Surat");
    ("Gujarat", "Vadodara"); ("Rajasthan", "Jaipur");
    ("Rajasthan", "Jaipur Rural"); ("Rajasthan", "Jodhpur");
    ("Rajasthan", "Udaipur"); ("Uttar Pradesh", "Lucknow");
    ("Uttar Pradesh", "Kanpur"); ("Uttar Pradesh", "Varanasi");
    ("Uttar Pradesh", "Allahabad"); ("Uttar Pradesh", "Agra");
    ("Uttar Pradesh", "Meerut"); ("Uttar Pradesh", "Ghaziabad");
    ("Uttar Pradesh", "Noida"); ("Telangana", "Hyderabad");
    ("Telangana", "Secunderabad"); ("Kerala", "Thiruvananthapuram");
    ("Kerala", "Ernakulam"); ("Kerala", "Thrissur");
    ("Punjab", "Amritsar"); ("Punjab", "Ludhiana");
    ("Haryana", "Gurugram"); ("Haryana", "Faridabad");
    ("Bihar", "Patna Sahib"); ("Bihar", "Gaya");
    ("Madhya Pradesh", "Bhopal"); ("Madhya Pradesh", "Indore");
    ("Andhra Pradesh", "Visakhapatnam"); ("Andhra Pradesh", "Vijayawada")
  ].

Definition states : list string :=
  [
    "Uttar Pradesh"; "Maharashtra"; "West Bengal"; "Bihar";
    "Madhya Pradesh"; "Tamil Nadu"; "Rajasthan"; "Karnataka"; "Gujarat";
    "Andhra Pradesh"; "Odisha"; "Telangana"; "Kerala"; "Jharkhand";
    "Assam"; "Punjab"; "Chhattisgarh"; "Haryana"; "Uttarakhand";
    "Himachal Pradesh"; "Tripura"; "Meghalaya"; "Manipur"; "Nagaland";
    "Goa"; "Arunachal Pradesh"; "Mizoram"; "Sikkim"; "Jammu and Kashmir";
    "Ladakh"
  ].

#[local] Close Scope string_scope.

(** [f"{n}"]: the decimal digits of a non-negative integer. *)
Definition show_nat (n : nat) : string :=
  NilEmpty.string_of_uint (Nat.to_uint n).

Fixpoint zeros (n : nat) : string :=
  match n with
  | O => EmptyString
  | S n' => String "0"%char (zeros n')
  end.

(** [f"{i:03d}"]: the digits, padded with zeros on the left to three
    characters. *)
Definition format_03d (i : nat) : string :=
  let s := show_nat i in
  (zeros (3 - String.length s) ++ s)%string.

(** The [while] loop of [generate_extended_constituencies], run for at most
    [fuel] iterations. *)
Fixpoint extend_loop (fuel target_count idx : nat)
    (extended : list (string * string)) : list (string * string) :=
  match fuel with
  | O => extended
  | S fuel' =>
      if List.length extended <? target_count then
        let state := nth (idx mod List.length states) states EmptyString in
        extend_loop fuel' target_count (S idx)
          (extended ++ [(state, (state ++ " " ++ show_nat idx)%string)])
      else extended
  end.

(** [generate_extended_constituencies(base_list, target_count)]; every
    iteration of the loop adds one entry, so [target_count] iterations are
    enough. *)
Definition generate_extended_constituencies
    (base_list : list (string * string)) (target_count : nat)
  : list (string * string) :=
  firstn target_count (extend_loop target_count target_count 1 base_list).

(** [x in seen]. *)
Definition mem (x : string) (seen : list string) : bool :=
  existsb (String.eqb x) seen.

(** One iteration of the loop over [extracted_names]; the state is
    [(all_constituencies, seen)]. *)
Definition add_extracted
    (acc : list (string * string) * list string) (name : string)
  : list (string * string) * list string :=
  if negb (mem name (snd acc))
  then (fst acc ++ [("India"%string, name)], name :: snd acc)
  else acc.

(** One iteration of the loop over [KNOWN_CONSTITUENCIES]. *)
Definition add_known
    (acc : list (string * string) * list string) (p : string * string)
  : list (string * string) * list string :=
  let key := (fst p ++ ":" ++ snd p)%string in
  if negb (mem key (snd acc))
  then (fst acc ++ [p], key :: snd acc)
  else acc.

(** [all_constituencies] before it is extended. *)
Definition combined (extracted_names : list string)
  : list (string * string) :=
  fst (fold_left add_known KNOWN_CONSTITUENCIES
         (fold_left add_extracted extracted_names ([], []))).

Definition all_constituencies (extracted_names : list string)
  : list (string * string) :=
  generate_extended_constituencies (combined extracted_names) 543.

(** [enumerate(all_constituencies, start=i)] turned into rows. *)
Fixpoint rows_from (i : nat) (l : list (string * string)) : list key :=
  match l with
  | [] => []
  | (state, name) :: l' =>
      {| k_pc_id := ("PC" ++ format_03d i)%string;
         k_state := state;
         k_constituency_name := name |} :: rows_from (S i) l'
  end.

(** The rows written to the constituency file. *)
Definition rows (extracted_names : list string) : list key :=
  rows_from 1 (all_constituencies extracted_names).

End Fetch.
Export Fetch.

(* ================================================================== *)
(** * Sample rows and draws *)
(* ================================================================== *)

Module GeneratedSamples.

(** A constituency with Form 6 requests and no net migration. *)
Definition still_migration : migration_row :=
  mk_migration (sample_key "PC001"%string) (cnum 50) (cnum 0).

Definition still_table : list joined :=
  df [blank_demo "PC001"%string] [still_migration] [].

Definition still_row : joined :=
  join_row (blank_demo "PC001"%string, Some still_migration, None).

(** The second constituency of [sample_demo], which has no migration row. *)
Definition unmatched_row : joined :=
  demo_only
    (mk_demo (sample_key "PC002"%string) (cnum 1000) (cnum 400) (cnum 100)
       None (cnum 500) (cnum 400) (cnum 80) None).

(** Draws within the ranges asked of Faker, for 543 constituencies. *)
Definition sample_demographic_draws : demographic_draws :=
  mk_demographic_draws 1000000 (dec 1 2) (dec 1 5) (dec 35 100) (dec 3 10)
    (dec 70 1) (dec 60 1).

Definition sample_migration_draws : migration_draws :=
  mk_migration_draws 2000 (dec 1 2) 200 400.

(** The least inward ratio Faker can return, on 2580 requests. *)
Definition tight_migration_draws : migration_draws :=
  mk_migration_draws 2580 float_0_35 200 400.

Definition sample_system_draws : system_draws :=
  mk_system_draws (dec 8 10) (dec 5 100) 100 (dec 8 10) 200 5.

End GeneratedSamples.
Export GeneratedSamples.

(* ================================================================== *)
(** * The scorer on binary64 numbers *)
(* ================================================================== *)

(** The modules above read the arithmetic of the script on exact rationals.
    The module below follows [analysis.py] operation by operation on IEEE 754
    binary64 numbers, with the rounding of every operation, the overflow to
    an infinity and the sign of zero, as [SpecFloat] defines them for a
    precision of 53 bits.  It also keeps apart the two kinds of scalar the
    script mixes, since they divide and round differently:
    - Python floats: the cells of a row of [df.iterrows()] (the columns of
      [df] have mixed types, so a row holds Python objects), the literal
      weights and [np.nan];
    - numpy [float64] scalars: the national reference values and the result
      of [np.nanmean].
    An operation with a numpy operand gives a numpy scalar. *)

Module B64.

Definition prec : Z := 53.
Definition emax : Z := 1024.

Definition float : Type := spec_float.

Definition nan : float := S754_nan.
Definition zero : float := S754_zero false.
Definition pinf : float := S754_infinity false.
Definition ninf : float := S754_infinity true.

Definition add : float -> float -> float := SFadd prec emax.
Definition sub : float -> float -> float := SFsub prec emax.
Definition mul : float -> float -> float := SFmul prec emax.
Definition div : float -> float -> float := SFdiv prec emax.
Definition abs : float -> float := SFabs.

(** [==] on floats: [NaN] equals nothing, and the two zeros are equal. *)
Definition eqb : float -> float -> bool := SFeqb.

Definition is_nan (x : float) : bool :=
  match x with S754_nan => true | _ => false end.

Definition is_inf (x : float) : bool :=
  match x with S754_infinity _ => true | _ => false end.

Definition is_finite (x : float) : bool :=
  match x with S754_zero _ | S754_finite _ _ _ => true | _ => false end.

(** The float nearest to an integer. *)
Definition of_Z (z : Z) : float := binary_normalize prec emax z 0 false.

Definition one : float := of_Z 1.

(** The float a decimal literal [n/d] denotes: the float nearest to the
    quotient (for [n] and [d] below [2^53], which are floats themselves). *)
Definition dec (n d : Z) : float := div (of_Z n) (of_Z d).

(** ** Python floats and numpy scalars *)

Inductive num : Type :=
| Py (x : float)
| Np (x : float).

Definition val (a : num) : float :=
  match a with Py x | Np x => x end.

(** [pd.isna]. *)
Definition isna (a : num) : bool := is_nan (val a).

(** [np.nan] is a Python float. *)
Definition np_nan : num := Py nan.

Definition lift2 (op : float -> float -> float) (a b : num) : num :=
  match a, b with
  | Py x, Py y => Py (op x y)
  | _, _ => Np (op (val a) (val b))
  end.

Definition nadd : num -> num -> num := lift2 add.
Definition nsub : num -> num -> num := lift2 sub.
Definition nmul : num -> num -> num := lift2 mul.

Definition nabs (a : num) : num :=
  match a with
  | Py x => Py (abs x)
  | Np x => Np (abs x)
  end.

(** [a / b]: the division of two Python floats raises on a zero divisor;
    with a numpy operand it follows the standard and gives an infinity or
    [NaN]. *)
Definition truediv (a b : num) : res num :=
  match a, b with
  | Py x, Py y =>
      if eqb y zero then Raise ZeroDivisionError else Ok (Py (div x y))
  | _, _ => Ok (Np (div (val a) (val b)))
  end.

(** Python's builtin [sum]: from the integer [0], one addition after the
    other from left to right.  (From version 3.12 on CPython compensates
    the rounding error of a sum of Python floats; the plain sum is modelled
    here.) *)
Definition py_sum (l : list num) : num := fold_left nadd l (Py zero).

(** ** Rounding to four decimals *)

(** [np.rint]: the nearest integer, ties to even. *)
Definition rint (x : float) : float :=
  match x with
  | S754_finite s m (Zneg p) =>
      match round_half_even (Zpos m # Pos.pow 2 p) with
      | Zpos z => binary_normalize prec emax (if s then Zneg z else Zpos z) 0 s
      | _ => S754_zero s
      end
  | _ => x
  end.

(** [round(x, 4)] on a numpy scalar, which is [np.round]: scale by [10^4],
    round to an integer, scale back; each step is rounded. *)
Definition np_round4 (x : float) : float :=
  div (rint (mul x (of_Z 10000))) (of_Z 10000).

(** [round(x, 4)] on a Python float: the exact value of [x] is rounded to
    four decimals, ties to even, and the float nearest to that decimal is
    returned. *)
Definition float_round4 (x : float) : float :=
  match x with
  | S754_finite s m e =>
      let q :=
        match e with
        | Zneg p => (Zpos m * 10000 # Pos.pow 2 p)%Q
        | _ => (Zpos m * 10000 * 2 ^ e # 1)%Q
        end in
      match round_half_even q with
      | Zpos z => div (S754_finite s z 0) (S754_finite false 10000 0)
      | _ => S754_zero s
      end
  | _ => x
  end.

Definition round4 (a : num) : num :=
  match a with
  | Py x => Py (float_round4 x)
  | Np x => Np (np_round4 x)
  end.

(** ** The three helpers *)

(** [safe_div(a, b)], for the numbers the script passes as [b]: a cell of
    the row or a national reference value.  Such a [b] is in
    [(0, None, np.nan)] exactly when it equals [0]: a [NaN] cell is not the
    object [np.nan] and equals nothing, so the quotient is computed, and is
    [NaN]. *)
Definition safe_div (a b : num) : res num :=
  if negb (eqb (val b) zero) then truediv a b else Ok np_nan.

(** [deviation_score(value, reference)]. *)
Definition deviation_score (value reference : num) : res num :=
  if isna value || isna reference || eqb (val reference) zero then Ok np_nan
  else
    r <- truediv (nabs (nsub value reference)) reference ;;
    Ok (nsub (Py one) r).

(** [normalize_partial(scores, weights)]. *)
Definition normalize_partial (scores weights : list num) : res num :=
  let valid :=
    filter (fun sw => negb (isna (fst sw))) (combine scores weights) in
  match valid with
  | [] => Ok np_nan
  | _ =>
      let total_weight := py_sum (map snd valid) in
      truediv (py_sum (map (fun sw => nmul (fst sw) (snd sw)) valid))
        total_weight
  end.

(** ** Rows, reference values and sub-scores *)

(** A row of [df], as [iterrows] yields it: Python numbers.  A cell that
    holds an integer is taken as the float of the same value, and an empty
    cell is [NaN]. *)
Record joined : Type := mk_joined {
  row_key : key;
  total_registered_voters : float;
  female_voters : float;
  age_18_25 : float;
  age_26_40 : float;
  age_41_60 : float;
  age_60_plus : float;
  literacy_rate_percent : float;
  last_election_turnout_percent : float;
  form6_addition_requests : float;
  net_migration : float;
  total_requests : float;
  rejected : float;
  objections_raised : float;
  cases_per_officer : float
}.

(** The national reference values: numpy scalars. *)
Record baselines : Type := mk_baselines {
  national_age_avg : list float;
  national_literacy_avg : float;
  national_turnout_avg : float;
  national_form6_avg : float;
  national_rejection_rate_avg : float;
  national_objection_rate_avg : float;
  national_max_cases_per_officer : float
}.

Definition IDEAL_GENDER_RATIO : float := dec 5 10.

Definition SHS_weights : list num :=
  [Py (dec 25 100); Py (dec 30 100); Py (dec 20 100); Py (dec 25 100)].
Definition MPI_weights : list num := [Py (dec 6 10); Py (dec 4 10)].
Definition APS_weights : list num :=
  [Py (dec 4 10); Py (dec 35 100); Py (dec 25 100)].

(** The sum of the entries of a numpy array.  numpy adds the entries in an
    order of its own (in pairs, for a long array); they are added from left
    to right here, and no property stated of this module depends on that
    order. *)
Definition np_sum (l : list float) : float := fold_left add l zero.

(** [np.nanmean], and [Series.mean()]: the mean of the entries that are not
    [NaN]; [NaN] when there is none. *)
Definition nanmean (l : list float) : float :=
  match filter (fun x => negb (is_nan x)) l with
  | [] => nan
  | v => div (np_sum v) (of_Z (Z.of_nat (List.length v)))
  end.

Definition fmax (x y : float) : float := if SFltb x y then y else x.

(** [Series.max()]. *)
Definition max_skipna (l : list float) : float :=
  match filter (fun x => negb (is_nan x)) l with
  | [] => nan
  | x :: v => fold_left fmax v x
  end.

Definition compute_baselines (t : list joined) : baselines :=
  {| national_age_avg :=
       [ nanmean (map age_18_25 t); nanmean (map age_26_40 t);
         nanmean (map age_41_60 t); nanmean (map age_60_plus t) ];
     national_literacy_avg := nanmean (map literacy_rate_percent t);
     national_turnout_avg := nanmean (map last_election_turnout_percent t);
     national_form6_avg := nanmean (map form6_addition_requests t);
     national_rejection_rate_avg :=
       nanmean (map (fun r => div (rejected r) (total_requests r)) t);
     national_objection_rate_avg :=
       nanmean (map (fun r => div (objections_raised r) (total_requests r)) t);
     national_max_cases_per_officer :=
       max_skipna (map cases_per_officer t) |}.

Fixpoint vec_sub (u v : list float) : list float :=
  match u, v with
  | a :: u', b :: v' => sub a b :: vec_sub u' v'
  | _, _ => []
  end.

Definition age_vec (row : joined) : list float :=
  [age_18_25 row; age_26_40 row; age_41_60 row; age_60_plus row].

Definition ADS (b : baselines) (row : joined) : num :=
  Np (sub one (nanmean (map abs (vec_sub (age_vec row) (national_age_avg b))))).

Definition GBS (row : joined) : res num :=
  gender_ratio <-
    safe_div (Py (female_voters row)) (Py (total_registered_voters row)) ;;
  deviation_score gender_ratio (Py IDEAL_GENDER_RATIO).

Definition LCS (b : baselines) (row : joined) : res num :=
  deviation_score (Py (literacy_rate_percent row))
    (Np (national_literacy_avg b)).

Definition TAS (b : baselines) (row : joined) : res num :=
  deviation_score (Py (last_election_turnout_percent row))
    (Np (national_turnout_avg b)).

Definition SHS (b : baselines) (row : joined) : res num :=
  gbs <- GBS row ;;
  let ads := ADS b row in
  lcs <- LCS b row ;;
  tas <- TAS b row ;;
  normalize_partial [gbs; ads; lcs; tas] SHS_weights.

Definition MPI (b : baselines) (row : joined) : res num :=
  nmi <-
    safe_div (nabs (Py (net_migration row)))
      (Py (form6_addition_requests row)) ;;
  f6r <-
    safe_div (Py (form6_addition_requests row))
      (Np (national_form6_avg b)) ;;
  normalize_partial [nmi; f6r] MPI_weights.

Definition APS (b : baselines) (row : joined) : res num :=
  rejection_rate <-
    safe_div (Py (rejected row)) (Py (total_requests row)) ;;
  rrd <- safe_div rejection_rate (Np (national_rejection_rate_avg b)) ;;
  objection_rate <-
    safe_div (Py (objections_raised row)) (Py (total_requests row)) ;;
  odd <- safe_div objection_rate (Np (national_objection_rate_avg b)) ;;
  alp <-
    safe_div (Py (cases_per_officer row))
      (Np (national_max_cases_per_officer b)) ;;
  normalize_partial [rrd; odd; alp] APS_weights.

Record score_record : Type := mk_score {
  record_key : key;
  statistical_health_score : option num;
  migration_pressure_index : option num;
  abuse_of_process_score : option num
}.

(** [round(x, 4) if not pd.isna(x) else None]. *)
Definition emit (x : num) : option num :=
  if negb (isna x) then Some (round4 x) else None.

Definition score_row (b : baselines) (row : joined) : res score_record :=
  shs <- SHS b row ;;
  mpi <- MPI b row ;;
  aps <- APS b row ;;
  Ok {| record_key := row_key row;
        statistical_health_score := emit shs;
        migration_pressure_index := emit mpi;
        abuse_of_process_score := emit aps |}.

Definition results (t : list joined) : res (list score_record) :=
  mapM (score_row (compute_baselines t)) t.

(** ** The combination as the specification words it *)

(** The (score, weight) pairs whose score is present. *)
Fixpoint surviving (scores weights : list num) : list (num * num) :=
  match scores, weights with
  | s :: ss, wt :: ws =>
      if isna s then surviving ss ws else (s, wt) :: surviving ss ws
  | _, _ => []
  end.

(** The weighted mean of (score, weight) pairs: the sum of the products over
    the sum of the weights, each taken in the order of the pairs. *)
Definition weighted_mean (ps : list (num * num)) : res num :=
  truediv (py_sum (map (fun p => nmul (fst p) (snd p)) ps))
    (py_sum (map snd ps)).

Definition weighted_partial_average (scores weights : list num) : res num :=
  match surviving scores weights with
  | [] => Ok np_nan
  | ps => weighted_mean ps
  end.

(** What is written for a composite: [None] for a missing one, the composite
    rounded by [round], which is not [NaN], otherwise. *)
Definition emitted_from (x : num) (o : option num) : Prop :=
  (isna x = true /\ o = None)
  \/ (isna x = false /\ o = Some (round4 x) /\ isna (round4 x) = false).

Definition scores_emitted (b : baselines) (row : joined) (r : score_record)
  : Prop :=
  record_key r = row_key row
  /\ exists shs mpi aps,
       SHS b row = Ok shs /\ MPI b row = Ok mpi /\ APS b row = Ok aps
       /\ emitted_from shs (statistical_health_score r)
       /\ emitted_from mpi (migration_pressure_index r)
       /\ emitted_from aps (abuse_of_process_score r).

(** ** The Age Distribution Score as the specification words it *)

(** The arithmetic mean of the values present in a column; missing when
    the column has none. *)
Definition mean_present (column : list float) : float :=
  let present := filter (fun x => negb (is_nan x)) column in
  match present with
  | [] => nan
  | _ => div (np_sum present) (of_Z (Z.of_nat (List.length present)))
  end.

(** The term of one age bracket: [|bracket - national average|] when the
    bracket of the row has a value, no term otherwise. *)
Definition bracket_term (bracket average : float) : list float :=
  if is_nan bracket then [] else [abs (sub bracket average)].

(** The terms of the four age brackets of a row, each against the mean of
    its column over the table. *)
Definition age_terms (t : list joined) (row : joined) : list float :=
  bracket_term (age_18_25 row) (mean_present (map age_18_25 t))
  ++ bracket_term (age_26_40 row) (mean_present (map age_26_40 t))
  ++ bracket_term (age_41_60 row) (mean_present (map age_41_60 t))
  ++ bracket_term (age_60_plus row) (mean_present (map age_60_plus t)).

(** The Age Distribution Score of a row of the table [t]: one minus the
    mean of the terms of the brackets that have a value; missing when no
    bracket has one. *)
Definition ADS_spec (t : list joined) (row : joined) : num :=
  match age_terms t row with
  | [] => Np nan
  | ts =>
      Np (sub one (div (np_sum ts) (of_Z (Z.of_nat (List.length ts)))))
  end.

(** The age cells of a row are numbers or missing: none is infinite. *)
Definition ages_not_infinite (r : joined) : bool :=
  negb (is_inf (age_18_25 r)) && negb (is_inf (age_26_40 r))
  && negb (is_inf (age_41_60 r)) && negb (is_inf (age_60_plus r)).

(** The sign bit of a number. *)
Definition is_negative (x : float) : bool :=
  match x with
  | S754_zero s | S754_infinity s | S754_finite s _ _ => s
  | S754_nan => false
  end.

(** A number that is not negative: what a sum of absolute values is. *)
Definition count_ok (x : float) : Prop :=
  is_nan x = false /\ is_negative x = false.

(** ** Scaling by a power of two *)

(** The float [2^j]. *)
Definition pow2 (j : Z) : float := S754_finite false 4503599627370496 (j - 52).

(** [x] times [2^j], exactly: the same mantissa, [j] binades further. *)
Definition shifted (j : Z) (x : float) : float :=
  match x with
  | S754_finite s m e => S754_finite s m (e + j)
  | _ => x
  end.

Definition nshifted (j : Z) (a : num) : num :=
  match a with
  | Py x => Py (shifted j x)
  | Np x => Np (shifted j x)
  end.

(** [x] is a normal number above the least binade, and so is [x] times
    [2^j]: a mantissa of 53 bits, and both exponents within the range of
    the normal numbers. *)
Definition scalable (j : Z) (x : float) : bool :=
  match x with
  | S754_finite _ m e =>
      (Zpos (digits2_pos m) =? 53)%Z
      && (-1074 <? e)%Z && (e <=? 971)%Z
      && (-1074 <? e + j)%Z && (e + j <=? 971)%Z
  | _ => false
  end.

(** The sums [sum] passes through. *)
Fixpoint partial_sums (acc : num) (l : list num) : list num :=
  match l with
  | [] => []
  | x :: l' => nadd acc x :: partial_sums (nadd acc x) l'
  end.

(** Every number [normalize_partial] computes with before the final
    division: the weights of the present scores, the products, and the
    partial sums of both. *)
Definition intermediates (scores weights : list num) : list num :=
  let valid := surviving scores weights in
  let products := map (fun sw => nmul (fst sw) (snd sw)) valid in
  map snd valid ++ products
  ++ partial_sums (Py zero) (map snd valid)
  ++ partial_sums (Py zero) products.

(** ** Sample values *)

(** Reference values of 74 for the literacy rate and 67 for the turnout;
    the others are missing. *)
Definition sample_baselines : baselines :=
  {| national_age_avg := [nan; nan; nan; nan];
     national_literacy_avg := of_Z 74;
     national_turnout_avg := of_Z 67;
     national_form6_avg := nan;
     national_rejection_rate_avg := nan;
     national_objection_rate_avg := nan;
     national_max_cases_per_officer := nan |}.

(** A constituency without age brackets: 900 women among 2000 voters, a
    literacy rate of 37 and a turnout of 67. *)
Definition no_age_row : joined :=
  mk_joined (sample_key "PC001") (of_Z 2000) (of_Z 900) nan nan nan nan
    (of_Z 37) (of_Z 67) nan nan nan nan nan nan.

(** Two constituencies with the age brackets 300, 700, 600, 400 and 100,
    none, 500, 400. *)
Definition ages_row (id : string) (a b c d : float) : joined :=
  mk_joined (sample_key id) nan nan a b c d nan nan nan nan nan nan nan nan.

Definition ages_table : list joined :=
  [ ages_row "PC001" (of_Z 300) (of_Z 700) (of_Z 600) (of_Z 400);
    ages_row "PC002" (of_Z 100) nan (of_Z 500) (of_Z 400) ].

(** One constituency whose age brackets are zero where present. *)
Definition zero_ages_row : joined :=
  ages_row "PC001" zero nan zero zero.

(** Two constituencies whose first age bracket holds [1e308]; the other
    cells are empty. *)
Definition huge_age_row (id : string) : joined :=
  mk_joined (sample_key id) nan nan (of_Z (10 ^ 308)) nan nan nan nan nan nan
    nan nan nan nan nan.

Definition huge_age_table : list joined :=
  [huge_age_row "PC001"; huge_age_row "PC002"].

End B64.

(* ================================================================== *)
(** * Facts about the float model *)
(* ================================================================== *)

Module XFloatFacts.

Lemma xfloat_beq_eq (x y : xfloat) : xfloat_beq x y = true -> x = y.
Proof.
  destruct x, y; simpl; try discriminate; try reflexivity.
  intros H. f_equal. now apply Qc_eq_bool_correct.
Qed.

Lemma res_beq_eq (x y : res xfloat) : res_beq x y = true -> x = y.
Proof.
  destruct x as [a|[]], y as [b|[]]; simpl; try discriminate; try reflexivity.
  intros H. f_equal. now apply xfloat_beq_eq.
Qed.

Lemma opt_beq_eq (x y : option xfloat) : opt_beq x y = true -> x = y.
Proof.
  destruct x as [a|], y as [b|]; simpl; try discriminate; try reflexivity.
  intros H. f_equal. now apply xfloat_beq_eq.
Qed.

Lemma Qc_eq_bool_true (a b : Qc) : Qc_eq_bool a b = true <-> a = b.
Proof.
  split; [apply Qc_eq_bool_correct|].
  intros ->. unfold Qc_eq_bool. destruct (Qc_eq_dec b b); congruence.
Qed.

Lemma Qccompare_Q (p q : Qc) : (p ?= q)%Qc = (this p ?= this q)%Q.
Proof. reflexivity. Qed.

Lemma this_mult (p q : Qc) : (this (p * q)%Qc == this p * this q)%Q.
Proof. unfold Qcmult, Q2Qc. cbn [this]. apply Qred_correct. Qed.

Lemma this_plus (p q : Qc) : (this (p + q)%Qc == this p + this q)%Q.
Proof. unfold Qcplus, Q2Qc. cbn [this]. apply Qred_correct. Qed.

Lemma Qccompare_eq_iff (a b : Qc) : (a ?= b)%Qc = Eq <-> a = b.
Proof. symmetry. apply Qceq_alt. Qed.

Lemma Qccompare_refl (a : Qc) : (a ?= a)%Qc = Eq.
Proof. now apply Qccompare_eq_iff. Qed.

Lemma Qccompare_neq (a b : Qc) : a <> b -> (a ?= b)%Qc <> Eq.
Proof. intros H E. now apply Qccompare_eq_iff in E. Qed.

Lemma Qccompare_mult_pos (k a : Qc) :
  (0 < k)%Qc -> ((k * a) ?= 0)%Qc = (a ?= 0)%Qc.
Proof.
  intros Hk. rewrite !Qccompare_Q, this_mult.
  unfold Qclt in Hk. change (this 0%Qc) with (0%Q) in *.
  destruct (Qcompare_spec (this a) 0) as [H|H|H];
  destruct (Qcompare_spec (this k * this a) 0) as [H'|H'|H'];
  try reflexivity; exfalso; nra.
Qed.

Lemma Qccompare_pos_mult (k a : Qc) :
  (0 < k)%Qc -> (0 ?= (k * a))%Qc = (0 ?= a)%Qc.
Proof.
  intros Hk. rewrite !Qccompare_Q, this_mult.
  unfold Qclt in Hk. change (this 0%Qc) with (0%Q) in *.
  destruct (Qcompare_spec 0 (this a)) as [H|H|H];
  destruct (Qcompare_spec 0 (this k * this a)) as [H'|H'|H'];
  try reflexivity; exfalso; nra.
Qed.

Lemma Qccompare_antisym (p q : Qc) : (q ?= p)%Qc = CompOpp (p ?= q)%Qc.
Proof. rewrite !Qccompare_Q. symmetry. apply Qcompare_antisym. Qed.

Lemma Qclt_neq0 (k : Qc) : (0 < k)%Qc -> k <> 0%Qc.
Proof. intros H E. subst k. now apply (Qclt_not_eq 0%Qc 0%Qc). Qed.

Lemma Qccompare_pos (k : Qc) : (0 < k)%Qc -> (k ?= 0)%Qc = Gt.
Proof. intros H. now apply Qcgt_alt. Qed.

Lemma Qcplus_pos (a b : Qc) : (0 < a)%Qc -> (0 < b)%Qc -> (0 < a + b)%Qc.
Proof.
  unfold Qclt. intros Ha Hb. rewrite this_plus.
  change (this 0%Qc) with (0%Q) in *. lra.
Qed.

Lemma q_of_nat_S_pos (n : nat) : (0 < q_of_nat (S n))%Qc.
Proof.
  change (0 < Qred (inject_Z (Z.of_nat (S n))))%Q.
  rewrite Qred_correct. unfold Qlt, inject_Z. cbn [Qnum Qden]. lia.
Qed.

(** ** Tests against zero *)

Lemma xeqb_zero_true (x : xfloat) : xeqb x xzero = true <-> x = Fin 0%Qc.
Proof.
  destruct x; simpl; split; try discriminate.
  - intros H. f_equal. now apply Qc_eq_bool_true.
  - intros H. injection H as ->. now apply Qc_eq_bool_true.
Qed.

Lemma xeqb_zero_false (x : xfloat) : xeqb x xzero = false <-> x <> Fin 0%Qc.
Proof.
  split.
  - intros H E. apply xeqb_zero_true in E. congruence.
  - intros H. destruct (xeqb x xzero) eqn:E; [|reflexivity].
    apply xeqb_zero_true in E. contradiction.
Qed.

Lemma xeqb_Fin_zero (q : Qc) :
  xeqb (Fin q) xzero = false <-> q <> 0%Qc.
Proof.
  rewrite xeqb_zero_false. split; intros H E; apply H; congruence.
Qed.

(** ** Addition and sums *)

Lemma xadd_comm (x y : xfloat) : xadd x y = xadd y x.
Proof.
  destruct x, y; simpl; try reflexivity. f_equal. apply Qcplus_comm.
Qed.

Lemma xadd_assoc (x y z : xfloat) : xadd x (xadd y z) = xadd (xadd x y) z.
Proof.
  destruct x, y, z; simpl; try reflexivity. f_equal. apply Qcplus_assoc.
Qed.

Lemma xadd_zero_l (x : xfloat) : xadd xzero x = x.
Proof. destruct x; simpl; try reflexivity. f_equal. apply Qcplus_0_l. Qed.

Lemma xadd_zero_r (x : xfloat) : xadd x xzero = x.
Proof. rewrite xadd_comm. apply xadd_zero_l. Qed.

Lemma fold_left_xadd (l : list xfloat) (a : xfloat) :
  fold_left xadd l a = xadd a (total l).
Proof.
  revert a. induction l as [|x l IH]; intros a; simpl.
  - symmetry. apply xadd_zero_r.
  - rewrite IH. unfold total. symmetry. apply xadd_assoc.
Qed.

Lemma py_sum_total (l : list xfloat) : py_sum l = total l.
Proof. unfold py_sum. rewrite fold_left_xadd. apply xadd_zero_l. Qed.

Lemma total_cons (x : xfloat) (l : list xfloat) :
  total (x :: l) = xadd x (total l).
Proof. reflexivity. Qed.

End XFloatFacts.
Import XFloatFacts.

(* ================================================================== *)
(** * The two primitives and the weighted combination *)
(* ================================================================== *)

Module ScorerFacts.

(** ** [safe_div] and [deviation_score] return values *)

Lemma truediv_nonzero (a b : xfloat) :
  xeqb b xzero = false -> truediv a b = Ok (xdiv a b).
Proof. unfold truediv. now intros ->. Qed.

Lemma safe_div_value (a x : xfloat) :
  safe_div a (PyFloat x) = Ok (safe_div_v a x).
Proof.
  unfold safe_div, safe_div_v, in_guard, py_truediv, truediv.
  destruct (xeqb x xzero); reflexivity.
Qed.

Lemma deviation_score_value (value reference : xfloat) :
  deviation_score value reference = Ok (deviation_v value reference).
Proof.
  unfold deviation_score, deviation_v.
  destruct (isna value); [reflexivity|].
  destruct (isna reference); [reflexivity|]. simpl.
  destruct (xeqb reference xzero) eqn:E; [reflexivity|].
  now rewrite truediv_nonzero.
Qed.

(** ** The surviving pairs *)

Lemma valid_surviving (scores weights : list xfloat) :
  filter (fun sw => negb (isna (fst sw))) (combine scores weights)
  = surviving scores weights.
Proof.
  revert weights. induction scores as [|s ss IH]; intros [|wt ws];
    simpl; try reflexivity.
  rewrite IH. now destruct (isna s).
Qed.

Lemma normalize_partial_refines (scores weights : list xfloat) :
  normalize_partial scores weights = weighted_partial_average scores weights.
Proof.
  unfold normalize_partial, weighted_partial_average.
  rewrite valid_surviving.
  destruct (surviving scores weights) as [|p ps]; [reflexivity|].
  unfold weighted_mean. now rewrite !py_sum_total.
Qed.

Lemma xdiv_xmul_cancel (s : xfloat) (q : Qc) :
  q <> 0%Qc -> xdiv (xmul s (Fin q)) (Fin q) = s.
Proof.
  intros Hq. pose proof (Qccompare_neq q 0%Qc Hq) as Hc.
  destruct s as [a| | |]; cbn [xmul xdiv]; try reflexivity.
  - destruct (q ?= 0)%Qc; try contradiction; f_equal;
      now apply Qcdiv_mult_l.
  - destruct (q ?= 0)%Qc eqn:E; try contradiction;
      cbn [inf_of_sign xdiv]; now rewrite E.
  - rewrite (Qccompare_antisym q 0%Qc).
    destruct (q ?= 0)%Qc eqn:E; try contradiction;
      cbn [CompOpp inf_of_sign xdiv]; now rewrite E.
Qed.

End ScorerFacts.
Import ScorerFacts.

(* ================================================================== *)
(** * Properties of the primitives *)
(* ================================================================== *)

Ltac qc_neq :=
  let H := fresh in
  intros H; apply (f_equal this) in H; vm_compute in H; discriminate.

(** C4: [safe_div(a, b)] returns [a / b] when [b] is a nonzero number, and
    returns the missing value, without raising, when [b] is zero, [None] or
    a [NaN] (whether the object [np.nan] itself or any other [NaN]). *)
Theorem safe_div_spec (a : xfloat) (b : pyval) :
  (forall x, b = PyFloat x -> isna x = false -> xeqb x xzero = false ->
     safe_div a b = py_truediv a b /\ safe_div a b = Ok (xdiv a x))
  /\ (b = PyFloat xzero \/ b = PyNone \/ b = NpNan \/ b = PyFloat NaN ->
      safe_div a b = Ok NaN).
Proof.
  split.
  - intros x -> _ Hx. unfold safe_div, in_guard, py_truediv.
    rewrite Hx. cbn [negb]. rewrite truediv_nonzero by exact Hx. now split.
  - intros [-> | [-> | [-> | ->]]]; try reflexivity.
    unfold safe_div, in_guard, py_truediv, truediv. cbn.
    now destruct a.
Qed.

Lemma safe_div_spec_witness :
  safe_div (Fin (q_of_Z 1)) (PyFloat (Fin (q_of_Z 2)))
    = Ok (xdiv (Fin (q_of_Z 1)) (Fin (q_of_Z 2)))
  /\ safe_div (Fin (q_of_Z 1)) PyNone = Ok NaN.
Proof.
  split.
  - apply (proj1 (safe_div_spec (Fin (q_of_Z 1)) (PyFloat (Fin (q_of_Z 2))))
             (Fin (q_of_Z 2))); reflexivity.
  - apply (proj2 (safe_div_spec (Fin (q_of_Z 1)) PyNone)).
    right; left; reflexivity.
Defined.

Lemma deviation_v_Fin (v q : Qc) :
  q <> 0%Qc -> deviation_v (Fin v) (Fin q) = Fin (deviation_formula v q).
Proof.
  intros Hq. unfold deviation_v. cbn [isna orb].
  rewrite (proj2 (xeqb_Fin_zero q) Hq).
  unfold xsub, xone. cbn [xopp xadd xabs xdiv].
  pose proof (Qccompare_neq q 0%Qc Hq) as Hc.
  destruct (q ?= 0)%Qc; try contradiction; reflexivity.
Qed.

Lemma deviation_formula_same (x : Qc) : x <> 0%Qc -> deviation_formula x x = 1%Qc.
Proof.
  intros Hx. unfold deviation_formula.
  replace (x - x)%Qc with 0%Qc by ring.
  rewrite (Qcabs_pos 0%Qc) by apply Qcle_refl.
  field. exact Hx.
Qed.

(** The score is not clamped: three times the reference scores [-1]. *)
Example deviation_score_negative :
  deviation_score (Fin (q_of_Z 3)) (Fin (q_of_Z 1)) = Ok (Fin (q_of_Z (-1))).
Proof. apply res_beq_eq. vm_compute. reflexivity. Qed.

(* ================================================================== *)
(** * The rate baselines *)
(* ================================================================== *)

Ltac xf_decide := apply xfloat_beq_eq; vm_compute; reflexivity.

Lemma filter_filter_map {A B : Type} (p : A -> bool) (q : B -> bool)
    (f : A -> B) (l : list A) :
  (forall a, In a l -> p a = false -> q (f a) = false) ->
  filter q (map f (filter p l)) = filter q (map f l).
Proof.
  induction l as [|a l IH]; intros H; [reflexivity|]. simpl.
  destruct (p a) eqn:E; simpl.
  - rewrite IH; [reflexivity|]. intros x Hx. apply H. now right.
  - rewrite (H a (or_introl eq_refl) E).
    apply IH. intros x Hx. apply H. now right.
Qed.

(** Where the code and the specification of the rate baselines agree: on
    tables in which a row with a zero denominator has a zero or missing
    numerator (its ratio is then [0/0], which the mean skips). *)
Lemma rate_baseline_agrees (num den : joined -> xfloat) (t : list joined) :
  (forall r, In r t -> xeqb (den r) xzero = true ->
             xeqb (num r) xzero = true \/ isna (num r) = true) ->
  mean_skipna (series_div num den t) = rate_baseline_spec num den t.
Proof.
  intros H. unfold rate_baseline_spec, series_div, mean_skipna.
  rewrite (filter_filter_map (fun r => usable_denominator (den r))
             (fun x => negb (isna x))); [reflexivity|].
  intros r Hr Hu. unfold usable_denominator in Hu.
  destruct (den r) as [d| | |] eqn:Ed; try discriminate Hu.
  - cbn [isna negb andb] in Hu. apply negb_false_iff in Hu.
    destruct (H r Hr) as [Hn|Hn]; [now rewrite Ed| |].
    + apply xeqb_zero_true in Hn. apply xeqb_zero_true in Hu.
      rewrite Hn. injection Hu as ->. reflexivity.
    + destruct (num r); try discriminate Hn. reflexivity.
  - now destruct (num r).
Qed.

(** C1 (a rate baseline is the mean of the per-row ratios, a row with a zero
    or missing [total_requests] contributing no value) does not hold on
    [zero_total_table]: its first row has a zero [total_requests] and is
    left out by the specification, whose mean is then the ratio [1/2] of
    the second row, while the baselines computed by the code are
    infinite. *)
Theorem rate_baselines_zero_total :
  national_rejection_rate_avg (compute_baselines zero_total_table) = PInf
  /\ national_objection_rate_avg (compute_baselines zero_total_table) = PInf
  /\ rate_baseline_spec rejected total_requests zero_total_table
     = Fin (Q2Qc (1 # 2))
  /\ rate_baseline_spec objections_raised total_requests zero_total_table
     = Fin (Q2Qc (1 # 2)).
Proof. repeat split; xf_decide. Qed.

(** The per-row rate of the same row is guarded by [safe_div] and is
    missing. *)
Example rejection_rate_zero_total :
  safe_div (rejected zero_total_row) (PyFloat (total_requests zero_total_row))
  = Ok NaN.
Proof. reflexivity. Qed.

(* ================================================================== *)
(** * The Statistical Health Score *)
(* ================================================================== *)

Lemma GBS_value (row : joined) : GBS row = Ok (GBS_v row).
Proof.
  unfold GBS, GBS_v. rewrite safe_div_value. cbn [bind].
  apply deviation_score_value.
Qed.

Lemma LCS_value (b : baselines) (row : joined) : LCS b row = Ok (LCS_v b row).
Proof. apply deviation_score_value. Qed.

Lemma TAS_value (b : baselines) (row : joined) : TAS b row = Ok (TAS_v b row).
Proof. apply deviation_score_value. Qed.

Lemma vec_sub_all_missing (u v : list xfloat) :
  Forall (fun a => isna a = true) u ->
  filter (fun x => negb (isna x)) (map xabs (vec_sub u v)) = [].
Proof.
  intros H. revert v. induction H as [|a u Ha _ IH]; intros [|m v];
    try reflexivity.
  destruct a; try discriminate Ha. cbn. apply IH.
Qed.

Lemma ADS_all_missing (b : baselines) (row : joined) :
  Forall (fun a => isna a = true) (age_vec row) -> ADS b row = NaN.
Proof.
  intros H. unfold ADS, mean_skipna.
  now rewrite vec_sub_all_missing.
Qed.

(** ** Means of columns whose cells are finite or missing *)

Lemma filter_present_fin (l : list xfloat) :
  Forall not_inf l ->
  Forall (fun x => is_fin x = true) (filter (fun x => negb (isna x)) l).
Proof.
  induction 1 as [|x l Hx _ IH]; simpl; [constructor|].
  destruct x; try discriminate Hx; simpl; auto.
Qed.

Lemma total_fin (l : list xfloat) :
  Forall (fun x => is_fin x = true) l -> exists s, total l = Fin s.
Proof.
  induction 1 as [|x l Hx _ [s IH]]; [now exists 0%Qc|].
  destruct x as [a| | |]; try discriminate Hx.
  exists (a + s)%Qc. rewrite total_cons, IH. reflexivity.
Qed.

Lemma xdiv_count (s : Qc) (n : nat) :
  xdiv (Fin s) (Fin (q_of_nat (S n))) = Fin (s / q_of_nat (S n))%Qc.
Proof.
  cbn [xdiv]. now rewrite (Qccompare_pos _ (q_of_nat_S_pos n)).
Qed.

Lemma mean_skipna_present (l : list xfloat) :
  Forall not_inf l ->
  (exists a, In a l /\ isna a = false) ->
  exists m, mean_skipna l = Fin m.
Proof.
  intros Hl [a [Ha Hna]]. unfold mean_skipna.
  pose proof (filter_present_fin l Hl) as Hf.
  assert (Hin : In a (filter (fun x => negb (isna x)) l)).
  { apply filter_In. split; [exact Ha|]. now rewrite Hna. }
  destruct (filter (fun x => negb (isna x)) l) as [|x v]; [contradiction|].
  rewrite py_sum_total. destruct (total_fin _ Hf) as [s ->].
  cbn [List.length]. rewrite xdiv_count. eauto.
Qed.

Lemma mean_skipna_not_inf (l : list xfloat) :
  Forall not_inf l -> not_inf (mean_skipna l).
Proof.
  intros Hl. unfold mean_skipna.
  pose proof (filter_present_fin l Hl) as Hf.
  destruct (filter (fun x => negb (isna x)) l) as [|x v]; [reflexivity|].
  rewrite py_sum_total. destruct (total_fin _ Hf) as [s ->].
  cbn [List.length]. rewrite xdiv_count. reflexivity.
Qed.

(** ** The Age Distribution Score *)

Lemma present_terms_filter (ages avgs : list xfloat) :
  Forall2 (fun a m => isna a = false -> isna (xabs (xsub a m)) = false)
    ages avgs ->
  filter (fun x => negb (isna x)) (map xabs (vec_sub ages avgs))
  = present_terms ages avgs.
Proof.
  induction 1 as [|a m ages avgs H _ IH]; [reflexivity|].
  cbn [vec_sub map filter present_terms].
  destruct (isna a) eqn:Ea.
  - destruct a; try discriminate Ea. cbn. exact IH.
  - rewrite (H eq_refl). cbn [negb]. now rewrite IH.
Qed.

Lemma ADS_of_present_terms (avgs : list xfloat) (row : joined) :
  filter (fun x => negb (isna x)) (map xabs (vec_sub (age_vec row) avgs))
  = present_terms (age_vec row) avgs ->
  xsub xone (mean_skipna (map xabs (vec_sub (age_vec row) avgs)))
  = match present_terms (age_vec row) avgs with
    | [] => NaN
    | ts => xsub xone (xdiv (total ts) (Fin (q_of_nat (List.length ts))))
    end.
Proof.
  intros H. unfold mean_skipna. rewrite H.
  destruct (present_terms (age_vec row) avgs) as [|x ts]; [reflexivity|].
  now rewrite py_sum_total.
Qed.

Lemma term_present (a m : xfloat) :
  not_inf a -> is_fin m = true ->
  isna a = false -> isna (xabs (xsub a m)) = false.
Proof.
  destruct a, m; intros Ha Hm Hn; try discriminate; reflexivity.
Qed.

Lemma column_mean_fin (f : joined -> xfloat) (t : list joined)
    (row : joined) :
  Forall (fun r => not_inf (f r)) t -> In row t -> isna (f row) = false ->
  is_fin (mean_skipna (map f t)) = true.
Proof.
  intros Hc Hin Hn.
  destruct (mean_skipna_present (map f t)) as [m ->]; [| |reflexivity].
  - apply Forall_map. exact Hc.
  - exists (f row). split; [now apply in_map|exact Hn].
Qed.

Lemma age_cells_column (t : list joined) (i : nat) (f : joined -> xfloat) :
  (forall r, nth_error (age_vec r) i = Some (f r)) ->
  Forall (fun r => Forall not_inf (age_vec r)) t ->
  Forall (fun r => not_inf (f r)) t.
Proof.
  intros Hf H. apply Forall_forall. intros r Hr.
  rewrite Forall_forall in H. specialize (H r Hr).
  rewrite Forall_forall in H. apply H.
  apply (nth_error_In _ i). apply Hf.
Qed.

Lemma present_terms_nil (ages avgs : list xfloat) :
  List.length ages = List.length avgs ->
  present_terms ages avgs = [] -> Forall (fun a => isna a = true) ages.
Proof.
  revert avgs. induction ages as [|a ages IH]; intros [|m avgs] Hl H;
    try discriminate Hl; [constructor|].
  cbn [present_terms] in H. destruct (isna a) eqn:Ea; [|discriminate H].
  constructor; [exact Ea|]. apply (IH avgs); [|exact H].
  now injection Hl.
Qed.

Lemma vec_sub_not_inf (u v : list xfloat) :
  Forall not_inf u -> Forall not_inf v ->
  Forall not_inf (map xabs (vec_sub u v)).
Proof.
  intros Hu. revert v. induction Hu as [|a u Ha _ IH]; intros v Hv;
    [constructor|].
  destruct Hv as [|m v Hm Hv]; [constructor|].
  cbn [vec_sub map]. constructor; [|now apply IH].
  destruct a, m; try discriminate Ha; try discriminate Hm; reflexivity.
Qed.

Lemma national_age_avg_not_inf (t : list joined) :
  Forall (fun r => Forall not_inf (age_vec r)) t ->
  Forall not_inf (national_age_avg (compute_baselines t)).
Proof.
  intros Ht. cbn [compute_baselines national_age_avg].
  repeat constructor; apply mean_skipna_not_inf; apply Forall_map.
  - now apply (age_cells_column t 0 age_18_25).
  - now apply (age_cells_column t 1 age_26_40).
  - now apply (age_cells_column t 2 age_41_60).
  - now apply (age_cells_column t 3 age_60_plus).
Qed.

(** On a joined table whose age cells are finite or missing, the Age
    Distribution Score of a row is missing only when the four brackets of
    the row are missing. *)
Lemma ADS_on_table (t : list joined) (row : joined) :
  Forall (fun r => Forall not_inf (age_vec r)) t -> In row t ->
  isna (ADS (compute_baselines t) row) = true
  <-> Forall (fun a => isna a = true) (age_vec row).
Proof.
  intros Ht Hin.
  assert (Hrow : Forall not_inf (age_vec row)).
  { rewrite Forall_forall in Ht. now apply Ht. }
  assert (HF : filter (fun x => negb (isna x))
                 (map xabs (vec_sub (age_vec row)
                              (national_age_avg (compute_baselines t))))
               = present_terms (age_vec row)
                   (national_age_avg (compute_baselines t))).
  { apply present_terms_filter. cbn [compute_baselines national_age_avg].
    unfold age_vec in *.
    inversion Hrow as [|? ? H1 Hr1]; subst.
    inversion Hr1 as [|? ? H2 Hr2]; subst.
    inversion Hr2 as [|? ? H3 Hr3]; subst.
    inversion Hr3 as [|? ? H4 _]; subst.
    repeat constructor; intros Hn; apply term_present; try assumption.
    - apply (column_mean_fin age_18_25 t row); try assumption.
      now apply (age_cells_column t 0 age_18_25).
    - apply (column_mean_fin age_26_40 t row); try assumption.
      now apply (age_cells_column t 1 age_26_40).
    - apply (column_mean_fin age_41_60 t row); try assumption.
      now apply (age_cells_column t 2 age_41_60).
    - apply (column_mean_fin age_60_plus t row); try assumption.
      now apply (age_cells_column t 3 age_60_plus). }
  split.
  - intros Hna. unfold ADS in Hna.
    rewrite (ADS_of_present_terms _ _ HF) in Hna.
    destruct (present_terms (age_vec row)
                (national_age_avg (compute_baselines t))) as [|x ts] eqn:Ep.
    + apply (present_terms_nil (age_vec row)
               (national_age_avg (compute_baselines t)) eq_refl Ep).
    + exfalso.
      assert (Hfin : Forall (fun x => is_fin x = true) (x :: ts)).
      { rewrite <- HF. apply filter_present_fin.
        apply vec_sub_not_inf; [exact Hrow|].
        now apply national_age_avg_not_inf. }
      destruct (total_fin _ Hfin) as [s Hs]. cbv zeta in Hna.
      rewrite Hs in Hna.
      cbn [List.length] in Hna. rewrite xdiv_count in Hna. discriminate Hna.
  - intros Hall. now rewrite ADS_all_missing.
Qed.

(** ** Weights *)

Lemma w_positive (n d : positive) : positive_weight (w n d).
Proof.
  exists (Q2Qc (Zpos n # d)). split; [reflexivity|].
  change (0 < Qred (Zpos n # d))%Q. rewrite Qred_correct.
  unfold Qlt. cbn [Qnum Qden]. lia.
Qed.

Lemma total_positive (l : list xfloat) :
  l <> [] -> Forall positive_weight l -> positive_weight (total l).
Proof.
  intros Hne H. induction H as [|x l [a [-> Ha]] Hl IH]; [contradiction|].
  rewrite total_cons. destruct l as [|y l'].
  - exists a. split; [|exact Ha]. cbn. f_equal. apply Qcplus_0_r.
  - destruct IH as [s [-> Hs]]; [discriminate|].
    exists (a + s)%Qc. split; [reflexivity|]. now apply Qcplus_pos.
Qed.

Lemma surviving_weights_positive (scores weights : list xfloat) :
  Forall positive_weight weights ->
  Forall positive_weight (map snd (surviving scores weights)).
Proof.
  intros H. revert scores.
  induction H as [|wt ws Hw _ IH]; intros [|s ss]; try constructor.
  cbn [surviving]. destruct (isna s); cbn [map snd]; auto.
Qed.

Lemma normalize_partial_value (scores weights : list xfloat) :
  Forall positive_weight weights ->
  normalize_partial scores weights = Ok (normalize_v scores weights).
Proof.
  intros Hw. unfold normalize_partial, normalize_v.
  rewrite valid_surviving.
  pose proof (surviving_weights_positive scores weights Hw) as Hp.
  destruct (surviving scores weights) as [|p ps]; [reflexivity|].
  apply truediv_nonzero. rewrite py_sum_total.
  destruct (total_positive (map snd (p :: ps))) as [s [-> Hs]];
    [discriminate|exact Hp|].
  apply xeqb_Fin_zero. now apply Qclt_neq0.
Qed.

Lemma SHS_weights_positive : Forall positive_weight SHS_weights.
Proof. repeat constructor; apply w_positive. Qed.

Lemma MPI_weights_positive : Forall positive_weight MPI_weights.
Proof. repeat constructor; apply w_positive. Qed.

Lemma APS_weights_positive : Forall positive_weight APS_weights.
Proof. repeat constructor; apply w_positive. Qed.

(** ** The composites never raise *)

Lemma SHS_value (b : baselines) (row : joined) :
  SHS b row = Ok (SHS_v b row).
Proof.
  unfold SHS, SHS_v. rewrite GBS_value, LCS_value, TAS_value. cbn [bind].
  apply normalize_partial_value, SHS_weights_positive.
Qed.

Lemma MPI_value (b : baselines) (row : joined) :
  MPI b row = Ok (MPI_v b row).
Proof.
  unfold MPI, MPI_v. rewrite !safe_div_value. cbn [bind].
  apply normalize_partial_value, MPI_weights_positive.
Qed.

Lemma APS_value (b : baselines) (row : joined) :
  APS b row = Ok (APS_v b row).
Proof.
  unfold APS, APS_v.
  repeat (rewrite safe_div_value; cbn [bind]).
  apply normalize_partial_value, APS_weights_positive.
Qed.

Lemma score_row_value (b : baselines) (row : joined) :
  score_row b row = Ok (score_row_v b row).
Proof.
  unfold score_row. rewrite SHS_value, MPI_value, APS_value. reflexivity.
Qed.

Lemma mapM_value {A B : Type} (f : A -> res B) (g : A -> B) (l : list A) :
  (forall a, f a = Ok (g a)) -> mapM f l = Ok (map g l).
Proof.
  intros H. induction l as [|a l IH]; [reflexivity|].
  cbn [mapM map]. rewrite H, IH. reflexivity.
Qed.

Lemma results_value (t : list joined) :
  results t = Ok (map (score_row_v (compute_baselines t)) t).
Proof. apply mapM_value. intros a. apply score_row_value. Qed.

(** ** A row that sits on the reference values *)

Lemma self_term (a : xfloat) :
  xabs (xsub a a) = Fin 0%Qc \/ xabs (xsub a a) = NaN.
Proof.
  destruct a as [q| | |]; try (right; reflexivity).
  left. unfold xsub. cbn [xopp xadd xabs]. f_equal.
  rewrite Qcplus_opp_r. apply Qcabs_pos, Qcle_refl.
Qed.

Lemma deviation_v_same (x : xfloat) :
  deviation_v x x = Fin 1%Qc \/ deviation_v x x = NaN.
Proof.
  destruct x as [q| | |]; try (right; reflexivity).
  destruct (Qc_eq_dec q 0%Qc) as [->|Hq].
  - right. reflexivity.
  - left. rewrite deviation_v_Fin by exact Hq.
    now rewrite deviation_formula_same.
Qed.

Lemma ADS_same (b : baselines) (row : joined) :
  age_vec row = national_age_avg b ->
  ADS b row = Fin 1%Qc \/ ADS b row = NaN.
Proof.
  intros H. unfold ADS. rewrite <- H. unfold age_vec.
  cbn [vec_sub map].
  destruct (self_term (age_18_25 row)) as [-> | ->],
           (self_term (age_26_40 row)) as [-> | ->],
           (self_term (age_41_60 row)) as [-> | ->],
           (self_term (age_60_plus row)) as [-> | ->];
    try (left; xf_decide); right; reflexivity.
Qed.

Lemma gender_ratio_half (f t : xfloat) (h : Qc) :
  xdiv f t = Fin h -> h <> 0%Qc -> safe_div_v f t = Fin h.
Proof.
  intros H Hh. unfold safe_div_v.
  destruct (xeqb t xzero) eqn:E; [|exact H].
  apply xeqb_zero_true in E. subst t. exfalso.
  destruct f as [a| | |]; cbn [xdiv] in H; try discriminate H.
  rewrite Qccompare_refl in H. destruct (a ?= 0)%Qc; discriminate H.
Qed.

(** C5: a row whose female share of registered voters is one half, whose
    age brackets equal the national averages, and whose literacy and
    turnout equal the national averages, has a Statistical Health Score of
    exactly 1. *)
Theorem SHS_round_trip (b : baselines) (row : joined) :
  xdiv (female_voters row) (total_registered_voters row)
    = Fin (Q2Qc (1 # 2)) ->
  age_vec row = national_age_avg b ->
  literacy_rate_percent row = national_literacy_avg b ->
  last_election_turnout_percent row = national_turnout_avg b ->
  SHS b row = Ok (Fin 1%Qc).
Proof.
  intros Hg Ha Hl Ht. rewrite SHS_value. f_equal. unfold SHS_v.
  assert (EG : GBS_v row = Fin 1%Qc).
  { unfold GBS_v. rewrite (gender_ratio_half _ _ _ Hg) by qc_neq.
    unfold IDEAL_GENDER_RATIO. rewrite deviation_v_Fin by qc_neq.
    rewrite deviation_formula_same by qc_neq. reflexivity. }
  rewrite EG. unfold LCS_v, TAS_v. rewrite Hl, Ht.
  destruct (ADS_same b row Ha) as [-> | ->],
           (deviation_v_same (national_literacy_avg b)) as [-> | ->],
           (deviation_v_same (national_turnout_avg b)) as [-> | ->];
    xf_decide.
Qed.

Lemma SHS_round_trip_witness :
  SHS balanced_baselines balanced_row = Ok (Fin 1%Qc).
Proof.
  apply (SHS_round_trip balanced_baselines balanced_row).
  - xf_decide.
  - reflexivity.
  - reflexivity.
  - reflexivity.
Defined.

(* ================================================================== *)
(** * The joined table and the output rows *)
(* ================================================================== *)

Module MergeFacts.

Lemma key_eqb_pc_id (a b : key) :
  key_eqb a b = true -> k_pc_id a = k_pc_id b.
Proof.
  unfold key_eqb. intros H.
  apply andb_true_iff in H. destruct H as [H _].
  apply andb_true_iff in H. destruct H as [H _].
  now apply String.eqb_eq.
Qed.

Section LeftMerge.

Context {L R : Type}.
Variable kl : L -> key.
Variable kr : R -> key.

Lemma matches_unique (k : key) (right : list R) :
  NoDup (map (fun r => k_pc_id (kr r)) right) ->
  filter (fun r => key_eqb k (kr r)) right = []
  \/ exists r, filter (fun r => key_eqb k (kr r)) right = [r].
Proof.
  induction right as [|a right IH]; intros Hn; [now left|].
  inversion Hn as [|? ? Hnotin Hn']; subst. cbn [filter].
  destruct (key_eqb k (kr a)) eqn:E.
  - right. exists a. f_equal.
    destruct (filter (fun r => key_eqb k (kr r)) right) as [|r rest] eqn:Ef;
      [reflexivity|].
    exfalso. apply Hnotin.
    assert (Hr : In r (filter (fun r => key_eqb k (kr r)) right))
      by (rewrite Ef; now left).
    apply filter_In in Hr. destruct Hr as [Hr Hk].
    apply key_eqb_pc_id in E. apply key_eqb_pc_id in Hk.
    rewrite <- E, Hk. now apply (in_map (fun r => k_pc_id (kr r))).
  - now apply IH.
Qed.

Lemma merge_left_fst (left : list L) (right : list R) :
  NoDup (map (fun r => k_pc_id (kr r)) right) ->
  map fst (merge_left kl kr left right) = left.
Proof.
  intros Hn. induction left as [|l left IH]; [reflexivity|].
  unfold merge_left in *. cbn [flat_map]. rewrite map_app, IH. clear IH.
  destruct (matches_unique (kl l) right Hn) as [-> | [r ->]]; reflexivity.
Qed.

Lemma merge_left_In (left : list L) (right : list R) (l : L)
    (o : option R) :
  In (l, o) (merge_left kl kr left right) ->
  In l left /\ (o = None \/ exists r, o = Some r /\ In r right).
Proof.
  unfold merge_left. intros H. apply in_flat_map in H.
  destruct H as [l0 [Hl0 H]].
  destruct (filter (fun r => key_eqb (kl l0) (kr r)) right) as [|r0 ms] eqn:E.
  - destruct H as [H|[]]. injection H as <- <-. split; [exact Hl0|now left].
  - apply in_map_iff in H. destruct H as [r [H Hr]].
    injection H as <- <-. split; [exact Hl0|]. right. exists r.
    split; [reflexivity|].
    rewrite <- E in Hr. apply filter_In in Hr. tauto.
Qed.

End LeftMerge.

Lemma df_demo_rows (demo_df : list demo_row)
    (migration_df : list migration_row) (system_df : list system_row) :
  NoDup (map migration_pc_id migration_df) ->
  NoDup (map system_pc_id system_df) ->
  map (fun x => fst (fst x))
    (merge_left (fun x => d_key (fst x)) s_key
       (merge_left d_key m_key demo_df migration_df) system_df)
  = demo_df.
Proof.
  intros Hm Hs.
  rewrite <- (map_map fst fst).
  rewrite (merge_left_fst (fun x => d_key (fst x)) s_key _ system_df Hs).
  apply (merge_left_fst d_key m_key demo_df migration_df Hm).
Qed.

Lemma record_key_score_row (b : baselines) (x : demo_row * option migration_row * option system_row) :
  record_key (score_row_v b (join_row x)) = d_key (fst (fst x)).
Proof.
  destruct x as [[d om] os]. unfold record_key. cbn.
  now destruct (d_key d).
Qed.

Lemma results_keys (demo_df : list demo_row)
    (migration_df : list migration_row) (system_df : list system_row)
    (b : baselines) :
  NoDup (map migration_pc_id migration_df) ->
  NoDup (map system_pc_id system_df) ->
  map record_key
    (map (score_row_v b) (df demo_df migration_df system_df))
  = map d_key demo_df.
Proof.
  intros Hm Hs. unfold df. rewrite !map_map.
  rewrite (map_ext _ (fun x => d_key (fst (fst x))))
    by (intros x; apply record_key_score_row).
  rewrite <- (map_map (fun x => fst (fst x)) d_key).
  now rewrite df_demo_rows.
Qed.

End MergeFacts.
Import MergeFacts.

(** C8: when [pc_id] is unique within each of the three input tables, the
    script returns one output record per demographics row, in the order of
    the demographics table and with its identity columns, and every input
    [pc_id] occurs exactly once in the output. *)
Theorem output_rows_match_input (demo_df : list demo_row)
    (migration_df : list migration_row) (system_df : list system_row) :
  NoDup (map demo_pc_id demo_df) ->
  NoDup (map migration_pc_id migration_df) ->
  NoDup (map system_pc_id system_df) ->
  exists rs,
    analysis demo_df migration_df system_df = Ok rs
    /\ List.length rs = List.length demo_df
    /\ map record_key rs = map d_key demo_df
    /\ (forall id, In id (map demo_pc_id demo_df) ->
          count_occ string_dec (map r_pc_id rs) id = 1%nat).
Proof.
  intros Hd Hm Hs.
  set (t := df demo_df migration_df system_df).
  exists (map (score_row_v (compute_baselines t)) t).
  pose proof (results_keys demo_df migration_df system_df
                (compute_baselines t) Hm Hs) as Hk.
  fold t in Hk.
  assert (Hid : map r_pc_id (map (score_row_v (compute_baselines t)) t)
                = map demo_pc_id demo_df).
  { change r_pc_id with (fun r => k_pc_id (record_key r)).
    rewrite <- (map_map record_key k_pc_id), Hk.
    now rewrite map_map. }
  split; [apply results_value|]. split; [|split].
  - rewrite <- (length_map record_key), Hk. apply length_map.
  - exact Hk.
  - intros id Hin. rewrite Hid.
    now apply (proj1 (NoDup_count_occ' string_dec _) Hd).
Qed.

Lemma output_rows_match_input_witness :
  exists rs,
    analysis sample_demo sample_migration sample_system = Ok rs
    /\ List.length rs = List.length sample_demo
    /\ map record_key rs = map d_key sample_demo
    /\ (forall id, In id (map demo_pc_id sample_demo) ->
          count_occ string_dec (map r_pc_id rs) id = 1%nat).
Proof.
  apply (output_rows_match_input sample_demo sample_migration sample_system).
  - repeat constructor; cbn; intuition discriminate.
  - repeat constructor; cbn; intuition discriminate.
  - constructor.
Defined.

(* ================================================================== *)
(** * The emitted scores *)
(* ================================================================== *)

Module OutputFacts.

Lemma xsub_not_inf (x y : xfloat) :
  not_inf x -> not_inf y -> not_inf (xsub x y).
Proof. destruct x, y; intros Hx Hy; try discriminate; reflexivity. Qed.

Lemma xabs_not_inf (x : xfloat) : not_inf x -> not_inf (xabs x).
Proof. destruct x; intros Hx; try discriminate; reflexivity. Qed.

Lemma xdiv_not_inf (a b : xfloat) :
  not_inf a -> xeqb b xzero = false -> not_inf (xdiv a b).
Proof.
  intros Ha Hb. destruct a as [p| | |], b as [q| | |];
    try discriminate Ha; try reflexivity.
  apply xeqb_Fin_zero in Hb. cbn [xdiv].
  pose proof (Qccompare_neq q 0%Qc Hb) as Hc.
  destruct (q ?= 0)%Qc; try contradiction; reflexivity.
Qed.

Lemma safe_div_v_not_inf (a b : xfloat) :
  not_inf a -> not_inf (safe_div_v a b).
Proof.
  intros Ha. unfold safe_div_v.
  destruct (xeqb b xzero) eqn:E; [reflexivity|].
  now apply xdiv_not_inf.
Qed.

Lemma deviation_v_not_inf (value reference : xfloat) :
  not_inf value -> not_inf reference ->
  not_inf (deviation_v value reference).
Proof.
  intros Hv Hr. unfold deviation_v.
  destruct (isna value || isna reference || xeqb reference xzero) eqn:E;
    [reflexivity|].
  apply orb_false_iff in E. destruct E as [_ E].
  apply xsub_not_inf; [reflexivity|].
  apply xdiv_not_inf; [|exact E].
  now apply xabs_not_inf, xsub_not_inf.
Qed.

Lemma ADS_not_inf (b : baselines) (row : joined) :
  Forall not_inf (age_vec row) -> Forall not_inf (national_age_avg b) ->
  not_inf (ADS b row).
Proof.
  intros Hr Hb. unfold ADS. apply xsub_not_inf; [reflexivity|].
  apply mean_skipna_not_inf. now apply vec_sub_not_inf.
Qed.

Lemma surviving_products_fin (scores weights : list xfloat) :
  Forall not_inf scores -> Forall positive_weight weights ->
  Forall (fun x => is_fin x = true)
    (map (fun p => xmul (fst p) (snd p)) (surviving scores weights)).
Proof.
  intros Hs. revert weights.
  induction Hs as [|s ss Hs _ IH]; intros weights Hw; [constructor|].
  destruct Hw as [|wt ws [q [-> Hq]] Hw]; [constructor|].
  cbn [surviving]. destruct s as [a| | |]; try discriminate Hs;
    cbn [isna map fst snd]; [constructor|]; auto.
Qed.

(** ** Cells of the joined table *)

Lemma of_cell_not_inf (c : cell) : not_inf (of_cell c).
Proof. now destruct c. Qed.

Lemma col_not_inf {R : Type} (f : R -> cell) (o : option R) :
  not_inf (col f o).
Proof. destruct o as [r|]; [apply of_cell_not_inf|reflexivity]. Qed.

Lemma join_row_cells_not_inf
    (x : demo_row * option migration_row * option system_row) :
  cells_not_inf (join_row x).
Proof.
  destruct x as [[d om] os]. unfold cells_not_inf, join_row.
  cbn [total_registered_voters female_voters age_18_25 age_26_40 age_41_60
       age_60_plus literacy_rate_percent last_election_turnout_percent
       form6_addition_requests net_migration total_requests rejected
       objections_raised cases_per_officer].
  repeat apply Forall_cons; try apply Forall_nil;
    try apply of_cell_not_inf; apply col_not_inf.
Qed.

Lemma df_cells_not_inf (demo_df : list demo_row)
    (migration_df : list migration_row) (system_df : list system_row) :
  Forall cells_not_inf (df demo_df migration_df system_df).
Proof.
  unfold df. apply Forall_map. apply Forall_forall. intros x _.
  apply join_row_cells_not_inf.
Qed.

(** ** The rationals behind canonical numbers *)

Lemma this_q_of_Z (z : Z) : (this (q_of_Z z) == inject_Z z)%Q.
Proof. unfold q_of_Z, Q2Qc. cbn [this]. apply Qred_correct. Qed.

Lemma this_opp (p : Qc) : (this (- p)%Qc == - this p)%Q.
Proof. unfold Qcopp, Q2Qc. cbn [this]. apply Qred_correct. Qed.

Lemma this_inv (p : Qc) : (this (/ p)%Qc == / this p)%Q.
Proof. unfold Qcinv, Q2Qc. cbn [this]. apply Qred_correct. Qed.

Lemma this_Q2Qc (x : Q) : (this (Q2Qc x) == x)%Q.
Proof. apply Qred_correct. Qed.

End OutputFacts.
Import OutputFacts.

Section RowScores.

Variable b : baselines.
Variable row : joined.
Hypothesis row_cells : cells_not_inf row.

Lemma cell_not_inf (x : xfloat) :
  In x
    [ total_registered_voters row; female_voters row; age_18_25 row;
      age_26_40 row; age_41_60 row; age_60_plus row;
      literacy_rate_percent row; last_election_turnout_percent row;
      form6_addition_requests row; net_migration row; total_requests row;
      rejected row; objections_raised row; cases_per_officer row ] ->
  not_inf x.
Proof. apply (proj1 (Forall_forall _ _) row_cells). Qed.

Lemma age_vec_not_inf : Forall not_inf (age_vec row).
Proof.
  unfold age_vec. repeat apply Forall_cons; try apply Forall_nil;
    apply cell_not_inf; simpl; tauto.
Qed.

End RowScores.

Lemma table_baselines_not_inf (t : list joined) :
  Forall cells_not_inf t ->
  Forall not_inf (national_age_avg (compute_baselines t))
  /\ not_inf (national_literacy_avg (compute_baselines t))
  /\ not_inf (national_turnout_avg (compute_baselines t)).
Proof.
  intros Ht. split; [|split].
  - apply national_age_avg_not_inf. apply Forall_forall. intros r Hr.
    apply age_vec_not_inf. now apply (proj1 (Forall_forall _ _) Ht).
  - apply mean_skipna_not_inf, Forall_map, Forall_forall. intros r Hr.
    apply (cell_not_inf r); [now apply (proj1 (Forall_forall _ _) Ht)|].
    simpl; tauto.
  - apply mean_skipna_not_inf, Forall_map, Forall_forall. intros r Hr.
    apply (cell_not_inf r); [now apply (proj1 (Forall_forall _ _) Ht)|].
    simpl; tauto.
Qed.

(** National averages of zero leave the Age Distribution Score defined. *)
Example ADS_zero_average :
  national_age_avg (compute_baselines (df zero_age_demo [] []))
  = [Fin 0%Qc; NaN; Fin 0%Qc; Fin 0%Qc]
  /\ ADS (compute_baselines (df zero_age_demo [] [])) zero_age_row
     = Fin 1%Qc.
Proof.
  split.
  - cbn [compute_baselines national_age_avg].
    repeat f_equal; xf_decide.
  - xf_decide.
Qed.

(* ================================================================== *)
(** * Worked examples *)
(* ================================================================== *)

Ltac opt_decide := apply opt_beq_eq; vm_compute; reflexivity.

(** A missing composite is emitted as [None], not as a number. *)
Example emit_missing : emit NaN = None.
Proof. reflexivity. Qed.

(** With [total_requests = 0] both rate deviations are missing and the
    Abuse-of-Process Score is the load pressure alone. *)
Example APS_zero_total :
  In zero_total_row zero_total_table
  /\ APS (compute_baselines zero_total_table) zero_total_row = Ok (Fin 1%Qc).
Proof.
  split; [left; reflexivity|].
  apply res_beq_eq. vm_compute. reflexivity.
Qed.

(** The scores of the sample tables: the first constituency has a gender
    score and a turnout score of 1, an age score of -36.5 and a literacy
    score of 74/77; the second has no migration row, and no constituency
    has a system-load row. *)
Example sample_scores :
  exists r1 r2,
    analysis sample_demo sample_migration sample_system = Ok [r1; r2]
    /\ r_pc_id r1 = "PC001"%string /\ r_pc_id r2 = "PC002"%string
    /\ statistical_health_score r1 = Some (Fin (Q2Qc (-102578 # 10000)))
    /\ migration_pressure_index r1 = Some (Fin (Q2Qc (52 # 100)))
    /\ abuse_of_process_score r1 = None
    /\ statistical_health_score r2 = Some (Fin (Q2Qc (-190771 # 10000)))
    /\ migration_pressure_index r2 = None
    /\ abuse_of_process_score r2 = None.
Proof.
  unfold analysis. rewrite results_value.
  eexists. eexists. split; [reflexivity|].
  repeat split; try reflexivity; opt_decide.
Qed.

(** Outside the values the script works on: an infinite reference makes
    the quotient of [deviation_score] an [inf/inf], and a weight of zero
    makes the division of [normalize_partial] raise. *)
Example deviation_score_infinite_reference :
  deviation_score (num 1) PInf = Ok NaN.
Proof. reflexivity. Qed.

Example normalize_partial_zero_weight :
  normalize_partial [num 3] [num 0] = Raise ZeroDivisionError.
Proof. reflexivity. Qed.

(* ================================================================== *)
(** * Order facts on the rationals of the model *)
(* ================================================================== *)

Module OrderFacts.

Lemma this_minus (p q : Qc) : (this (p - q)%Qc == this p - this q)%Q.
Proof. unfold Qcminus. rewrite this_plus, this_opp. reflexivity. Qed.

Lemma this_div (p q : Qc) : (this (p / q)%Qc == this p / this q)%Q.
Proof. unfold Qcdiv. rewrite this_mult, this_inv. reflexivity. Qed.

Lemma this_abs (p : Qc) : this (Qcabs p) = Qabs (this p).
Proof. reflexivity. Qed.

Lemma Qdiv_nonneg (a b : Q) : (0 <= a -> 0 < b -> 0 <= a / b)%Q.
Proof.
  intros Ha Hb. apply Qle_shift_div_l; [exact Hb|]. lra.
Qed.

End OrderFacts.
Import OrderFacts.

(* ================================================================== *)
(** * More on [deviation_score] *)
(* ================================================================== *)

Lemma deviation_score_Fin (v r : Qc) :
  r <> 0%Qc ->
  deviation_score (Fin v) (Fin r) = Ok (Fin (deviation_formula v r)).
Proof.
  intros Hr. rewrite deviation_score_value. f_equal.
  now apply deviation_v_Fin.
Qed.

Lemma deviation_formula_le_one (v r : Qc) :
  (0 < r)%Qc -> (deviation_formula v r <= 1)%Qc.
Proof.
  intros Hr. unfold deviation_formula, Qclt, Qcle in *.
  rewrite !this_minus, !this_div, !this_abs, !this_minus.
  change (this 1%Qc) with 1%Q. change (this 0%Qc) with 0%Q in *.
  assert (Hd : (0 <= Qabs (this v - this r) / this r)%Q)
    by (apply Qdiv_nonneg; [apply Qabs_nonneg|exact Hr]).
  lra.
Qed.

(** X2: against a negative reference the score is at least 1: the farther
    the value, the higher the score. *)
Theorem deviation_score_negative_reference (value reference : Qc) :
  (reference < 0)%Qc ->
  exists q,
    deviation_score (Fin value) (Fin reference) = Ok (Fin q)
    /\ (1 <= q)%Qc.
Proof.
  intros Hr. exists (deviation_formula value reference). split.
  - apply deviation_score_Fin. intros ->. now apply (Qclt_not_eq 0%Qc 0%Qc).
  - unfold deviation_formula, Qclt, Qcle in *.
    rewrite !this_minus, !this_div, !this_abs, !this_minus.
    change (this 1%Qc) with 1%Q. change (this 0%Qc) with 0%Q in *.
    set (v := this value). set (r := this reference) in *.
    assert (Hn : (0 <= Qabs (v - r))%Q) by apply Qabs_nonneg.
    assert (Hq : (Qabs (v - r) / r == - (Qabs (v - r) / - r))%Q)
      by (field; lra).
    assert (Hd : (0 <= Qabs (v - r) / - r)%Q)
      by (apply Qdiv_nonneg; lra).
    lra.
Qed.

Lemma deviation_score_negative_reference_witness :
  exists q,
    deviation_score (num 5) (num (-2)) = Ok (Fin q) /\ (1 <= q)%Qc.
Proof.
  apply (deviation_score_negative_reference (q_of_Z 5) (q_of_Z (-2))).
  reflexivity.
Defined.

(* ================================================================== *)
(** * More on [normalize_partial] *)
(* ================================================================== *)

Module CombinationFacts.

Lemma surviving_pairs (scores weights : list xfloat) (p : xfloat * xfloat) :
  In p (surviving scores weights) ->
  In (fst p) scores /\ In (snd p) weights /\ isna (fst p) = false.
Proof.
  revert weights. induction scores as [|s ss IH]; intros [|wt ws] H;
    try contradiction.
  cbn [surviving] in H. destruct (isna s) eqn:E.
  - destruct (IH ws H) as [H1 [H2 H3]]. repeat split; simpl; auto.
  - destruct H as [<- | H].
    + repeat split; simpl; auto.
    + destruct (IH ws H) as [H1 [H2 H3]]. repeat split; simpl; auto.
Qed.

End CombinationFacts.
Import CombinationFacts.

(* ================================================================== *)
(** * The migration and abuse-of-process indices *)
(* ================================================================== *)

Lemma MPI_parts (b : baselines) (row : joined) :
  MPI b row
  = (nmi <- NMI row ;; f6r <- F6R b row ;;
     normalize_partial [nmi; f6r] MPI_weights).
Proof. reflexivity. Qed.

Lemma APS_parts (b : baselines) (row : joined) :
  APS b row
  = (rrd <- RRD b row ;; odd <- ODD b row ;; alp <- ALP b row ;;
     normalize_partial [rrd; odd; alp] APS_weights).
Proof.
  unfold APS, RRD, ODD, ALP, rejection_rate, objection_rate.
  repeat (rewrite safe_div_value; cbn [bind]). reflexivity.
Qed.

Lemma safe_div_v_NaN_l (x : xfloat) : safe_div_v NaN x = NaN.
Proof. unfold safe_div_v. now destruct (xeqb x xzero). Qed.

Lemma safe_div_v_unusable (a x : xfloat) :
  x = Fin 0%Qc \/ x = NaN -> safe_div_v a x = NaN.
Proof.
  intros [-> | ->]; unfold safe_div_v; cbn; [reflexivity|now destruct a].
Qed.

Lemma normalize_v_single (s wt : xfloat) (q : Qc) :
  wt = Fin q -> q <> 0%Qc -> normalize_v [s] [wt] = s.
Proof.
  intros -> Hq. unfold normalize_v. cbn [surviving].
  destruct (isna s) eqn:E; [now destruct s|].
  cbn [map fst snd]. rewrite !py_sum_total. unfold total. cbn [fold_right].
  rewrite !xadd_zero_r. now apply xdiv_xmul_cancel.
Qed.



(** X6: a row with no net migration and a nonzero number of Form 6 requests
    has a Net Migration Intensity of 0, which counts as a present
    sub-score: the Migration Pressure Index is 0.4 times the Form 6 ratio,
    and 0 when that ratio is missing. *)
Theorem MPI_without_net_migration (b : baselines) (row : joined) (f : Qc) :
  net_migration row = Fin 0%Qc ->
  form6_addition_requests row = Fin f -> f <> 0%Qc ->
  NMI row = Ok (Fin 0%Qc)
  /\ (forall g, F6R b row = Ok (Fin g) ->
        MPI b row = Ok (Fin (Q2Qc (2 # 5) * g)%Qc))
  /\ (F6R b row = Ok NaN -> MPI b row = Ok (Fin 0%Qc)).
Proof.
  intros Hn Hf Hf0.
  assert (E : NMI row = Ok (Fin 0%Qc)).
  { unfold NMI. rewrite safe_div_value, Hn, Hf. f_equal.
    unfold safe_div_v. rewrite (proj2 (xeqb_Fin_zero f) Hf0).
    cbn [xabs xdiv]. pose proof (Qccompare_neq f 0%Qc Hf0) as Hc.
    destruct (f ?= 0)%Qc; try contradiction; f_equal;
      rewrite (Qcabs_pos 0%Qc) by apply Qcle_refl;
      unfold Qcdiv; apply Qcmult_0_l. }
  split; [exact E|]. split.
  - intros g Hg. rewrite MPI_parts, E, Hg. cbn [bind].
    rewrite normalize_partial_value by apply MPI_weights_positive.
    f_equal. unfold normalize_v, MPI_weights, w.
    cbn [surviving isna map fst snd]. unfold py_sum, xzero.
    cbn [fold_left xadd xmul xdiv].
    match goal with
    | |- context [(?d ?= 0)%Qc] =>
        replace (d ?= 0)%Qc with Gt by (vm_compute; reflexivity)
    end.
    f_equal. apply Qc_is_canon.
    repeat rewrite ?this_div, ?this_plus, ?this_mult, ?this_Q2Qc.
    change (this 0%Qc) with 0%Q. field.
  - intros Hg. rewrite MPI_parts, E, Hg. cbn [bind].
    rewrite normalize_partial_value by apply MPI_weights_positive.
    f_equal. xf_decide.
Qed.

Lemma MPI_without_net_migration_witness :
  NMI still_row = Ok (Fin 0%Qc)
  /\ (forall g,
        F6R (compute_baselines still_table) still_row = Ok (Fin g) ->
        MPI (compute_baselines still_table) still_row
        = Ok (Fin (Q2Qc (2 # 5) * g)%Qc))
  /\ (F6R (compute_baselines still_table) still_row = Ok NaN ->
      MPI (compute_baselines still_table) still_row = Ok (Fin 0%Qc)).
Proof.
  apply (MPI_without_net_migration (compute_baselines still_table)
           still_row (q_of_Z 50)); [reflexivity|reflexivity|].
  intros H. apply (f_equal this) in H. vm_compute in H. discriminate H.
Defined.

(* ================================================================== *)
(** * The baselines *)
(* ================================================================== *)

Module BaselineFacts.

Lemma xmax_Fin (a b : Qc) :
  exists m, xmax (Fin a) (Fin b) = Fin m
            /\ (a <= m)%Qc /\ (b <= m)%Qc /\ (m = a \/ m = b).
Proof.
  cbn [xmax]. destruct (a ?= b)%Qc eqn:E.
  - apply Qccompare_eq_iff in E. subst b. exists a.
    repeat split; try apply Qcle_refl. now left.
  - exists b. apply Qclt_alt in E. split; [reflexivity|].
    split; [now apply Qclt_le_weak|]. split; [apply Qcle_refl|now right].
  - exists a. apply Qcgt_alt in E. split; [reflexivity|].
    split; [apply Qcle_refl|]. split; [now apply Qclt_le_weak|now left].
Qed.

Lemma fold_xmax_Fin (l : list xfloat) (a : Qc) :
  Forall (fun x => is_fin x = true) l ->
  exists m, fold_left xmax l (Fin a) = Fin m
            /\ (a <= m)%Qc
            /\ (forall c, In (Fin c) l -> (c <= m)%Qc)
            /\ (m = a \/ In (Fin m) l).
Proof.
  intros H. revert a. induction H as [|x l Hx _ IH]; intros a.
  - exists a. split; [reflexivity|]. split; [apply Qcle_refl|].
    split; [intros c []|now left].
  - destruct x as [b| | |]; try discriminate Hx. cbn [fold_left].
    destruct (xmax_Fin a b) as [m0 [-> [Ha [Hb Hm0]]]].
    destruct (IH m0) as [m [E [Hm [Hall Hin]]]].
    exists m. split; [exact E|].
    split; [now apply (Qcle_trans _ m0)|]. split.
    + intros c [Hc | Hc].
      * injection Hc as <-. now apply (Qcle_trans _ m0).
      * now apply Hall.
    + destruct Hin as [-> | Hin]; [|right; now right].
      destruct Hm0 as [-> | ->]; [now left|right; now left].
Qed.

(** The maximum of a column whose cells are finite or missing: it bounds
    every present cell and is one of them. *)
Lemma max_skipna_spec (l : list xfloat) (c : Qc) :
  Forall not_inf l -> In (Fin c) l ->
  exists m, max_skipna l = Fin m
            /\ (forall c', In (Fin c') l -> (c' <= m)%Qc)
            /\ In (Fin m) l.
Proof.
  intros Hl Hc. unfold max_skipna.
  pose proof (filter_present_fin l Hl) as Hf.
  assert (Hin : forall x, In (Fin x) l <->
                          In (Fin x) (filter (fun x => negb (isna x)) l)).
  { intros x. rewrite filter_In. cbn. tauto. }
  destruct (filter (fun x => negb (isna x)) l) as [|x v] eqn:Ef.
  - apply Hin in Hc. contradiction.
  - inversion Hf as [|? ? Hx Hv]; subst.
    destruct x as [a| | |]; try discriminate Hx.
    destruct (fold_xmax_Fin v a Hv) as [m [E [Ha [Hall Hm]]]].
    exists m. split; [exact E|]. split.
    + intros c' Hc'. apply Hin in Hc'. destruct Hc' as [Hc' | Hc'].
      * injection Hc' as <-. exact Ha.
      * now apply Hall.
    + apply Hin. destruct Hm as [-> | Hm]; [now left|now right].
Qed.

End BaselineFacts.
Import BaselineFacts.

Lemma df_column_not_inf (demo_df : list demo_row)
    (migration_df : list migration_row) (system_df : list system_row)
    (f : joined -> xfloat) :
  (forall r, cells_not_inf r -> not_inf (f r)) ->
  Forall not_inf (map f (df demo_df migration_df system_df)).
Proof.
  intros Hf. apply Forall_map.
  pose proof (df_cells_not_inf demo_df migration_df system_df) as H.
  rewrite Forall_forall in *. intros r Hr. apply Hf. now apply H.
Qed.



(* ================================================================== *)
(** * The left merges without the uniqueness assumption *)
(* ================================================================== *)

Module JoinFacts.

Section LeftMergeCount.

Context {L R : Type}.
Variable kl : L -> key.
Variable kr : R -> key.

Lemma merge_left_match (left : list L) (right : list R) (l : L) (r : R) :
  In (l, Some r) (merge_left kl kr left right) ->
  key_eqb (kl l) (kr r) = true.
Proof.
  unfold merge_left. intros H. apply in_flat_map in H.
  destruct H as [l0 [_ H]].
  destruct (filter (fun r => key_eqb (kl l0) (kr r)) right) as [|r0 ms] eqn:E.
  - destruct H as [H|[]]. discriminate H.
  - apply in_map_iff in H. destruct H as [r' [H Hr]].
    injection H as <- <-. rewrite <- E in Hr.
    apply filter_In in Hr. tauto.
Qed.

Lemma merge_left_fst_repeat (left : list L) (right : list R) :
  map fst (merge_left kl kr left right)
  = flat_map (fun l => repeat l (Nat.max 1 (matches kr (kl l) right))) left.
Proof.
  unfold merge_left, matches.
  induction left as [|l left IH]; [reflexivity|].
  cbn [flat_map]. rewrite map_app, IH. f_equal.
  destruct (filter (fun r => key_eqb (kl l) (kr r)) right) as [|r0 ms];
    [reflexivity|].
  rewrite map_map. cbn [fst].
  replace (Nat.max 1 (List.length (r0 :: ms)))
    with (List.length (r0 :: ms)) by (cbn [List.length]; lia).
  generalize (r0 :: ms). intros ms'.
  induction ms' as [|x ms' IHm]; [reflexivity|].
  cbn [map List.length repeat]. now rewrite IHm.
Qed.

End LeftMergeCount.

Lemma flat_map_repeat_map {A B : Type} (f : A -> B) (n : A -> nat)
    (l : list A) :
  map f (flat_map (fun a => repeat a (n a)) l)
  = flat_map (fun a => repeat (f a) (n a)) l.
Proof.
  induction l as [|a l IH]; [reflexivity|].
  cbn [flat_map]. rewrite map_app, IH. f_equal.
  induction (n a) as [|k IHk]; [reflexivity|].
  cbn [repeat map]. now rewrite IHk.
Qed.

Lemma flat_map_flat_map {A B C : Type} (f : A -> list B) (g : B -> list C)
    (l : list A) :
  flat_map g (flat_map f l) = flat_map (fun a => flat_map g (f a)) l.
Proof.
  induction l as [|a l IH]; [reflexivity|].
  cbn [flat_map]. now rewrite flat_map_app, IH.
Qed.

Lemma flat_map_of_map {A B C : Type} (f : A -> B) (g : B -> list C)
    (l : list A) :
  flat_map g (map f l) = flat_map (fun x => g (f x)) l.
Proof.
  induction l as [|a l IH]; [reflexivity|].
  cbn [map flat_map]. now rewrite IH.
Qed.

Lemma flat_map_repeat_repeat {A B : Type} (g : A -> list B) (a : A) (b : B)
    (n k : nat) :
  g a = repeat b k -> flat_map g (repeat a n) = repeat b (n * k).
Proof.
  intros Hg. induction n as [|n IH]; [reflexivity|].
  cbn [repeat flat_map]. rewrite IH, Hg. cbn [Nat.mul].
  symmetry. apply repeat_app.
Qed.

(** The demographics rows behind the rows of [df], with their
    multiplicity. *)
Lemma df_demo_rows_repeat (demo_df : list demo_row)
    (migration_df : list migration_row) (system_df : list system_row) :
  map (fun x => d_key (fst (fst x)))
    (merge_left (fun x => d_key (fst x)) s_key
       (merge_left d_key m_key demo_df migration_df) system_df)
  = flat_map
      (fun d =>
         repeat (d_key d)
           (Nat.max 1 (matches m_key (d_key d) migration_df)
            * Nat.max 1 (matches s_key (d_key d) system_df)))
      demo_df.
Proof.
  rewrite <- (map_map fst (fun x => d_key (fst x))).
  rewrite merge_left_fst_repeat.
  rewrite (flat_map_repeat_map (fun x => d_key (fst x))).
  rewrite <- (flat_map_of_map fst
                (fun d => repeat (d_key d)
                            (Nat.max 1 (matches s_key (d_key d) system_df)))).
  rewrite merge_left_fst_repeat, flat_map_flat_map.
  apply flat_map_ext. intros d.
  now apply flat_map_repeat_repeat.
Qed.

End JoinFacts.
Import JoinFacts.

(** X9: whatever the three tables hold, also duplicate keys, the script
    returns, for each demographics row in order, as many records as the
    product of its numbers of migration and system-load matches (a row
    without match counting once), each carrying the identity columns of
    that demographics row; so no demographics row is lost and no row that
    is only in a right table appears. *)
Theorem output_rows_in_general (demo_df : list demo_row)
    (migration_df : list migration_row) (system_df : list system_row) :
  exists rs,
    analysis demo_df migration_df system_df = Ok rs
    /\ map record_key rs
       = flat_map
           (fun d =>
              repeat (d_key d)
                (Nat.max 1 (matches m_key (d_key d) migration_df)
                 * Nat.max 1 (matches s_key (d_key d) system_df)))
           demo_df
    /\ (forall k, In k (map record_key rs) <-> In k (map d_key demo_df)).
Proof.
  set (t := df demo_df migration_df system_df).
  exists (map (score_row_v (compute_baselines t)) t).
  split; [apply results_value|].
  assert (E : map record_key (map (score_row_v (compute_baselines t)) t)
              = flat_map
                  (fun d =>
                     repeat (d_key d)
                       (Nat.max 1 (matches m_key (d_key d) migration_df)
                        * Nat.max 1 (matches s_key (d_key d) system_df)))
                  demo_df).
  { unfold t, df. rewrite !map_map.
    rewrite (map_ext _ (fun x => d_key (fst (fst x))))
      by (intros x; apply record_key_score_row).
    apply df_demo_rows_repeat. }
  split; [exact E|]. intros k. rewrite E, in_flat_map, in_map_iff.
  split.
  - intros [d [Hd Hk]]. apply repeat_spec in Hk. exists d. auto.
  - intros [d [Hk Hd]]. exists d. split; [exact Hd|]. subst k.
    destruct (Nat.max 1 (matches m_key (d_key d) migration_df)
              * Nat.max 1 (matches s_key (d_key d) system_df))%nat eqn:En;
      [|now left].
    exfalso. apply Nat.eq_mul_0 in En. lia.
Qed.

(** X10: a record whose key has no row in the migration table has no
    Migration Pressure Index, and one whose key has no row in the
    system-load table has no Abuse-of-Process Score: the score is [None],
    not zero. *)
Theorem unmatched_rows_have_no_score (demo_df : list demo_row)
    (migration_df : list migration_row) (system_df : list system_row)
    (rs : list score_record) (r : score_record) :
  analysis demo_df migration_df system_df = Ok rs -> In r rs ->
  ((forall m, In m migration_df ->
              key_eqb (record_key r) (m_key m) = false) ->
   migration_pressure_index r = None)
  /\ ((forall s, In s system_df ->
                 key_eqb (record_key r) (s_key s) = false) ->
      abuse_of_process_score r = None).
Proof.
  unfold analysis. rewrite results_value. intros E Hr.
  injection E as <-. apply in_map_iff in Hr.
  destruct Hr as [row [<- Hrow]]. unfold df in Hrow.
  apply in_map_iff in Hrow. destruct Hrow as [[[d om] os] [<- Hx]].
  rewrite record_key_score_row. cbn [fst].
  set (b := compute_baselines _).
  split; intros Hno.
  - assert (Hom : om = None).
    { destruct om as [m|]; [|reflexivity]. exfalso.
      apply merge_left_In in Hx. destruct Hx as [Hx _].
      pose proof (merge_left_match d_key m_key _ _ _ _ Hx) as Hk.
      apply merge_left_In in Hx. destruct Hx as [_ [Hx|[m' [Hm' Hin]]]];
        [discriminate Hx|].
      injection Hm' as <-. rewrite (Hno m Hin) in Hk. discriminate Hk. }
    subst om. cbn [score_row_v migration_pressure_index].
    unfold MPI_v, join_row.
    cbn [col form6_addition_requests net_migration xabs].
    now rewrite !safe_div_v_NaN_l.
  - assert (Hos : os = None).
    { destruct os as [s|]; [|reflexivity]. exfalso.
      pose proof (merge_left_match (fun x => d_key (fst x)) s_key
                    _ _ _ _ Hx) as Hk.
      apply merge_left_In in Hx. destruct Hx as [_ [Hx|[s' [Hs' Hin]]]];
        [discriminate Hx|].
      injection Hs' as <-. cbn [fst] in Hk.
      rewrite (Hno s Hin) in Hk. discriminate Hk. }
    subst os. cbn [score_row_v abuse_of_process_score].
    unfold APS_v, join_row. cbn [col total_requests rejected
      objections_raised cases_per_officer].
    now rewrite !safe_div_v_NaN_l.
Qed.

Lemma unmatched_rows_have_no_score_witness :
  migration_pressure_index
    (score_row_v
       (compute_baselines (df sample_demo sample_migration sample_system))
       unmatched_row) = None
  /\ abuse_of_process_score
       (score_row_v
          (compute_baselines (df sample_demo sample_migration sample_system))
          unmatched_row) = None.
Proof.
  pose proof
    (unmatched_rows_have_no_score sample_demo sample_migration sample_system
       (map (score_row_v
               (compute_baselines
                  (df sample_demo sample_migration sample_system)))
          (df sample_demo sample_migration sample_system))
       (score_row_v
          (compute_baselines (df sample_demo sample_migration sample_system))
          unmatched_row)
       (results_value _)) as H.
  destruct H as [H1 H2]; [right; left; reflexivity|].
  split.
  - apply H1. intros m [<-|[]]. reflexivity.
  - apply H2. intros s [].
Defined.

(* ================================================================== *)
(** * An upper bound on the Statistical Health Score *)
(* ================================================================== *)

Module BoundFacts.

Lemma total_nonneg (l : list xfloat) :
  Forall (fun x => exists q, x = Fin q /\ (0 <= q)%Qc) l ->
  exists s, total l = Fin s /\ (0 <= s)%Qc.
Proof.
  induction 1 as [|x l [q [-> Hq]] _ [s [IH Hs]]].
  - exists 0%Qc. split; [reflexivity|apply Qcle_refl].
  - exists (q + s)%Qc. rewrite total_cons, IH. split; [reflexivity|].
    unfold Qcle in *. rewrite this_plus.
    change (this 0%Qc) with 0%Q in *. lra.
Qed.

Lemma mean_skipna_nonneg (l : list xfloat) :
  Forall (fun x => x = NaN \/ exists q, x = Fin q /\ (0 <= q)%Qc) l ->
  mean_skipna l = NaN
  \/ exists m, mean_skipna l = Fin m /\ (0 <= m)%Qc.
Proof.
  intros Hl. unfold mean_skipna.
  assert (Hf : Forall (fun x => exists q, x = Fin q /\ (0 <= q)%Qc)
                 (filter (fun x => negb (isna x)) l)).
  { apply Forall_forall. intros x Hx. apply filter_In in Hx.
    destruct Hx as [Hx Hn]. rewrite Forall_forall in Hl.
    destruct (Hl x Hx) as [-> | H]; [discriminate Hn|exact H]. }
  destruct (filter (fun x => negb (isna x)) l) as [|x v]; [now left|].
  right. rewrite py_sum_total.
  destruct (total_nonneg _ Hf) as [s [-> Hs]].
  cbn [List.length]. rewrite xdiv_count.
  exists (s / q_of_nat (S (List.length v)))%Qc. split; [reflexivity|].
  pose proof (q_of_nat_S_pos (List.length v)) as Hn.
  unfold Qcle, Qclt in *. rewrite this_div.
  change (this 0%Qc) with 0%Q in *. now apply Qdiv_nonneg.
Qed.

Lemma deviation_v_at_most_one (value reference : xfloat) :
  not_inf value ->
  reference = NaN \/ (exists r, reference = Fin r /\ (0 <= r)%Qc) ->
  deviation_v value reference = NaN
  \/ exists q, deviation_v value reference = Fin q /\ (q <= 1)%Qc.
Proof.
  intros Hv [-> | [r [-> Hr]]].
  - left. unfold deviation_v. now destruct value.
  - destruct value as [v| | |]; try discriminate Hv; [|now left].
    destruct (Qc_eq_dec r 0) as [-> | Hr0]; [now left|].
    right. exists (deviation_formula v r).
    split; [now apply deviation_v_Fin|].
    apply deviation_formula_le_one.
    apply Qcle_lt_or_eq in Hr. destruct Hr as [Hr | Hr]; [exact Hr|].
    now symmetry in Hr.
Qed.

Lemma abs_terms_nonneg (u v : list xfloat) :
  Forall not_inf u -> Forall not_inf v ->
  Forall (fun x => x = NaN \/ exists q, x = Fin q /\ (0 <= q)%Qc)
    (map xabs (vec_sub u v)).
Proof.
  intros Hu. revert v. induction Hu as [|a u Ha _ IH]; intros v Hv;
    [constructor|].
  destruct Hv as [|m v Hm Hv]; [constructor|].
  cbn [vec_sub map]. constructor; [|now apply IH].
  destruct a as [p| | |], m as [q| | |]; try discriminate Ha;
    try discriminate Hm; try (now left).
  right. exists (Qcabs (p + - q)). split; [reflexivity|].
  apply Qcabs_nonneg.
Qed.

Lemma ADS_at_most_one (b : baselines) (row : joined) :
  Forall not_inf (age_vec row) -> Forall not_inf (national_age_avg b) ->
  ADS b row = NaN \/ exists q, ADS b row = Fin q /\ (q <= 1)%Qc.
Proof.
  intros Hr Hb. unfold ADS.
  destruct (mean_skipna_nonneg _ (abs_terms_nonneg _ _ Hr Hb))
    as [-> | [m [-> Hm]]]; [now left|].
  right. exists (1 - m)%Qc. split; [reflexivity|].
  unfold Qcle in *. rewrite this_minus.
  change (this 0%Qc) with 0%Q in *. change (this 1%Qc) with 1%Q. lra.
Qed.

Section AtMost.

Variable hi : Qc.

Lemma totals_at_most (ps : list (xfloat * xfloat)) :
  Forall
    (fun p => exists s wt, p = (Fin s, Fin wt)
              /\ (s <= hi)%Qc /\ (0 < wt)%Qc) ps ->
  exists n d,
    total (map (fun p => xmul (fst p) (snd p)) ps) = Fin n
    /\ total (map snd ps) = Fin d
    /\ (0 <= d)%Qc /\ (n <= hi * d)%Qc
    /\ (ps <> [] -> (0 < d)%Qc).
Proof.
  induction 1 as [|p ps [s [wt [-> [Hhi Hw]]]] _ IH].
  - exists 0%Qc, 0%Qc. rewrite !Qcmult_0_r.
    split; [reflexivity|]. split; [reflexivity|].
    split; [apply Qcle_refl|]. split; [apply Qcle_refl|].
    intros H. contradiction.
  - destruct IH as [n [d [En [Ed [Hd [Hh _]]]]]].
    exists (s * wt + n)%Qc, (wt + d)%Qc. cbn [map fst snd].
    rewrite !total_cons, En, Ed. cbn [xmul xadd].
    unfold Qcle, Qclt in *.
    rewrite this_mult in Hh.
    rewrite !this_mult, !this_plus, !this_mult.
    change (this 0%Qc) with 0%Q in *.
    split; [reflexivity|]. split; [reflexivity|].
    split; [lra|]. split; [nra|]. intros _. lra.
Qed.

Lemma normalize_v_at_most (scores weights : list xfloat) :
  Forall positive_weight weights ->
  Forall (fun s => s = NaN \/ exists q, s = Fin q /\ (q <= hi)%Qc)
    scores ->
  normalize_v scores weights = NaN
  \/ exists q, normalize_v scores weights = Fin q /\ (q <= hi)%Qc.
Proof.
  intros Hw Hs. unfold normalize_v.
  assert (Hp : Forall
                 (fun p => exists s wt, p = (Fin s, Fin wt)
                           /\ (s <= hi)%Qc /\ (0 < wt)%Qc)
                 (surviving scores weights)).
  { apply Forall_forall. intros [s wt] Hin.
    apply surviving_pairs in Hin. cbn [fst snd] in Hin.
    destruct Hin as [H1 [H2 H3]].
    rewrite Forall_forall in Hw, Hs.
    destruct (Hw wt H2) as [qw [-> Hqw]].
    destruct (Hs s H1) as [-> | [q [-> Hq]]]; [discriminate H3|].
    exists q, qw. auto. }
  destruct (surviving scores weights) as [|p ps]; [now left|].
  right. destruct (totals_at_most _ Hp) as [n [d [En [Ed [_ [Hh Hd]]]]]].
  specialize (Hd ltac:(discriminate)).
  rewrite !py_sum_total, En, Ed.
  exists (n / d)%Qc. split.
  - cbn [xdiv]. now rewrite (Qccompare_pos d Hd).
  - unfold Qcle, Qclt in *. rewrite this_div.
    rewrite this_mult in Hh. change (this 0%Qc) with 0%Q in Hd.
    apply Qle_shift_div_r; [exact Hd|exact Hh].
Qed.

End AtMost.

(** The demographics row behind a row of [df]. *)
Lemma df_row_origin (demo_df : list demo_row)
    (migration_df : list migration_row) (system_df : list system_row)
    (row : joined) :
  In row (df demo_df migration_df system_df) ->
  exists d om os, row = join_row (d, om, os) /\ In d demo_df.
Proof.
  unfold df. intros H. apply in_map_iff in H.
  destruct H as [[[d om] os] [<- Hx]].
  exists d, om, os. split; [reflexivity|].
  apply merge_left_In in Hx. destruct Hx as [Hx _].
  apply merge_left_In in Hx. tauto.
Qed.

Lemma column_mean_nonneg (demo_df : list demo_row)
    (migration_df : list migration_row) (system_df : list system_row)
    (f : joined -> xfloat) (c : demo_row -> cell) :
  (forall d om os, f (join_row (d, om, os)) = of_cell (c d)) ->
  (forall d q, In d demo_df -> c d = Some q -> (0 <= q)%Qc) ->
  mean_skipna (map f (df demo_df migration_df system_df)) = NaN
  \/ exists m,
       mean_skipna (map f (df demo_df migration_df system_df)) = Fin m
       /\ (0 <= m)%Qc.
Proof.
  intros Hf Hc. apply mean_skipna_nonneg, Forall_map, Forall_forall.
  intros row Hrow. apply df_row_origin in Hrow.
  destruct Hrow as [d [om [os [-> Hd]]]]. rewrite Hf.
  destruct (c d) as [q|] eqn:E; [|now left].
  right. exists q. split; [reflexivity|]. now apply (Hc d).
Qed.

End BoundFacts.
Import BoundFacts.

(** X13: when no literacy or turnout cell of the demographics table is
    negative, the Statistical Health Score of every row of the joined table
    is missing or at most 1.  (There is no lower bound: a sub-score falls
    below zero for a value more than twice its reference.) *)
Theorem SHS_at_most_one (demo_df : list demo_row)
    (migration_df : list migration_row) (system_df : list system_row)
    (row : joined) :
  (forall d q, In d demo_df ->
               d_literacy_rate_percent d = Some q -> (0 <= q)%Qc) ->
  (forall d q, In d demo_df ->
               d_last_election_turnout_percent d = Some q -> (0 <= q)%Qc) ->
  In row (df demo_df migration_df system_df) ->
  SHS (compute_baselines (df demo_df migration_df system_df)) row = Ok NaN
  \/ exists q,
       SHS (compute_baselines (df demo_df migration_df system_df)) row
       = Ok (Fin q)
       /\ (q <= 1)%Qc.
Proof.
  intros Hlit Hturn Hrow.
  pose proof (df_cells_not_inf demo_df migration_df system_df) as Hcells.
  set (t := df demo_df migration_df system_df) in *.
  destruct (table_baselines_not_inf t Hcells) as [Ha _].
  assert (Hc : cells_not_inf row)
    by now apply (proj1 (Forall_forall _ _) Hcells).
  rewrite SHS_value.
  assert (H : SHS_v (compute_baselines t) row = NaN
              \/ exists q, SHS_v (compute_baselines t) row = Fin q
                           /\ (q <= 1)%Qc).
  { unfold SHS_v. apply normalize_v_at_most; [apply SHS_weights_positive|].
    repeat apply Forall_cons; try apply Forall_nil.
    - apply deviation_v_at_most_one.
      + apply safe_div_v_not_inf. apply (cell_not_inf row Hc). simpl; tauto.
      + right. exists (Q2Qc (1 # 2)). split; [reflexivity|].
        vm_compute; discriminate.
    - apply ADS_at_most_one; [now apply age_vec_not_inf|exact Ha].
    - apply deviation_v_at_most_one.
      + apply (cell_not_inf row Hc). simpl; tauto.
      + apply (column_mean_nonneg demo_df migration_df system_df
                 literacy_rate_percent d_literacy_rate_percent);
          [reflexivity|exact Hlit].
    - apply deviation_v_at_most_one.
      + apply (cell_not_inf row Hc). simpl; tauto.
      + apply (column_mean_nonneg demo_df migration_df system_df
                 last_election_turnout_percent
                 d_last_election_turnout_percent);
          [reflexivity|exact Hturn]. }
  destruct H as [-> | [q [-> Hq]]]; [now left|right; eauto].
Qed.

Lemma SHS_at_most_one_witness :
  SHS (compute_baselines (df sample_demo [] [])) balanced_row = Ok NaN
  \/ exists q,
       SHS (compute_baselines (df sample_demo [] [])) balanced_row
       = Ok (Fin q)
       /\ (q <= 1)%Qc.
Proof.
  apply (SHS_at_most_one sample_demo [] [] balanced_row).
  - intros d q [<-|[<-|[]]] H;
      apply (f_equal (fun o => match o with Some x => x | None => 0%Qc end))
        in H;
      rewrite <- H; vm_compute; discriminate.
  - intros d q [<-|[<-|[]]] H; try discriminate H.
    apply (f_equal (fun o => match o with Some x => x | None => 0%Qc end))
      in H.
    rewrite <- H. vm_compute. discriminate.
  - left. reflexivity.
Defined.

(* ================================================================== *)
(** * The constituency list *)
(* ================================================================== *)

Module FetchFacts.

Lemma extend_loop_spec (fuel target_count idx : nat)
    (extended : list (string * string)) :
  (target_count - List.length extended <= fuel)%nat ->
  extend_loop fuel target_count idx extended
  = extended
    ++ map (fun i =>
              let state := nth (i mod List.length states) states EmptyString
              in (state, (state ++ " " ++ show_nat i)%string))
         (seq idx (target_count - List.length extended)).
Proof.
  revert idx extended. induction fuel as [|fuel IH]; intros idx extended H.
  - replace (target_count - List.length extended)%nat with 0%nat by lia.
    cbn [extend_loop seq map]. now rewrite app_nil_r.
  - cbn [extend_loop].
    destruct (List.length extended <? target_count)%nat eqn:E.
    + apply Nat.ltb_lt in E. rewrite IH by (rewrite length_app; cbn; lia).
      rewrite length_app. cbn [List.length].
      replace (target_count - List.length extended)%nat
        with (S (target_count - (List.length extended + 1)))%nat by lia.
      cbn [seq map]. now rewrite <- app_assoc.
    + apply Nat.ltb_ge in E.
      replace (target_count - List.length extended)%nat with 0%nat by lia.
      cbn [seq map]. now rewrite app_nil_r.
Qed.

(** Reading back a formatted number. *)
Lemma uint_of_zeros (k : nat) (s : string) :
  option_map Nat.of_uint (NilEmpty.uint_of_string (zeros k ++ s)%string)
  = option_map Nat.of_uint (NilEmpty.uint_of_string s).
Proof.
  induction k as [|k IH]; [reflexivity|].
  cbn [zeros String.append NilEmpty.uint_of_string].
  destruct (NilEmpty.uint_of_string (zeros k ++ s)%string) as [d|];
    destruct (NilEmpty.uint_of_string s) as [d'|];
    cbn in *; try discriminate; try reflexivity.
  injection IH as IH. f_equal. rewrite <- IH. reflexivity.
Qed.

Lemma format_03d_read (i : nat) :
  option_map Nat.of_uint (NilEmpty.uint_of_string (format_03d i)) = Some i.
Proof.
  unfold format_03d, show_nat. rewrite uint_of_zeros, NilEmpty.usu.
  cbn [option_map]. f_equal. apply DecimalNat.Unsigned.of_to.
Qed.

Lemma format_03d_inj (i j : nat) : format_03d i = format_03d j -> i = j.
Proof.
  intros H. pose proof (format_03d_read i) as Hi.
  rewrite H, format_03d_read in Hi. now injection Hi.
Qed.

Lemma rows_from_pc_id (i : nat) (l : list (string * string)) :
  map k_pc_id (rows_from i l)
  = map (fun n => ("PC" ++ format_03d n)%string) (seq i (List.length l)).
Proof.
  revert i. induction l as [|[state name] l IH]; intros i; [reflexivity|].
  cbn [rows_from map List.length seq k_pc_id]. now rewrite IH.
Qed.

Lemma rows_from_length (i : nat) (l : list (string * string)) :
  List.length (rows_from i l) = List.length l.
Proof.
  revert i. induction l as [|[state name] l IH]; intros i; [reflexivity|].
  cbn [rows_from List.length]. now rewrite IH.
Qed.

Lemma extended_length (base_list : list (string * string))
    (target_count : nat) :
  List.length (generate_extended_constituencies base_list target_count)
  = target_count.
Proof.
  unfold generate_extended_constituencies.
  rewrite extend_loop_spec by lia.
  rewrite length_firstn, length_app, length_map, length_seq. lia.
Qed.

Lemma rows_pc_ids (extracted_names : list string) :
  map k_pc_id (rows extracted_names)
  = map (fun n => ("PC" ++ format_03d n)%string) (seq 1 543).
Proof.
  unfold rows, all_constituencies.
  now rewrite rows_from_pc_id, extended_length.
Qed.

Lemma rows_pc_ids_NoDup (extracted_names : list string) :
  NoDup (map k_pc_id (rows extracted_names)).
Proof.
  rewrite rows_pc_ids. apply Finite.Injective_map_NoDup; [|apply seq_NoDup].
  intros i j H. apply format_03d_inj.
  cbn [String.append] in H. now injection H.
Qed.

(** ** The two loops that fill [all_constituencies] *)

Lemma mem_In (x : string) (seen : list string) :
  mem x seen = true <-> In x seen.
Proof.
  unfold mem. rewrite existsb_exists. split.
  - intros [y [Hy E]]. apply String.eqb_eq in E. now subst y.
  - intros H. exists x. split; [exact H|apply String.eqb_refl].
Qed.

Lemma mem_not_In (x : string) (seen : list string) :
  mem x seen = false <-> ~ In x seen.
Proof.
  rewrite <- mem_In. destruct (mem x seen); split; intros H;
    try reflexivity; try discriminate; try (intros E; discriminate E).
  now contradiction H.
Qed.

Lemma fold_add_extracted (extracted_names l0 seen : list string) :
  NoDup l0 -> (forall n, In n seen <-> In n l0) ->
  exists l seen',
    fold_left add_extracted extracted_names
      (map (pair "India"%string) l0, seen)
    = (map (pair "India"%string) l, seen')
    /\ NoDup l
    /\ (forall n, In n l <-> In n l0 \/ In n extracted_names)
    /\ (forall n, In n seen' <-> In n l).
Proof.
  revert l0 seen.
  induction extracted_names as [|name names IH]; intros l0 seen Hn Hs.
  - exists l0, seen. cbn [fold_left]. repeat split; auto.
    + intros [H|[]]. exact H.
    + apply Hs.
    + apply Hs.
  - cbn [fold_left]. unfold add_extracted at 2. cbn [fst snd].
    destruct (mem name seen) eqn:E; cbn [negb].
    + apply mem_In in E.
      destruct (IH l0 seen Hn Hs) as [l [seen' [E' [Hn' [Hin Hs']]]]].
      exists l, seen'. split; [exact E'|]. split; [exact Hn'|].
      split; [|exact Hs'].
      intros n. rewrite Hin. cbn [In]. split; [tauto|].
      intros [H|[<-|H]]; auto. left. now apply Hs.
    + apply mem_not_In in E.
      destruct (IH (l0 ++ [name]) (name :: seen)) as
        [l [seen' [E' [Hn' [Hin Hs']]]]].
      * apply NoDup_app; [exact Hn|repeat constructor; intros []|].
        intros x Hx [<-|[]]. apply E. now apply Hs.
      * intros n. rewrite in_app_iff. cbn [In]. rewrite Hs. tauto.
      * exists l, seen'. rewrite map_app in E'. split; [exact E'|].
        split; [exact Hn'|]. split; [|exact Hs'].
        intros n. rewrite Hin, in_app_iff. cbn [In]. tauto.
Qed.

Lemma fold_add_known (known a : list (string * string))
    (seen : list string) :
  NoDup (map (fun p => (fst p ++ ":" ++ snd p)%string) known) ->
  (forall p, In p known -> ~ In (fst p ++ ":" ++ snd p)%string seen) ->
  fst (fold_left add_known known (a, seen)) = a ++ known.
Proof.
  revert a seen. induction known as [|p known IH]; intros a seen Hn Hs.
  - cbn. now rewrite app_nil_r.
  - cbn [fold_left]. unfold add_known at 2. cbn [fst snd].
    rewrite (proj2 (mem_not_In _ _) (Hs p (or_introl eq_refl))).
    cbn [negb]. inversion Hn as [|? ? Hp Hn']; subst.
    rewrite IH; [now rewrite <- app_assoc|exact Hn'|].
    intros q Hq [E|H].
    + apply Hp. apply in_map_iff. exists q. split; [|exact Hq].
      symmetry. exact E.
    + apply (Hs q); [now right|exact H].
Qed.

Lemma known_keys_NoDup :
  NoDup (map (fun p => (fst p ++ ":" ++ snd p)%string) KNOWN_CONSTITUENCIES).
Proof.
  assert (E : nodup string_dec
                (map (fun p => (fst p ++ ":" ++ snd p)%string)
                   KNOWN_CONSTITUENCIES)
              = map (fun p => (fst p ++ ":" ++ snd p)%string)
                  KNOWN_CONSTITUENCIES)
    by (vm_compute; reflexivity).
  rewrite <- E. apply NoDup_nodup.
Qed.

End FetchFacts.
Import FetchFacts.

(** X14: [generate_extended_constituencies] returns exactly [target_count]
    entries: the first [target_count] entries of [base_list] followed by
    the numbered entries [1], [2], ..., each under the state found by
    cycling through the thirty states from the second one on.  The loop
    stops: one entry is added per iteration. *)
Theorem extended_constituencies (base_list : list (string * string))
    (target_count : nat) :
  generate_extended_constituencies base_list target_count
  = firstn target_count
      (base_list
       ++ map (fun i =>
                 let state :=
                   nth (i mod List.length states) states EmptyString in
                 (state, (state ++ " " ++ show_nat i)%string))
            (seq 1 (target_count - List.length base_list)))
  /\ List.length (generate_extended_constituencies base_list target_count)
     = target_count.
Proof.
  split; [|apply extended_length].
  unfold generate_extended_constituencies.
  now rewrite extend_loop_spec by lia.
Qed.

(** X15: whatever the search returned, the constituency file has 543 rows,
    the row at position [i] (from 0) has the identifier [PC] followed by
    [i + 1] on three digits, and no identifier occurs twice. *)
Theorem rows_identifiers (extracted_names : list string) :
  List.length (rows extracted_names) = 543%nat
  /\ (forall i k, nth_error (rows extracted_names) i = Some k ->
        k_pc_id k = ("PC" ++ format_03d (S i))%string)
  /\ NoDup (map k_pc_id (rows extracted_names)).
Proof.
  split; [|split].
  - unfold rows, all_constituencies.
    now rewrite rows_from_length, extended_length.
  - intros i k H.
    apply (map_nth_error k_pc_id) in H. rewrite rows_pc_ids in H.
    rewrite nth_error_map in H.
    destruct (nth_error (seq 1 543) i) as [n|] eqn:En; [|discriminate H].
    cbn [option_map] in H. injection H as H. rewrite <- H. clear H.
    assert (Hi : (i < List.length (seq 1 543))%nat)
      by (apply nth_error_Some; rewrite En; discriminate).
    rewrite length_seq in Hi.
    apply (nth_error_nth _ _ 0%nat) in En.
    rewrite seq_nth in En by exact Hi. now subst n.
  - apply rows_pc_ids_NoDup.
Qed.

(** X16: when no extracted name is literally a [state:name] key of a known
    constituency, the list before extension is the extracted names without
    repetition, each under the state [India], followed by all the known
    constituencies: a name that is both extracted and known is listed
    twice, as the two loops record different keys in [seen]. *)
Theorem known_constituencies_kept (extracted_names : list string) :
  (forall p, In p KNOWN_CONSTITUENCIES ->
             ~ In (fst p ++ ":" ++ snd p)%string extracted_names) ->
  exists l,
    combined extracted_names
    = map (pair "India"%string) l ++ KNOWN_CONSTITUENCIES
    /\ NoDup l
    /\ (forall n, In n l <-> In n extracted_names).
Proof.
  intros H. unfold combined.
  destruct (fold_add_extracted extracted_names [] [] (NoDup_nil _))
    as [l [seen' [E [Hn [Hin Hs]]]]]; [tauto|].
  cbn [map] in E. rewrite E. exists l.
  split; [|split; [exact Hn|]].
  - apply fold_add_known; [apply known_keys_NoDup|].
    intros p Hp Hk. apply (H p Hp). apply Hs, Hin in Hk.
    destruct Hk as [[]|Hk]. exact Hk.
  - intros n. rewrite Hin. cbn [In]. tauto.
Qed.

Lemma known_constituencies_kept_witness :
  exists l,
    combined ["Pune"%string]
    = map (pair "India"%string) l ++ KNOWN_CONSTITUENCIES
    /\ NoDup l
    /\ (forall n, In n l <-> In n ["Pune"%string]).
Proof.
  apply (known_constituencies_kept ["Pune"%string]).
  apply Forall_forall. unfold KNOWN_CONSTITUENCIES.
  repeat (apply Forall_cons; [intros [E|[]]; discriminate E|]).
  apply Forall_nil.
Defined.

(* ================================================================== *)
(** * The generated tables *)
(* ================================================================== *)

Module GenerationFacts.

Lemma py_int_floor (q : Qc) : (0 <= q)%Qc -> py_int q = Qfloor (this q).
Proof.
  unfold py_int, Qcle. destruct q as [[n d] Hc]. cbn [this Qnum Qden Qfloor].
  intros H. unfold Qle in H. cbn in H.
  apply Z.quot_div_nonneg; lia.
Qed.

Lemma py_int_bounds (q : Qc) :
  (0 <= q)%Qc ->
  (0 <= py_int q)%Z
  /\ (inject_Z (py_int q) <= this q)%Q
  /\ (this q < inject_Z (py_int q + 1))%Q.
Proof.
  intros H. rewrite (py_int_floor q H). split; [|split].
  - change 0%Z with (Qfloor 0). now apply Qfloor_resp_le.
  - apply Qfloor_le.
  - apply Qlt_floor.
Qed.

Lemma this_dec (n : Z) (d : positive) :
  (this (dec n d) * inject_Z (Zpos d) == inject_Z n)%Q.
Proof.
  unfold dec. rewrite this_Q2Qc, (Qmake_Qdiv n d). field.
  intros H. discriminate H.
Qed.

(** [int(n * r)] for a non-negative integer [n] and a ratio [r] between
    [a/c] and [b/c]. *)
Lemma py_int_scaled (n : Z) (r : Qc) (a b : Z) (c : positive) :
  (0 <= n)%Z -> (0 <= a)%Z -> (dec a c <= r <= dec b c)%Qc ->
  (0 <= py_int (q_of_Z n * r))%Z
  /\ (Zpos c * py_int (q_of_Z n * r) <= b * n)%Z
  /\ (a * n < Zpos c * (py_int (q_of_Z n * r) + 1))%Z.
Proof.
  intros Hn Ha [Hlo Hhi].
  pose proof (this_dec a c) as Ea. pose proof (this_dec b c) as Eb.
  unfold Qcle in Hlo, Hhi.
  assert (Hc : (0 < inject_Z (Zpos c))%Q) by reflexivity.
  assert (Hn' : (0 <= inject_Z n)%Q)
    by (change 0%Q with (inject_Z 0); now rewrite <- Zle_Qle).
  assert (Ha' : (0 <= inject_Z a)%Q)
    by (change 0%Q with (inject_Z 0); now rewrite <- Zle_Qle).
  assert (Hr : (0 <= this r)%Q) by nra.
  assert (H0 : (0 <= q_of_Z n * r)%Qc).
  { unfold Qcle. rewrite this_mult, this_q_of_Z.
    change (this 0%Qc) with 0%Q. nra. }
  destruct (py_int_bounds _ H0) as [Hp [Hle Hlt]].
  rewrite this_mult, this_q_of_Z in Hle, Hlt.
  set (x := inject_Z n) in *. set (C := inject_Z (Zpos c)) in *.
  set (P := inject_Z (py_int (q_of_Z n * r))) in *.
  split; [exact Hp|]. split.
  - rewrite Zle_Qle, !inject_Z_mult. fold x C P.
    assert (H1 : (x * this r <= x * this (dec b c))%Q) by nra.
    assert (H2 : (C * P <= C * (x * this (dec b c)))%Q) by nra.
    assert (H3 : (C * (x * this (dec b c)) == inject_Z b * x)%Q)
      by (rewrite <- Eb; ring).
    rewrite <- H3. exact H2.
  - rewrite Zlt_Qlt, !inject_Z_mult, inject_Z_plus. fold x C P.
    rewrite inject_Z_plus in Hlt. fold P in Hlt.
    change (inject_Z 1) with 1%Q in *.
    assert (H1 : (x * this (dec a c) <= x * this r)%Q) by nra.
    assert (H2 : (C * (x * this (dec a c)) < C * (P + 1))%Q) by nra.
    assert (H3 : (C * (x * this (dec a c)) == inject_Z a * x)%Q)
      by (rewrite <- Ea; ring).
    rewrite <- H3. exact H2.
Qed.

Lemma q_of_Z_zero (z : Z) : q_of_Z z = 0%Qc -> z = 0%Z.
Proof.
  intros H. apply (f_equal this) in H.
  assert (E : (inject_Z z == 0)%Q).
  { rewrite <- this_q_of_Z. rewrite H. reflexivity. }
  unfold Qeq in E. cbn in E. lia.
Qed.

Lemma py_int_zero (r : Qc) : py_int (q_of_Z 0 * r) = 0%Z.
Proof.
  change (q_of_Z 0) with 0%Qc. now rewrite Qcmult_0_l.
Qed.

End GenerationFacts.
Import GenerationFacts.

Lemma demographic_row_bounds (d : demographic_draws) :
  demographic_draws_ok d ->
  (0 < g_total_registered_voters (demographic_row d))%Z
  /\ (g_male_voters (demographic_row d)
      + g_female_voters (demographic_row d)
      = g_total_registered_voters (demographic_row d))%Z
  /\ (46 * g_total_registered_voters (demographic_row d)
      <= 100 * g_female_voters (demographic_row d)
      < 52 * g_total_registered_voters (demographic_row d) + 100)%Z
  /\ (0 <= g_age_18_25 (demographic_row d))%Z
  /\ (0 <= g_age_26_40 (demographic_row d))%Z
  /\ (0 <= g_age_41_60 (demographic_row d))%Z
  /\ (g_age_18_25 (demographic_row d) + g_age_26_40 (demographic_row d)
      + g_age_41_60 (demographic_row d) + g_age_60_plus (demographic_row d)
      = g_total_registered_voters (demographic_row d))%Z
  /\ (5 * g_total_registered_voters (demographic_row d)
      <= 100 * g_age_60_plus (demographic_row d)
      < 27 * g_total_registered_voters (demographic_row d) + 300)%Z.
Proof.
  intros [Ht [Hm [H1 [H2 [H3 _]]]]].
  assert (E : py_int (AVG_VOTERS_PER_PC * dec 5 10) = 891344%Z)
    by (vm_compute; reflexivity).
  rewrite E in Ht. destruct Ht as [Ht _].
  unfold demographic_row.
  cbn [g_total_registered_voters g_male_voters g_female_voters g_age_18_25
       g_age_26_40 g_age_41_60 g_age_60_plus].
  set (t := dr_total_voters d) in *.
  assert (Ht0 : (0 <= t)%Z) by lia.
  destruct (py_int_scaled t _ 48 54 100 Ht0 ltac:(lia) Hm) as [Ma [Mb Mc]].
  destruct (py_int_scaled t _ 15 22 100 Ht0 ltac:(lia) H1) as [Aa [Ab Ac]].
  destruct (py_int_scaled t _ 30 38 100 Ht0 ltac:(lia) H2) as [Ba [Bb Bc]].
  destruct (py_int_scaled t _ 28 35 100 Ht0 ltac:(lia) H3) as [Ca [Cb Cc]].
  repeat split; lia.
Qed.

(** X17: the columns of a generated demographics row are consistent: the
    electorate is positive, men and women add up to it, women are between
    46% and 52% of it (plus one voter), the four age brackets are
    non-negative and add up to it, and the oldest bracket holds between 5%
    and 27% of it (plus three voters). *)
Theorem demographic_row_consistent (d : demographic_draws) :
  demographic_draws_ok d ->
  (0 < g_total_registered_voters (demographic_row d))%Z
  /\ (g_male_voters (demographic_row d)
      + g_female_voters (demographic_row d)
      = g_total_registered_voters (demographic_row d))%Z
  /\ (46 * g_total_registered_voters (demographic_row d)
      <= 100 * g_female_voters (demographic_row d)
      < 52 * g_total_registered_voters (demographic_row d) + 100)%Z
  /\ (0 <= g_age_18_25 (demographic_row d))%Z
  /\ (0 <= g_age_26_40 (demographic_row d))%Z
  /\ (0 <= g_age_41_60 (demographic_row d))%Z
  /\ (g_age_18_25 (demographic_row d) + g_age_26_40 (demographic_row d)
      + g_age_41_60 (demographic_row d) + g_age_60_plus (demographic_row d)
      = g_total_registered_voters (demographic_row d))%Z
  /\ (5 * g_total_registered_voters (demographic_row d)
      <= 100 * g_age_60_plus (demographic_row d)
      < 27 * g_total_registered_voters (demographic_row d) + 300)%Z.
Proof. apply demographic_row_bounds. Qed.

Lemma demographic_row_consistent_witness :
  (g_male_voters (demographic_row sample_demographic_draws)
   + g_female_voters (demographic_row sample_demographic_draws)
   = g_total_registered_voters (demographic_row sample_demographic_draws))%Z
  /\ (5 * g_total_registered_voters (demographic_row sample_demographic_draws)
      <= 100 * g_age_60_plus (demographic_row sample_demographic_draws))%Z.
Proof.
  destruct (demographic_row_consistent sample_demographic_draws)
    as [_ [H1 [_ [_ [_ [_ [_ [H2 _]]]]]]]].
  - repeat split; vm_compute; discriminate.
  - split; [exact H1|exact H2].
Defined.

Lemma q_of_Z_div_bounds (f t a b : Z) (c : positive) :
  (0 < t)%Z -> (a * t <= Zpos c * f)%Z -> (Zpos c * f <= b * t)%Z ->
  (a # c <= this (q_of_Z f / q_of_Z t)%Qc)%Q
  /\ (this (q_of_Z f / q_of_Z t)%Qc <= b # c)%Q.
Proof.
  intros Ht Hlo Hhi.
  rewrite this_div, !this_q_of_Z, (Qmake_Qdiv a c), (Qmake_Qdiv b c).
  rewrite Zle_Qle, !inject_Z_mult in Hlo, Hhi.
  assert (Ht' : (0 < inject_Z t)%Q)
    by (change 0%Q with (inject_Z 0); now rewrite <- Zlt_Qlt).
  assert (Hc : (0 < inject_Z (Zpos c))%Q) by reflexivity.
  split.
  - apply Qle_shift_div_l; [exact Ht'|].
    assert (E : (inject_Z a / inject_Z (Zpos c) * inject_Z t
                 == inject_Z a * inject_Z t / inject_Z (Zpos c))%Q)
      by (field; lra).
    rewrite E. apply Qle_shift_div_r; [exact Hc|]. nra.
  - apply Qle_shift_div_r; [exact Ht'|].
    assert (E : (inject_Z b / inject_Z (Zpos c) * inject_Z t
                 == inject_Z b * inject_Z t / inject_Z (Zpos c))%Q)
      by (field; lra).
    rewrite E. apply Qle_shift_div_l; [exact Hc|]. nra.
Qed.

Lemma q_of_Z_neq0 (z : Z) : z <> 0%Z -> q_of_Z z <> 0%Qc.
Proof. intros Hz H. now apply q_of_Z_zero in H. Qed.

(** X18: the Gender Balance Score of a generated demographics row lies
    between 0.92 and 1, whatever the row is joined with. *)
Theorem generated_GBS (k : key) (d : demographic_draws)
    (om : option migration_row) (os : option system_row) :
  demographic_draws_ok d ->
  exists q,
    GBS (join_row (written_demo k (demographic_row d), om, os))
    = Ok (Fin q)
    /\ (dec 92 100 <= q <= 1)%Qc.
Proof.
  intros Hd.
  destruct (demographic_row_bounds d Hd) as [Ht [_ [[Hf1 Hf2] _]]].
  set (t := g_total_registered_voters (demographic_row d)) in *.
  set (f := g_female_voters (demographic_row d)) in *.
  assert (Ht0 : q_of_Z t <> 0%Qc) by (apply q_of_Z_neq0; lia).
  exists (deviation_formula (q_of_Z f / q_of_Z t) (Q2Qc (1 # 2))).
  split.
  - rewrite GBS_value. f_equal. unfold GBS_v, join_row, written_demo.
    cbn [female_voters total_registered_voters d_female_voters
         d_total_registered_voters int_cell of_cell].
    fold t f. unfold safe_div_v.
    rewrite (proj2 (xeqb_Fin_zero _) Ht0). cbn [xdiv].
    pose proof (Qccompare_neq _ 0%Qc Ht0) as Hc.
    destruct (q_of_Z t ?= 0)%Qc; try contradiction;
      apply deviation_v_Fin; qc_neq.
  - assert (Ht' : (891344 <= t)%Z).
    { destruct Hd as [[Hd _] _]. unfold t, demographic_row.
      cbn [g_total_registered_voters].
      assert (E : py_int (AVG_VOTERS_PER_PC * dec 5 10) = 891344%Z)
        by (vm_compute; reflexivity).
      now rewrite E in Hd. }
    destruct (q_of_Z_div_bounds f t 46 54 100 Ht ltac:(lia) ltac:(lia))
      as [Hlo Hhi].
    unfold deviation_formula, Qcle.
    rewrite this_minus, this_div, this_abs, this_minus.
    change (this (Q2Qc (1 # 2))) with (1 # 2)%Q.
    change (this 1%Qc) with 1%Q.
    change (this (dec 92 100)) with (23 # 25)%Q.
    set (x := this (q_of_Z f / q_of_Z t)%Qc) in *.
    assert (E : (Qabs (x - (1 # 2)) / (1 # 2) == 2 * Qabs (x - (1 # 2)))%Q)
      by (field).
    rewrite E. split; apply Qabs_case; intros; lra.
Qed.

Lemma generated_GBS_witness :
  exists q,
    GBS (join_row
           (written_demo (sample_key "PC001"%string)
              (demographic_row sample_demographic_draws), None, None))
    = Ok (Fin q)
    /\ (dec 92 100 <= q <= 1)%Qc.
Proof.
  apply (generated_GBS (sample_key "PC001"%string) sample_demographic_draws
           None None).
  repeat split; vm_compute; discriminate.
Defined.

Lemma AVG_FORM6_share_nonneg (TOTAL_PCS : positive) (r : Qc) :
  (0 <= r)%Qc -> (0 <= AVG_FORM6_PER_PC TOTAL_PCS * r)%Qc.
Proof.
  unfold AVG_FORM6_PER_PC, Qcle. intros Hr.
  rewrite this_mult, this_div, !this_q_of_Z.
  change (this 0%Qc) with 0%Q in *.
  assert (H : (0 <= inject_Z ANNUAL_FORM6_NATIONAL
                    / inject_Z (Zpos TOTAL_PCS))%Q)
    by (apply Qdiv_nonneg; [discriminate|reflexivity]).
  nra.
Qed.

Lemma py_int_share (n : Z) (a : Z) (c : positive) :
  (0 <= n)%Z -> (0 <= a)%Z ->
  (0 <= py_int (q_of_Z n * dec a c))%Z
  /\ (Zpos c * py_int (q_of_Z n * dec a c) <= a * n)%Z.
Proof.
  intros Hn Ha.
  destruct (py_int_scaled n (dec a c) a a c Hn Ha) as [H1 [H2 _]];
    [split; apply Qcle_refl|]. now split.
Qed.

(** The largest number of Form 6 requests Faker is asked for. *)
Lemma base_form6_at_most (TOTAL_PCS : positive) :
  (py_int (AVG_FORM6_PER_PC TOTAL_PCS * dec 20 10) <= 4000000)%Z.
Proof.
  assert (H0 : (0 <= dec 20 10)%Qc) by (vm_compute; discriminate).
  destruct (py_int_bounds _ (AVG_FORM6_share_nonneg TOTAL_PCS _ H0))
    as [_ [Hle _]].
  rewrite Zle_Qle.
  apply Qle_trans with (1 := Hle).
  unfold AVG_FORM6_PER_PC. rewrite this_mult, this_div, !this_q_of_Z.
  pose proof (this_dec 20 10) as Ed.
  set (x := this (dec 20 10)) in *.
  assert (Ex : (x == 2)%Q).
  { assert (E : (x == x * inject_Z 10 / inject_Z 10)%Q)
      by (field; discriminate).
    rewrite E, Ed. reflexivity. }
  rewrite Ex.
  assert (Hp : (1 <= inject_Z (Zpos TOTAL_PCS))%Q).
  { change 1%Q with (inject_Z 1). rewrite <- Zle_Qle. lia. }
  assert (Hq : (inject_Z ANNUAL_FORM6_NATIONAL / inject_Z (Zpos TOTAL_PCS)
                <= inject_Z ANNUAL_FORM6_NATIONAL)%Q).
  { apply Qle_shift_div_r; [lra|].
    unfold ANNUAL_FORM6_NATIONAL.
    change (inject_Z 2000000) with (2000000 # 1)%Q. nra. }
  unfold ANNUAL_FORM6_NATIONAL in *.
  change (inject_Z 2000000) with (2000000 # 1)%Q in *.
  change (inject_Z 4000000) with (4000000 # 1)%Q. lra.
Qed.

Lemma migration_row_bounds (TOTAL_PCS : positive) (d : migration_draws) :
  migration_draws_ok TOTAL_PCS d ->
  (0 <= g_form6_addition_requests (migration_row_of d))%Z
  /\ (g_form6_inward_migration (migration_row_of d)
      + g_form6_outward_migration (migration_row_of d)
      = g_form6_addition_requests (migration_row_of d))%Z
  /\ (0 <= g_form6_inward_migration (migration_row_of d))%Z
  /\ (0 <= g_form6_outward_migration (migration_row_of d))%Z
  /\ (Z.abs (g_net_migration (migration_row_of d))
      <= g_form6_addition_requests (migration_row_of d))%Z
  /\ (100 * Z.abs (g_net_migration (migration_row_of d))
      <= 30 * g_form6_addition_requests (migration_row_of d) + 200)%Z
  /\ (0 <= g_form7_deletion_requests (migration_row_of d))%Z
  /\ (100 * g_form7_deletion_requests (migration_row_of d)
      <= 15 * g_form6_addition_requests (migration_row_of d))%Z
  /\ (0 <= g_form8_correction_requests (migration_row_of d))%Z
  /\ (100 * g_form8_correction_requests (migration_row_of d)
      <= 25 * g_form6_addition_requests (migration_row_of d))%Z.
Proof.
  intros [[Hb Hb'] [[Hlo Hhi] [H7 H8]]].
  assert (H0 : (0 <= dec 4 10)%Qc) by (vm_compute; discriminate).
  destruct (py_int_bounds _ (AVG_FORM6_share_nonneg TOTAL_PCS _ H0))
    as [Hp _].
  pose proof (base_form6_at_most TOTAL_PCS) as Hmax.
  unfold migration_row_of.
  cbn [g_form6_addition_requests g_form6_inward_migration
       g_form6_outward_migration g_net_migration
       g_form7_deletion_requests g_form8_correction_requests].
  set (b := dr_base_form6 d) in *.
  assert (Hb0 : (0 <= b)%Z) by lia.
  assert (Hr : (dec 34999999999999997 100000000000000000
                <= dr_inward_ratio d
                <= dec 65000000000000003 100000000000000000)%Qc).
  { split.
    - apply Qcle_trans with (2 := Hlo). vm_compute. discriminate.
    - apply Qcle_trans with (1 := Hhi). vm_compute. discriminate. }
  destruct (py_int_scaled b _ 34999999999999997 65000000000000003
              100000000000000000 Hb0 ltac:(lia) Hr) as [Ia [Ib Ic]].
  destruct (py_int_share b 5 100 Hb0 ltac:(lia)) as [A5 _].
  destruct (py_int_share b 15 100 Hb0 ltac:(lia)) as [_ B15].
  destruct (py_int_share b 10 100 Hb0 ltac:(lia)) as [A10 _].
  destruct (py_int_share b 25 100 Hb0 ltac:(lia)) as [_ B25].
  repeat split; lia.
Qed.

(** X19: the columns of a generated migration row are consistent: inward
    and outward migration are non-negative and add up to the Form 6
    requests, the net migration is at most 30% of them plus two requests in
    absolute value, and the Form 7 and Form 8 requests are at most 15% and
    25% of them. *)
Theorem migration_row_consistent (TOTAL_PCS : positive)
    (d : migration_draws) :
  migration_draws_ok TOTAL_PCS d ->
  (0 <= g_form6_addition_requests (migration_row_of d))%Z
  /\ (g_form6_inward_migration (migration_row_of d)
      + g_form6_outward_migration (migration_row_of d)
      = g_form6_addition_requests (migration_row_of d))%Z
  /\ (0 <= g_form6_inward_migration (migration_row_of d))%Z
  /\ (0 <= g_form6_outward_migration (migration_row_of d))%Z
  /\ (Z.abs (g_net_migration (migration_row_of d))
      <= g_form6_addition_requests (migration_row_of d))%Z
  /\ (100 * Z.abs (g_net_migration (migration_row_of d))
      <= 30 * g_form6_addition_requests (migration_row_of d) + 200)%Z
  /\ (0 <= g_form7_deletion_requests (migration_row_of d))%Z
  /\ (100 * g_form7_deletion_requests (migration_row_of d)
      <= 15 * g_form6_addition_requests (migration_row_of d))%Z
  /\ (0 <= g_form8_correction_requests (migration_row_of d))%Z
  /\ (100 * g_form8_correction_requests (migration_row_of d)
      <= 25 * g_form6_addition_requests (migration_row_of d))%Z.
Proof. apply migration_row_bounds. Qed.

Lemma Qabs_inject_Z (z : Z) : (Qabs (inject_Z z) == inject_Z (Z.abs z))%Q.
Proof.
  apply Qabs_case; intros H; unfold Qle in H; cbn in H.
  - rewrite Z.abs_eq by lia. reflexivity.
  - rewrite Z.abs_neq by lia. unfold Qeq. cbn. lia.
Qed.

Lemma migration_row_consistent_witness :
  (g_form6_inward_migration (migration_row_of tight_migration_draws)
   + g_form6_outward_migration (migration_row_of tight_migration_draws)
   = g_form6_addition_requests (migration_row_of tight_migration_draws))%Z
  /\ (100 * Z.abs (g_net_migration (migration_row_of tight_migration_draws))
      <= 30 * g_form6_addition_requests
                (migration_row_of tight_migration_draws) + 200)%Z.
Proof.
  destruct (migration_row_consistent 543 tight_migration_draws)
    as [_ [H1 [_ [_ [_ [H2 _]]]]]].
  - repeat split; vm_compute; discriminate.
  - split; [exact H1|exact H2].
Defined.

(** The bound on the net migration is reached: with the least inward ratio
    and 2580 requests, 902 are inward and 1678 outward. *)
Example migration_row_tight :
  g_form6_inward_migration (migration_row_of tight_migration_draws) = 902%Z
  /\ g_net_migration (migration_row_of tight_migration_draws) = (-776)%Z
  /\ (100 * 776 = 30 * 2580 + 200)%Z.
Proof. repeat split. Qed.

(** The Net Migration Intensity of a row with integer cells. *)
Lemma NMI_of_counts (row : joined) (net base : Z) :
  net_migration row = Fin (q_of_Z net) ->
  form6_addition_requests row = Fin (q_of_Z base) ->
  (0 < base)%Z -> (Z.abs net <= base)%Z ->
  exists q, NMI row = Ok (Fin q) /\ (0 <= q <= 1)%Qc.
Proof.
  intros En Eb Hb Hn. unfold NMI. rewrite safe_div_value, En, Eb.
  assert (Hb0 : q_of_Z base <> 0%Qc) by (apply q_of_Z_neq0; lia).
  exists (Qcabs (q_of_Z net) / q_of_Z base)%Qc. split.
  - f_equal. unfold safe_div_v. rewrite (proj2 (xeqb_Fin_zero _) Hb0).
    cbn [xabs xdiv]. pose proof (Qccompare_neq _ 0%Qc Hb0) as Hc.
    destruct (q_of_Z base ?= 0)%Qc; try contradiction; reflexivity.
  - unfold Qcle. rewrite this_div, this_abs, !this_q_of_Z, Qabs_inject_Z.
    change (this 0%Qc) with 0%Q. change (this 1%Qc) with 1%Q.
    assert (Hb' : (0 < inject_Z base)%Q)
      by (change 0%Q with (inject_Z 0); now rewrite <- Zlt_Qlt).
    assert (Ha : (0 <= inject_Z (Z.abs net))%Q).
    { change 0%Q with (inject_Z 0). rewrite <- Zle_Qle. apply Z.abs_nonneg. }
    rewrite Zle_Qle in Hn. split.
    + now apply Qdiv_nonneg.
    + apply Qle_shift_div_r; [exact Hb'|]. lra.
Qed.

(** X20: the Net Migration Intensity of a generated migration row lies
    between 0 and 1; it is missing only for a row without Form 6
    requests. *)
Theorem generated_NMI (TOTAL_PCS : positive) (k : key)
    (md : migration_draws) (d : demo_row) (os : option system_row) :
  migration_draws_ok TOTAL_PCS md ->
  (dr_base_form6 md = 0%Z
   /\ NMI (join_row (d, Some (written_migration k (migration_row_of md)),
                     os)) = Ok NaN)
  \/ exists q,
       NMI (join_row (d, Some (written_migration k (migration_row_of md)),
                      os)) = Ok (Fin q)
       /\ (0 <= q <= 1)%Qc.
Proof.
  intros Hd.
  destruct (migration_row_bounds TOTAL_PCS md Hd) as [Hb [_ [_ [_ [Hn _]]]]].
  destruct (Z.eq_dec (dr_base_form6 md) 0) as [E|E].
  - left. split; [exact E|]. unfold NMI. rewrite safe_div_value. f_equal.
    unfold join_row, written_migration, migration_row_of.
    cbn [form6_addition_requests col m_form6_addition_requests int_cell
         g_form6_addition_requests of_cell].
    rewrite E. apply safe_div_v_unusable. now left.
  - right.
    apply (NMI_of_counts _ (g_net_migration (migration_row_of md))
             (g_form6_addition_requests (migration_row_of md)));
      try reflexivity; [|exact Hn].
    cbn [migration_row_of g_form6_addition_requests] in *. lia.
Qed.

Lemma generated_NMI_witness :
  (dr_base_form6 sample_migration_draws = 0%Z
   /\ NMI (join_row
             (blank_demo "PC001"%string,
              Some (written_migration (sample_key "PC001"%string)
                      (migration_row_of sample_migration_draws)),
              None)) = Ok NaN)
  \/ exists q,
       NMI (join_row
              (blank_demo "PC001"%string,
               Some (written_migration (sample_key "PC001"%string)
                       (migration_row_of sample_migration_draws)),
               None)) = Ok (Fin q)
       /\ (0 <= q <= 1)%Qc.
Proof.
  apply (generated_NMI 543 (sample_key "PC001"%string)
           sample_migration_draws (blank_demo "PC001"%string) None).
  repeat split; vm_compute; discriminate.
Defined.

Lemma system_row_bounds (mig_row : migration_record) (d : system_draws) :
  (0 <= g_form6_addition_requests mig_row
        + g_form7_deletion_requests mig_row
        + g_form8_correction_requests mig_row)%Z ->
  system_draws_ok (g_total_requests (system_row_of mig_row d))
    (g_pending (system_row_of mig_row d)) d ->
  (g_total_requests (system_row_of mig_row d)
   = g_form6_addition_requests mig_row + g_form7_deletion_requests mig_row
     + g_form8_correction_requests mig_row)%Z
  /\ (0 <= g_approved (system_row_of mig_row d))%Z
  /\ (100 * g_approved (system_row_of mig_row d)
      <= 92 * g_total_requests (system_row_of mig_row d))%Z
  /\ (0 <= g_rejected (system_row_of mig_row d))%Z
  /\ (100 * g_rejected (system_row_of mig_row d)
      <= 12 * g_total_requests (system_row_of mig_row d))%Z
  /\ (0 <= g_pending (system_row_of mig_row d))%Z
  /\ (100 * g_pending (system_row_of mig_row d)
      < 22 * g_total_requests (system_row_of mig_row d) + 200)%Z
  /\ (0 <= g_objections_raised (system_row_of mig_row d))%Z
  /\ (100 * g_objections_raised (system_row_of mig_row d)
      <= 8 * g_total_requests (system_row_of mig_row d))%Z
  /\ (0 <= g_objections_resolved (system_row_of mig_row d))%Z
  /\ (g_objections_resolved (system_row_of mig_row d)
      + g_objections_pending (system_row_of mig_row d)
      = g_objections_raised (system_row_of mig_row d))%Z
  /\ (0 <= g_freeze_period_pending (system_row_of mig_row d)
      <= g_pending (system_row_of mig_row d))%Z
  /\ (2 <= g_officers_assigned (system_row_of mig_row d) <= 12)%Z.
Proof.
  intros Ht. unfold system_row_of.
  cbn [g_total_requests g_approved g_rejected g_pending g_objections_raised
       g_objections_resolved g_objections_pending g_freeze_period_pending
       g_officers_assigned].
  set (t := (g_form6_addition_requests mig_row
             + g_form7_deletion_requests mig_row
             + g_form8_correction_requests mig_row)%Z) in *.
  set (a := py_int (q_of_Z t * dr_approved_ratio d)).
  set (r := py_int (q_of_Z t * dr_rejected_ratio d)).
  set (p := Z.max 0 (t - (a + r))).
  intros [Ha [Hr [Ho [Hs [Hf Hof]]]]].
  destruct (py_int_scaled t _ 75 92 100 Ht ltac:(lia) Ha) as [Aa [Ab Ac]].
  destruct (py_int_scaled t _ 3 12 100 Ht ltac:(lia) Hr) as [Ra [Rb Rc]].
  fold a in Aa, Ab, Ac. fold r in Ra, Rb, Rc.
  assert (Hp : (0 <= p)%Z) by (unfold p; lia).
  destruct (py_int_share t 8 100 Ht ltac:(lia)) as [_ O8].
  destruct (py_int_share p 3 10 Hp ltac:(lia)) as [F3 F3'].
  destruct (py_int_share p 7 10 Hp ltac:(lia)) as [_ F7].
  set (o := if (0 <? t)%Z then dr_objections d else 0%Z).
  assert (Ho' : (0 <= o)%Z /\ (100 * o <= 8 * t)%Z).
  { unfold o. destruct (0 <? t)%Z eqn:E; [|lia].
    apply Z.ltb_lt in E. lia. }
  destruct Ho' as [Ho1 Ho2].
  destruct (py_int_scaled o _ 60 95 100 Ho1 ltac:(lia) Hs) as [Sa [Sb _]].
  assert (Hfz : (0 <= (if (0 <? p)%Z then dr_freeze_pending d else 0)
                 <= p)%Z).
  { destruct (0 <? p)%Z; lia. }
  repeat split; try lia.
Qed.

(** X21: the columns of a generated system-load row are consistent:
    approved and rejected requests are at most 92% and 12% of the total,
    pending requests are non-negative and below 22% of it (plus two), the
    objections raised are at most 8% of it, the objections resolved and
    pending add up to the objections raised (the guard [max(0, ...)] never
    acts there), and the requests frozen are among the pending ones. *)
Theorem system_row_consistent (mig_row : migration_record)
    (d : system_draws) :
  (0 <= g_form6_addition_requests mig_row
        + g_form7_deletion_requests mig_row
        + g_form8_correction_requests mig_row)%Z ->
  system_draws_ok (g_total_requests (system_row_of mig_row d))
    (g_pending (system_row_of mig_row d)) d ->
  (g_total_requests (system_row_of mig_row d)
   = g_form6_addition_requests mig_row + g_form7_deletion_requests mig_row
     + g_form8_correction_requests mig_row)%Z
  /\ (0 <= g_approved (system_row_of mig_row d))%Z
  /\ (100 * g_approved (system_row_of mig_row d)
      <= 92 * g_total_requests (system_row_of mig_row d))%Z
  /\ (0 <= g_rejected (system_row_of mig_row d))%Z
  /\ (100 * g_rejected (system_row_of mig_row d)
      <= 12 * g_total_requests (system_row_of mig_row d))%Z
  /\ (0 <= g_pending (system_row_of mig_row d))%Z
  /\ (100 * g_pending (system_row_of mig_row d)
      < 22 * g_total_requests (system_row_of mig_row d) + 200)%Z
  /\ (0 <= g_objections_raised (system_row_of mig_row d))%Z
  /\ (100 * g_objections_raised (system_row_of mig_row d)
      <= 8 * g_total_requests (system_row_of mig_row d))%Z
  /\ (0 <= g_objections_resolved (system_row_of mig_row d))%Z
  /\ (g_objections_resolved (system_row_of mig_row d)
      + g_objections_pending (system_row_of mig_row d)
      = g_objections_raised (system_row_of mig_row d))%Z
  /\ (0 <= g_freeze_period_pending (system_row_of mig_row d)
      <= g_pending (system_row_of mig_row d))%Z
  /\ (2 <= g_officers_assigned (system_row_of mig_row d) <= 12)%Z.
Proof. apply system_row_bounds. Qed.

(** The parts of a row of [df]. *)
Lemma df_row_parts (demo_df : list demo_row)
    (migration_df : list migration_row) (system_df : list system_row)
    (row : joined) :
  In row (df demo_df migration_df system_df) ->
  exists d om os,
    row = join_row (d, om, os) /\ In d demo_df
    /\ (om = None \/ exists m, om = Some m /\ In m migration_df)
    /\ (os = None \/ exists s, os = Some s /\ In s system_df).
Proof.
  unfold df. intros H. apply in_map_iff in H.
  destruct H as [[[d om] os] [<- Hx]].
  exists d, om, os. split; [reflexivity|].
  apply merge_left_In in Hx. destruct Hx as [Hx Hos].
  apply merge_left_In in Hx. tauto.
Qed.

Lemma system_row_consistent_witness :
  (g_objections_resolved
     (system_row_of (migration_row_of sample_migration_draws)
        sample_system_draws)
   + g_objections_pending
       (system_row_of (migration_row_of sample_migration_draws)
          sample_system_draws)
   = g_objections_raised
       (system_row_of (migration_row_of sample_migration_draws)
          sample_system_draws))%Z
  /\ (0 <= g_freeze_period_pending
             (system_row_of (migration_row_of sample_migration_draws)
                sample_system_draws)
      <= g_pending
           (system_row_of (migration_row_of sample_migration_draws)
              sample_system_draws))%Z.
Proof.
  destruct (system_row_consistent (migration_row_of sample_migration_draws)
              sample_system_draws)
    as [_ [_ [_ [_ [_ [_ [_ [_ [_ [_ [H1 [H2 _]]]]]]]]]]]].
  - vm_compute. discriminate.
  - repeat split; vm_compute; discriminate.
  - split; [exact H1|exact H2].
Defined.

Lemma xeqb_q_of_Z_zero (z : Z) :
  xeqb (Fin (q_of_Z z)) xzero = true -> z = 0%Z.
Proof.
  intros H. apply xeqb_zero_true in H. apply q_of_Z_zero.
  now apply (f_equal (fun x => match x with Fin q => q | _ => 0%Qc end))
    in H.
Qed.

(** X22: on the system-load table the generator writes, whatever the draws,
    a row without requests has no rejected request and no objection, so
    the two rate baselines of the scorer are the means of the ratios of the
    rows that have requests. *)
Theorem generated_rate_baselines (demo_df : list demo_row)
    (migration_df : list migration_row)
    (mig_rows : list (key * migration_record))
    (draws : list system_draws) :
  national_rejection_rate_avg
    (compute_baselines
       (df demo_df migration_df
          (written_system_df (system_rows mig_rows draws))))
  = rate_baseline_spec rejected total_requests
      (df demo_df migration_df (written_system_df (system_rows mig_rows draws)))
  /\ national_objection_rate_avg
       (compute_baselines
          (df demo_df migration_df
             (written_system_df (system_rows mig_rows draws))))
     = rate_baseline_spec objections_raised total_requests
         (df demo_df migration_df
            (written_system_df (system_rows mig_rows draws))).
Proof.
  assert (H : forall row,
             In row (df demo_df migration_df
                       (written_system_df (system_rows mig_rows draws))) ->
             xeqb (total_requests row) xzero = true ->
             xeqb (rejected row) xzero = true
             /\ xeqb (objections_raised row) xzero = true).
  { intros row Hrow Hz. apply df_row_parts in Hrow.
    destruct Hrow as [d [om [os [-> [_ [_ [-> | [s [-> Hs]]]]]]]]];
      [discriminate Hz|].
    unfold written_system_df, system_rows in Hs.
    rewrite map_map in Hs. apply in_map_iff in Hs.
    destruct Hs as [[[k mr] sd] [<- _]].
    cbn [fst snd join_row total_requests rejected objections_raised col
         written_system s_total_requests s_rejected s_objections_raised
         int_cell of_cell] in *.
    apply xeqb_q_of_Z_zero in Hz.
    unfold system_row_of in *.
    cbn [g_total_requests g_rejected g_objections_raised] in *.
    rewrite Hz, py_int_zero. cbn [Z.ltb Z.compare]. split; reflexivity. }
  cbn [compute_baselines national_rejection_rate_avg
       national_objection_rate_avg].
  split; apply rate_baseline_agrees; intros row Hrow Hz; left;
    now apply H.
Qed.

(* ================================================================== *)
(** * From the constituency list to the scores *)
(* ================================================================== *)

Module PipelineFacts.

Lemma key_eqb_refl (k : key) : key_eqb k k = true.
Proof. unfold key_eqb. now rewrite !String.eqb_refl. Qed.

Lemma merge_left_matched {L R : Type} (kl : L -> key) (kr : R -> key)
    (left : list L) (right : list R) (l : L) (o : option R) :
  In (l, o) (merge_left kl kr left right) ->
  In (kl l) (map kr right) ->
  exists r, o = Some r /\ In r right.
Proof.
  intros H Hk. destruct o as [r|].
  - exists r. split; [reflexivity|].
    apply merge_left_In in H. destruct H as [_ [H|[r' [E Hr]]]];
      [discriminate H|]. now injection E as ->.
  - exfalso. unfold merge_left in H. apply in_flat_map in H.
    destruct H as [l0 [_ H]].
    destruct (filter (fun r => key_eqb (kl l0) (kr r)) right) as [|r0 ms]
      eqn:E.
    + destruct H as [H|[]]. injection H as ->.
      apply in_map_iff in Hk. destruct Hk as [r [Hr Hin]].
      assert (Hf : In r (filter (fun r => key_eqb (kl l) (kr r)) right)).
      { apply filter_In. split; [exact Hin|].
        rewrite Hr. apply key_eqb_refl. }
      now rewrite E in Hf.
    + apply in_map_iff in H. destruct H as [r [H _]]. discriminate H.
Qed.

Lemma map_fst_combine_same {A B : Type} (l : list A) (l' : list B) :
  List.length l' = List.length l -> map fst (combine l l') = l.
Proof.
  revert l'. induction l as [|a l IH]; intros [|b l'] H; try discriminate H;
    [reflexivity|].
  cbn [combine map fst]. f_equal. apply IH. now injection H.
Qed.

Lemma surviving_nonempty (scores weights : list xfloat) (s : xfloat) :
  List.length weights = List.length scores ->
  In s scores -> isna s = false -> surviving scores weights <> [].
Proof.
  revert weights. induction scores as [|x ss IH]; intros [|wt ws] Hl Hin Hs;
    try discriminate Hl; [contradiction|].
  cbn [surviving]. destruct (isna x) eqn:E; [|discriminate].
  destruct Hin as [-> | Hin]; [congruence|].
  apply IH; [now injection Hl|exact Hin|exact Hs].
Qed.

Lemma normalize_v_present (scores weights : list xfloat) (s : xfloat) :
  Forall not_inf scores -> Forall positive_weight weights ->
  List.length weights = List.length scores ->
  In s scores -> isna s = false ->
  exists q, normalize_v scores weights = Fin q.
Proof.
  intros Hs Hw Hl Hin Hna. unfold normalize_v.
  pose proof (surviving_products_fin scores weights Hs Hw) as Hp.
  pose proof (surviving_weights_positive scores weights Hw) as Hq.
  pose proof (surviving_nonempty scores weights s Hl Hin Hna) as Hne.
  destruct (surviving scores weights) as [|p ps]; [contradiction|].
  rewrite !py_sum_total.
  destruct (total_fin _ Hp) as [n ->].
  destruct (total_positive (map snd (p :: ps))) as [d [-> Hd]];
    [discriminate|exact Hq|].
  exists (n / d)%Qc. cbn [xdiv]. now rewrite (Qccompare_pos d Hd).
Qed.

Lemma emit_present (x : xfloat) (q : Qc) : x = Fin q -> emit x <> None.
Proof. intros ->. discriminate. Qed.

Lemma round_half_even_floor (q : Q) : (Qfloor q <= round_half_even q)%Z.
Proof.
  unfold round_half_even. destruct q as [n d]. cbn [Qfloor Qnum Qden].
  destruct (2 * (n mod Zpos d) ?= Zpos d)%Z; [|lia|lia].
  destruct (Z.even (n / Zpos d)); lia.
Qed.

(** [round(total / officers, 1)] is positive when there are at least as
    many requests as officers. *)
Lemma cases_per_officer_positive (total officers : Z) :
  (0 < officers <= total)%Z ->
  (0 < py_round 1 (q_of_Z total / q_of_Z officers))%Qc.
Proof.
  intros [Ho Ht]. unfold py_round, ten_pow.
  change (q_of_Z (10 ^ Z.of_nat 1)) with (q_of_Z 10).
  set (y := (q_of_Z total / q_of_Z officers * q_of_Z 10)%Qc).
  assert (Hy : (10 <= this y)%Q).
  { unfold y. rewrite this_mult, this_div, !this_q_of_Z.
    change (inject_Z 10) with 10%Q.
    assert (Ho' : (0 < inject_Z officers)%Q)
      by (change 0%Q with (inject_Z 0); now rewrite <- Zlt_Qlt).
    rewrite Zle_Qle in Ht.
    assert (H1 : (1 <= inject_Z total / inject_Z officers)%Q)
      by (apply Qle_shift_div_l; [exact Ho'|lra]).
    lra. }
  assert (Hr : (10 <= round_half_even (this y))%Z).
  { apply (Z.le_trans _ (Qfloor (this y))); [|apply round_half_even_floor].
    change 10%Z with (Qfloor 10). now apply Qfloor_resp_le. }
  unfold Qclt. rewrite this_div, !this_q_of_Z.
  change (this 0%Qc) with 0%Q. change (inject_Z 10) with 10%Q.
  rewrite Zle_Qle in Hr. change (inject_Z 10) with 10%Q in Hr.
  apply Qlt_shift_div_l; lra.
Qed.

End PipelineFacts.
Import PipelineFacts.

Module PresenceFacts.

Lemma safe_div_v_Fin (a b : Qc) :
  b <> 0%Qc -> safe_div_v (Fin a) (Fin b) = Fin (a / b)%Qc.
Proof.
  intros Hb. unfold safe_div_v. rewrite (proj2 (xeqb_Fin_zero b) Hb).
  cbn [xdiv]. pose proof (Qccompare_neq b 0%Qc Hb) as Hc.
  destruct (b ?= 0)%Qc; try contradiction; reflexivity.
Qed.

(** A row with a present age bracket has a Statistical Health Score. *)
Lemma SHS_present (t : list joined) (row : joined) (a : Qc) :
  Forall cells_not_inf t -> In row t -> age_18_25 row = Fin a ->
  exists q, SHS_v (compute_baselines t) row = Fin q.
Proof.
  intros Ht Hrow Ha.
  destruct (table_baselines_not_inf t Ht) as [Hb [Hl Hu]].
  assert (Hc : cells_not_inf row)
    by now apply (proj1 (Forall_forall _ _) Ht).
  assert (Hages : Forall (fun r => Forall not_inf (age_vec r)) t).
  { apply Forall_forall. intros r Hr. apply age_vec_not_inf.
    now apply (proj1 (Forall_forall _ _) Ht). }
  pose proof (ADS_on_table t row Hages Hrow) as Hna.
  assert (Hads : isna (ADS (compute_baselines t) row) = false).
  { destruct (isna (ADS (compute_baselines t) row)) eqn:E; [|reflexivity].
    pose proof (proj1 Hna eq_refl) as Hall. unfold age_vec in Hall.
    inversion Hall as [|? ? H1 _]; subst. rewrite Ha in H1.
    discriminate H1. }
  unfold SHS_v.
  apply (normalize_v_present _ _ (ADS (compute_baselines t) row));
    [|apply SHS_weights_positive|reflexivity|simpl; tauto|exact Hads].
  repeat apply Forall_cons; try apply Forall_nil.
  - apply deviation_v_not_inf; [|reflexivity].
    apply safe_div_v_not_inf. apply (cell_not_inf row Hc). simpl; tauto.
  - apply ADS_not_inf; [now apply age_vec_not_inf|exact Hb].
  - apply deviation_v_not_inf; [|exact Hl].
    apply (cell_not_inf row Hc). simpl; tauto.
  - apply deviation_v_not_inf; [|exact Hu].
    apply (cell_not_inf row Hc). simpl; tauto.
Qed.

(** A row with a nonzero number of Form 6 requests and a present net
    migration has a Migration Pressure Index. *)
Lemma MPI_present (b : baselines) (row : joined) (n f : Qc) :
  net_migration row = Fin n -> form6_addition_requests row = Fin f ->
  f <> 0%Qc ->
  exists q, MPI_v b row = Fin q.
Proof.
  intros En Ef Hf. unfold MPI_v. rewrite En, Ef. cbn [xabs].
  rewrite (safe_div_v_Fin _ f Hf).
  apply (normalize_v_present _ _ (Fin (Qcabs n / f)%Qc));
    [|apply MPI_weights_positive|reflexivity|simpl; tauto|reflexivity].
  repeat apply Forall_cons; try apply Forall_nil; [reflexivity|].
  now apply safe_div_v_not_inf.
Qed.

(** A row with a positive [cases_per_officer] has an Abuse-of-Process
    Score. *)
Lemma APS_present (t : list joined) (row : joined) (c : Qc) :
  Forall cells_not_inf t -> In row t ->
  cases_per_officer row = Fin c -> (0 < c)%Qc ->
  exists q, APS_v (compute_baselines t) row = Fin q.
Proof.
  intros Ht Hrow Ec Hc.
  assert (Hcells : cells_not_inf row)
    by now apply (proj1 (Forall_forall _ _) Ht).
  assert (Hcol : Forall not_inf (map cases_per_officer t)).
  { apply Forall_map, Forall_forall. intros r Hr.
    apply (cell_not_inf r); [now apply (proj1 (Forall_forall _ _) Ht)|].
    simpl; tauto. }
  assert (Hin : In (Fin c) (map cases_per_officer t)).
  { rewrite <- Ec. now apply in_map. }
  destruct (max_skipna_spec _ c Hcol Hin) as [m [Em [Hmax _]]].
  assert (Hm : (0 < m)%Qc)
    by (apply (Qclt_le_trans _ c); [exact Hc|now apply Hmax]).
  unfold APS_v. cbn [compute_baselines national_max_cases_per_officer].
  rewrite Em, Ec, (safe_div_v_Fin c m (Qclt_neq0 m Hm)).
  apply (normalize_v_present _ _ (Fin (c / m)%Qc));
    [|apply APS_weights_positive|reflexivity|simpl; tauto|reflexivity].
  repeat apply Forall_cons; try apply Forall_nil; try reflexivity;
    repeat apply safe_div_v_not_inf; apply (cell_not_inf row Hcells);
    simpl; tauto.
Qed.

End PresenceFacts.
Import PresenceFacts.

Lemma rows_length (extracted_names : list string) :
  List.length (rows extracted_names) = 543%nat.
Proof.
  unfold rows, all_constituencies.
  now rewrite rows_from_length, extended_length.
Qed.

Lemma generated_keys (pc_df : list key) (dd : list demographic_draws)
    (md : list migration_draws) (sd : list system_draws) :
  List.length dd = List.length pc_df ->
  List.length md = List.length pc_df ->
  List.length sd = List.length pc_df ->
  map d_key (written_demo_df (demographic_rows pc_df dd)) = pc_df
  /\ map m_key (written_migration_df (migration_rows pc_df md)) = pc_df
  /\ map s_key
       (written_system_df (system_rows (migration_rows pc_df md) sd))
     = pc_df.
Proof.
  intros Hd Hm Hs.
  assert (Em : map fst (migration_rows pc_df md) = pc_df).
  { unfold migration_rows. rewrite map_map. cbn [fst].
    now apply map_fst_combine_same. }
  split; [|split].
  - unfold written_demo_df, demographic_rows. rewrite !map_map.
    cbn [fst snd written_demo d_key]. now apply map_fst_combine_same.
  - unfold written_migration_df. rewrite map_map.
    cbn [written_migration m_key]. exact Em.
  - unfold written_system_df, system_rows. rewrite !map_map.
    cbn [fst snd written_system s_key].
    rewrite <- (map_map fst fst), map_fst_combine_same; [exact Em|].
    unfold migration_rows. rewrite length_map, length_combine. lia.
Qed.

Lemma generated_rows_scored (pcs : list key)
    (dd : list demographic_draws) (md : list migration_draws)
    (sd : list system_draws) :
  NoDup (map k_pc_id pcs) ->
  List.length dd = List.length pcs -> List.length md = List.length pcs ->
  List.length sd = List.length pcs ->
  Forall (migration_draws_ok 543) md ->
  Forall (fun s => (2 <= dr_officers_assigned s <= 12)%Z) sd ->
  exists rs,
    analysis
      (written_demo_df (demographic_rows pcs dd))
      (written_migration_df (migration_rows pcs md))
      (written_system_df (system_rows (migration_rows pcs md) sd))
    = Ok rs
    /\ map record_key rs = pcs
    /\ Forall
         (fun r =>
            statistical_health_score r <> None
            /\ migration_pressure_index r <> None
            /\ abuse_of_process_score r <> None)
         rs.
Proof.
  intros Hnd Hdd Hmd Hsd Hmok Hsok.
  destruct (generated_keys pcs dd md sd Hdd Hmd Hsd) as [Kd [Km Ks]].
  set (demo := written_demo_df (demographic_rows pcs dd)) in *.
  set (mig := written_migration_df (migration_rows pcs md)) in *.
  set (sys := written_system_df (system_rows (migration_rows pcs md) sd))
    in *.
  assert (Nm : NoDup (map migration_pc_id mig)).
  { change migration_pc_id with (fun m => k_pc_id (m_key m)).
    rewrite <- (map_map m_key k_pc_id), Km. exact Hnd. }
  assert (Ns : NoDup (map system_pc_id sys)).
  { change system_pc_id with (fun s => k_pc_id (s_key s)).
    rewrite <- (map_map s_key k_pc_id), Ks. exact Hnd. }
  set (t := df demo mig sys).
  exists (map (score_row_v (compute_baselines t)) t).
  split; [apply results_value|]. split.
  - unfold t. rewrite (results_keys demo mig sys _ Nm Ns). exact Kd.
  - pose proof (df_cells_not_inf demo mig sys) as Hcells. fold t in Hcells.
    assert (Hbase : forall m, In m md ->
              (1473 <= g_form6_addition_requests (migration_row_of m))%Z
              /\ (0 <= g_form7_deletion_requests (migration_row_of m))%Z
              /\ (0 <= g_form8_correction_requests (migration_row_of m))%Z).
    { intros m Hm. rewrite Forall_forall in Hmok.
      pose proof (Hmok m Hm) as Hok.
      destruct (migration_row_bounds 543 m Hok)
        as [_ [_ [_ [_ [_ [_ [H7 [_ [H8 _]]]]]]]]].
      destruct Hok as [[Hb _] _].
      assert (E : py_int (AVG_FORM6_PER_PC 543 * dec 4 10) = 1473%Z)
        by (vm_compute; reflexivity).
      rewrite E in Hb. cbn [migration_row_of g_form6_addition_requests].
      split; [exact Hb|]. split; [exact H7|exact H8]. }
    apply Forall_map, Forall_forall. intros row Hrow.
    assert (Hparts : exists d m s,
               row = join_row (d, Some m, Some s)
               /\ In d demo /\ In m mig /\ In s sys).
    { unfold t, df in Hrow. apply in_map_iff in Hrow.
      destruct Hrow as [[[d om] os] [<- Hx]].
      pose proof (merge_left_In _ _ _ _ _ _ Hx) as [Hx1 _].
      pose proof (merge_left_In _ _ _ _ _ _ Hx1) as [Hd _].
      assert (Hk : In (d_key d) pcs)
        by (rewrite <- Kd; apply in_map; exact Hd).
      destruct (merge_left_matched _ _ _ _ _ _ Hx) as [s [-> Hs]];
        [cbn [fst]; rewrite Ks; exact Hk|].
      destruct (merge_left_matched _ _ _ _ _ _ Hx1) as [m [-> Hm]];
        [rewrite Km; exact Hk|].
      exists d, m, s. repeat split; assumption. }
    destruct Hparts as [d [m [s [Erow [Hd [Hm Hs]]]]]].
    unfold demo, written_demo_df, demographic_rows in Hd.
    rewrite map_map in Hd. apply in_map_iff in Hd.
    destruct Hd as [[kd xd] [<- _]].
    unfold mig, written_migration_df, migration_rows in Hm.
    rewrite map_map in Hm. apply in_map_iff in Hm.
    destruct Hm as [[km xm] [<- Hxm]]. apply in_combine_r in Hxm.
    unfold sys, written_system_df, system_rows in Hs.
    rewrite map_map in Hs. apply in_map_iff in Hs.
    destruct Hs as [[[ks mr] xs] [<- Hxs]].
    pose proof (in_combine_l _ _ _ _ Hxs) as Hmr.
    apply in_combine_r in Hxs.
    unfold migration_rows in Hmr. apply in_map_iff in Hmr.
    destruct Hmr as [[km' xm'] [Emr Hxm']]. apply in_combine_r in Hxm'.
    injection Emr as <- <-.
    cbn [fst snd] in Erow.
    destruct (Hbase xm Hxm) as [Hb _].
    destruct (Hbase xm' Hxm') as [Hb' [H7 H8]].
    rewrite Forall_forall in Hsok. pose proof (Hsok xs Hxs) as Hoff.
    cbn [score_row_v statistical_health_score migration_pressure_index
         abuse_of_process_score].
    split; [|split].
    + destruct (SHS_present t row
                  (q_of_Z (g_age_18_25 (demographic_row xd))) Hcells Hrow)
        as [q E]; [rewrite Erow; reflexivity|].
      exact (emit_present _ q E).
    + destruct (MPI_present (compute_baselines t) row
                  (q_of_Z (g_net_migration (migration_row_of xm)))
                  (q_of_Z (g_form6_addition_requests (migration_row_of xm))))
        as [q E]; try (rewrite Erow; reflexivity).
      * apply q_of_Z_neq0. lia.
      * exact (emit_present _ q E).
    + destruct (APS_present t row
                  (g_cases_per_officer
                     (system_row_of (migration_row_of xm') xs))
                  Hcells Hrow) as [q E];
        [rewrite Erow; reflexivity| |exact (emit_present _ q E)].
      cbn [system_row_of g_cases_per_officer].
      apply cases_per_officer_positive. lia.
Qed.

(** X23: the three scripts run one after the other.  Whatever names the
    search returned, when the draws of the generator lie in the ranges
    asked of Faker for the migration counts and for the number of
    officers, the scorer returns 543 records, which carry the identity
    columns of the constituency file in its order, and each of them has
    its three scores: none is [None].  (The files are taken to be read
    back as they were written.) *)
Theorem generated_scores_present (extracted_names : list string)
    (dd : list demographic_draws) (md : list migration_draws)
    (sd : list system_draws) :
  List.length dd = 543%nat -> List.length md = 543%nat ->
  List.length sd = 543%nat ->
  Forall (migration_draws_ok 543) md ->
  Forall (fun s => (2 <= dr_officers_assigned s <= 12)%Z) sd ->
  exists rs,
    analysis
      (written_demo_df (demographic_rows (rows extracted_names) dd))
      (written_migration_df (migration_rows (rows extracted_names) md))
      (written_system_df
         (system_rows (migration_rows (rows extracted_names) md) sd))
    = Ok rs
    /\ map record_key rs = rows extracted_names
    /\ Forall
         (fun r =>
            statistical_health_score r <> None
            /\ migration_pressure_index r <> None
            /\ abuse_of_process_score r <> None)
         rs.
Proof.
  intros Hdd Hmd Hsd Hmok Hsok.
  pose proof (rows_length extracted_names) as Hlen.
  apply generated_rows_scored; try assumption.
  - apply rows_pc_ids_NoDup.
  - now rewrite Hlen.
  - now rewrite Hlen.
  - now rewrite Hlen.
Qed.

Lemma generated_scores_present_witness :
  exists rs,
    analysis
      (written_demo_df
         (demographic_rows (rows []) (repeat sample_demographic_draws 543)))
      (written_migration_df
         (migration_rows (rows []) (repeat sample_migration_draws 543)))
      (written_system_df
         (system_rows
            (migration_rows (rows []) (repeat sample_migration_draws 543))
            (repeat sample_system_draws 543)))
    = Ok rs
    /\ map record_key rs = rows []
    /\ Forall
         (fun r =>
            statistical_health_score r <> None
            /\ migration_pressure_index r <> None
            /\ abuse_of_process_score r <> None)
         rs.
Proof.
  apply (generated_scores_present []
           (repeat sample_demographic_draws 543)
           (repeat sample_migration_draws 543)
           (repeat sample_system_draws 543)).
  - apply repeat_length.
  - apply repeat_length.
  - apply repeat_length.
  - apply Forall_forall. intros x Hx. apply repeat_spec in Hx. subst x.
    repeat split; vm_compute; discriminate.
  - apply Forall_forall. intros x Hx. apply repeat_spec in Hx. subst x.
    split; vm_compute; discriminate.
Defined.


(* ================================================================== *)
(** * Facts about binary64 arithmetic *)
(* ================================================================== *)

Module B64Facts.

Import B64.

(** ** No operation on numbers invents a [NaN] *)

Lemma shr_1_nonneg (mrs : shr_record) :
  (0 <= shr_m mrs)%Z -> (0 <= shr_m (shr_1 mrs))%Z.
Proof.
  destruct mrs as [m r s]. destruct m as [|p|p]; cbn; try lia;
    destruct p; cbn; lia.
Qed.

Lemma iter_shr_1_nonneg (p : positive) (mrs : shr_record) :
  (0 <= shr_m mrs)%Z -> (0 <= shr_m (iter_pos shr_1 p mrs))%Z.
Proof.
  revert mrs. induction p as [p IH|p IH|]; intros mrs H; cbn [iter_pos].
  - apply IH, IH. now apply shr_1_nonneg.
  - now apply IH, IH.
  - now apply shr_1_nonneg.
Qed.

Lemma shr_fexp_nonneg (m e : Z) (l : location) :
  (0 <= m)%Z -> (0 <= shr_m (fst (shr_fexp prec emax m e l)))%Z.
Proof.
  intros H. unfold shr_fexp, shr.
  assert (H0 : (0 <= shr_m (shr_record_of_loc m l))%Z)
    by (destruct l as [|[]]; exact H).
  destruct (fexp prec emax (Zdigits2 m + e) - e)%Z; cbn [fst];
    try exact H0.
  now apply iter_shr_1_nonneg.
Qed.

Lemma round_nearest_even_nonneg (m : Z) (l : location) :
  (0 <= m)%Z -> (0 <= round_nearest_even m l)%Z.
Proof.
  intros H. destruct l as [|[]]; cbn; try lia.
  destruct (Z.even m); lia.
Qed.

Lemma binary_round_aux_not_nan (sx : bool) (mx ex : Z) (lx : location) :
  (0 <= mx)%Z -> is_nan (binary_round_aux prec emax sx mx ex lx) = false.
Proof.
  intros H. unfold binary_round_aux.
  pose proof (shr_fexp_nonneg mx ex lx H) as H1.
  destruct (shr_fexp prec emax mx ex lx) as [mrs' e']. cbn [fst] in H1.
  pose proof (round_nearest_even_nonneg _ (loc_of_shr_record mrs') H1) as H2.
  pose proof (shr_fexp_nonneg _ e' loc_Exact H2) as H3.
  destruct (shr_fexp prec emax
              (round_nearest_even (shr_m mrs') (loc_of_shr_record mrs')) e'
              loc_Exact) as [mrs'' e''].
  cbn [fst] in H3.
  destruct (shr_m mrs'') as [|m|m]; [reflexivity| |lia].
  now destruct (e'' <=? emax - prec)%Z.
Qed.

Lemma binary_normalize_not_nan (m e : Z) (sz : bool) :
  is_nan (binary_normalize prec emax m e sz) = false.
Proof.
  destruct m as [|p|p]; [reflexivity| |]; cbn [binary_normalize];
    unfold binary_round;
    destruct (shl_align _ _ _) as [mz ez];
    now apply binary_round_aux_not_nan.
Qed.

Lemma add_finite_not_nan (x y : float) :
  is_finite x = true -> is_finite y = true -> is_nan (add x y) = false.
Proof.
  destruct x as [sx|sx| |sx mx ex], y as [sy|sy| |sy my ey];
    try discriminate; intros _ _; try reflexivity.
  - now destruct sx, sy.
  - apply binary_normalize_not_nan.
Qed.

Lemma sub_finite_r_not_nan (x y : float) :
  is_nan x = false -> is_finite y = true -> is_nan (sub x y) = false.
Proof.
  destruct x as [sx|sx| |sx mx ex], y as [sy|sy| |sy my ey];
    try discriminate; intros _ _; try reflexivity.
  - now destruct sx, sy.
  - apply binary_normalize_not_nan.
Qed.

Lemma sub_finite_l_not_nan (x y : float) :
  is_finite x = true -> is_nan y = false -> is_nan (sub x y) = false.
Proof.
  destruct x as [sx|sx| |sx mx ex], y as [sy|sy| |sy my ey];
    try discriminate; intros _ _; try reflexivity.
  - now destruct sx, sy.
  - apply binary_normalize_not_nan.
Qed.

Lemma abs_nan (x : float) : is_nan (abs x) = is_nan x.
Proof. now destruct x. Qed.

Lemma div_core_nonneg (m1 m2 : positive) (e1 e2 : Z) :
  (0 <= fst (fst (SFdiv_core_binary prec emax (Zpos m1) e1 (Zpos m2) e2)))%Z.
Proof.
  unfold SFdiv_core_binary.
  set (s := (_ - _ - _)%Z).
  set (m' := match s with Zpos _ => Z.shiftl (Zpos m1) s | Z0 => Zpos m1
                        | Zneg _ => 0%Z end).
  assert (Hm : (0 <= m')%Z).
  { unfold m'. destruct s; try lia. apply Z.shiftl_nonneg. lia. }
  pose proof (Z.div_pos m' (Zpos m2) Hm ltac:(lia)) as Hq.
  unfold Z.div in Hq. destruct (Z.div_eucl m' (Zpos m2)) as [q r].
  exact Hq.
Qed.

(** The quotient by a number that is neither zero nor infinite. *)
Lemma div_finite_r_not_nan (x : float) (s : bool) (m : positive) (e : Z) :
  is_nan x = false -> is_nan (div x (S754_finite s m e)) = false.
Proof.
  destruct x as [sx|sx| |sx mx ex]; try discriminate; intros _;
    try reflexivity.
  unfold div, SFdiv.
  pose proof (div_core_nonneg mx m ex e) as H.
  destruct (SFdiv_core_binary prec emax (Zpos mx) ex (Zpos m) e)
    as [[mz ez] lz].
  now apply binary_round_aux_not_nan.
Qed.

Lemma mul_finite_r_not_nan (x : float) (s : bool) (m : positive) (e : Z) :
  is_nan x = false -> is_nan (mul x (S754_finite s m e)) = false.
Proof.
  destruct x as [sx|sx| |sx mx ex]; try discriminate; intros _;
    try reflexivity.
  unfold mul, SFmul. now apply binary_round_aux_not_nan.
Qed.

(** ** Equal operands *)

Lemma sub_same (s : bool) (m : positive) (e : Z) :
  sub (S754_finite s m e) (S754_finite s m e) = zero.
Proof.
  unfold sub, SFsub. cbv zeta. now rewrite Z.sub_diag.
Qed.

Lemma one_finite : one = S754_finite false 4503599627370496 (-52).
Proof. reflexivity. Qed.

(** ** The helpers never raise *)

Lemma eqb_zero_finite (x : float) :
  eqb x zero = false -> is_nan x = false ->
  is_inf x = true \/ exists s m e, x = S754_finite s m e.
Proof.
  destruct x as [sx|sx| |sx mx ex]; try discriminate; intros _ _;
    [now left|right; eauto].
Qed.

Lemma truediv_of_nonzero (a b : num) :
  eqb (val b) zero = false ->
  exists x, truediv a b = Ok x /\ val x = div (val a) (val b).
Proof.
  intros H. destruct a as [x|x], b as [y|y]; cbn [truediv val] in *;
    try rewrite H; eexists; split; reflexivity.
Qed.

Lemma safe_div_returns (a b : num) :
  exists x, safe_div a b = Ok x
            /\ (eqb (val b) zero = true -> x = np_nan)
            /\ (eqb (val b) zero = false -> val x = div (val a) (val b)).
Proof.
  unfold safe_div. destruct (eqb (val b) zero) eqn:E; cbn [negb].
  - exists np_nan. split; [reflexivity|]. split; [reflexivity|discriminate].
  - destruct (truediv_of_nonzero a b E) as [x [-> Hx]].
    exists x. split; [reflexivity|]. split; [discriminate|now intros _].
Qed.

Lemma val_lift2 (op : float -> float -> float) (a b : num) :
  val (lift2 op a b) = op (val a) (val b).
Proof. now destruct a, b. Qed.

Lemma val_nabs (a : num) : val (nabs a) = abs (val a).
Proof. now destruct a. Qed.

Lemma deviation_score_returns (value reference : num) :
  exists r,
    deviation_score value reference = Ok r
    /\ (isna value || isna reference || eqb (val reference) zero = true ->
        r = np_nan)
    /\ (isna value || isna reference || eqb (val reference) zero = false ->
        val r
        = sub one
            (div (abs (sub (val value) (val reference))) (val reference))).
Proof.
  unfold deviation_score.
  destruct (isna value || isna reference || eqb (val reference) zero)
    eqn:E.
  - exists np_nan. split; [reflexivity|]. split; [reflexivity|discriminate].
  - apply orb_false_iff in E. destruct E as [_ E].
    destruct (truediv_of_nonzero (nabs (nsub value reference)) reference E)
      as [x [-> Hx]].
    cbn [bind]. eexists. split; [reflexivity|]. split; [discriminate|].
    intros _. unfold nsub in *.
    now rewrite val_lift2, Hx, val_nabs, val_lift2.
Qed.

End B64Facts.

(** C3: for all binary64 inputs, [deviation_score] returns; the result is
    missing exactly when an input is missing, the reference is zero or the
    reference is infinite; when no input is missing and the reference is not
    zero the result is [1 - |value - reference| / reference], each operation
    rounded, with no clamping; and a number that is neither zero nor
    infinite scores [1] against itself. *)
Theorem deviation_score_float (value reference : B64.num) :
  exists r,
    B64.deviation_score value reference = Ok r
    /\ (B64.isna r = true <->
        B64.isna value = true \/ B64.isna reference = true
        \/ B64.eqb (B64.val reference) B64.zero = true
        \/ B64.is_inf (B64.val reference) = true)
    /\ (B64.isna value = false -> B64.isna reference = false ->
        B64.eqb (B64.val reference) B64.zero = false ->
        B64.val r
        = B64.sub B64.one
            (B64.div
               (B64.abs (B64.sub (B64.val value) (B64.val reference)))
               (B64.val reference)))
    /\ (B64.val value = B64.val reference ->
        B64.is_finite (B64.val reference) = true ->
        B64.eqb (B64.val reference) B64.zero = false ->
        B64.val r = B64.one).
Proof.
  destruct (B64Facts.deviation_score_returns value reference)
    as [r [E [Hg Hv]]].
  exists r. split; [exact E|].
  unfold B64.isna in *.
  set (v := B64.val value) in *. set (q := B64.val reference) in *.
  destruct (B64.is_nan v || B64.is_nan q || B64.eqb q B64.zero) eqn:G.
  - rewrite (Hg eq_refl). cbn [B64.val B64.np_nan B64.is_nan B64.nan].
    apply orb_true_iff in G. rewrite orb_true_iff in G.
    split; [|split].
    + split; [intros _; tauto|reflexivity].
    + intros H1 H2 H3. rewrite H1, H2, H3 in G.
      destruct G as [[G|G]|G]; discriminate G.
    + intros Hvq Hf H3. exfalso. destruct G as [[G|G]|G].
      * rewrite Hvq in G. destruct q; discriminate.
      * destruct q; discriminate.
      * rewrite H3 in G. discriminate G.
  - rewrite (Hv eq_refl).
    apply orb_false_iff in G. destruct G as [G G3].
    apply orb_false_iff in G. destruct G as [G1 G2].
    split; [|split].
    + destruct q as [sq|sq| |sq mq eq]; try discriminate.
      * destruct v as [sv|sv| |sv mv ev]; try discriminate;
          split; try reflexivity; try (intros _; now repeat right);
          destruct sv, sq; split; try reflexivity; intros _;
          now repeat right.
      * split.
        -- intros H. exfalso.
           rewrite B64Facts.sub_finite_l_not_nan in H;
             [discriminate H|reflexivity|].
           apply B64Facts.div_finite_r_not_nan.
           rewrite B64Facts.abs_nan.
           now apply B64Facts.sub_finite_r_not_nan.
        -- intros [H|[H|[H|H]]]; try discriminate H;
             try (rewrite G1 in H; discriminate H);
             rewrite G3 in H; discriminate H.
    + intros _ _ _. reflexivity.
    + intros Hvq Hf _. rewrite Hvq.
      destruct q as [sq|sq| |sq mq eq]; try discriminate.
      rewrite B64Facts.sub_same. reflexivity.
Qed.

(** At an infinite reference the result is missing although no input is
    missing and the reference is not zero; an infinite value does not score
    [1] against itself. *)
Lemma deviation_score_infinite :
  B64.deviation_score (B64.Py B64.one) (B64.Np B64.pinf) = Ok (B64.Np B64.nan)
  /\ B64.isna (B64.Py B64.one) = false
  /\ B64.isna (B64.Np B64.pinf) = false
  /\ B64.eqb B64.pinf B64.zero = false
  /\ B64.deviation_score (B64.Np B64.pinf) (B64.Np B64.pinf)
     = Ok (B64.Np B64.nan).
Proof. repeat split. Qed.

Lemma deviation_score_float_witness :
  exists r,
    B64.deviation_score (B64.Py (B64.dec 74 1)) (B64.Np (B64.dec 74 1)) = Ok r
    /\ B64.val r = B64.one.
Proof.
  destruct (deviation_score_float (B64.Py (B64.dec 74 1))
              (B64.Np (B64.dec 74 1))) as [r [E [_ [_ H]]]].
  exists r. split; [exact E|]. apply H; reflexivity.
Defined.

(* ================================================================== *)
(** * The weighted combination on binary64 numbers *)
(* ================================================================== *)

Module B64CombinationFacts.

Import B64.

Lemma valid_pairs_surviving (scores weights : list num) :
  filter (fun sw => negb (isna (fst sw))) (combine scores weights)
  = surviving scores weights.
Proof.
  revert weights. induction scores as [|s ss IH]; intros [|wt ws];
    try reflexivity.
  cbn [combine filter surviving fst]. rewrite IH.
  now destruct (isna s).
Qed.

Lemma normalize_partial_weighted (scores weights : list num) :
  normalize_partial scores weights
  = weighted_partial_average scores weights.
Proof.
  unfold normalize_partial, weighted_partial_average.
  rewrite valid_pairs_surviving.
  now destruct (surviving scores weights).
Qed.

Lemma surviving_all_missing (scores weights : list num) :
  Forall (fun s => isna s = true) scores -> surviving scores weights = [].
Proof.
  intros H. revert weights. induction H as [|s ss Hs _ IH];
    intros [|wt ws]; try reflexivity.
  cbn [surviving]. rewrite Hs. apply IH.
Qed.

Lemma surviving_single (scores weights : list num) (i : nat) (s wt : num) :
  nth_error scores i = Some s -> isna s = false ->
  (forall j s', j <> i -> nth_error scores j = Some s' -> isna s' = true) ->
  nth_error weights i = Some wt ->
  surviving scores weights = [(s, wt)].
Proof.
  revert weights i. induction scores as [|x ss IH]; intros weights i Hs Hp Ho Hw.
  - destruct i; discriminate Hs.
  - destruct weights as [|y ws]; [destruct i; discriminate Hw|].
    destruct i as [|i].
    + injection Hs as ->. injection Hw as ->.
      cbn [surviving]. rewrite Hp. f_equal.
      apply surviving_all_missing. apply Forall_forall.
      intros s' Hin. apply In_nth_error in Hin. destruct Hin as [j Hj].
      apply (Ho (S j)); [discriminate|exact Hj].
    + cbn [surviving].
      rewrite (Ho 0%nat x ltac:(discriminate) eq_refl).
      apply (IH ws i); try assumption.
      intros j s' Hj Hn. apply (Ho (S j)); [|exact Hn].
      intros E. apply Hj. now injection E.
Qed.

End B64CombinationFacts.

(** C2: on binary64 numbers, [normalize_partial] drops the pairs whose score
    is missing and returns the sum of the products of the surviving pairs
    over the sum of their weights, each taken from left to right; it returns
    the missing value when every score is missing; and when exactly one
    score [s] is present, with weight [wt], it returns
    [(0 + s * wt) / (0 + wt)], each operation rounded. *)
Theorem normalize_partial_float (scores weights : list B64.num) :
  B64.normalize_partial scores weights
  = B64.weighted_partial_average scores weights
  /\ (Forall (fun s => B64.isna s = true) scores ->
      B64.normalize_partial scores weights = Ok B64.np_nan)
  /\ (forall i s wt,
        nth_error scores i = Some s -> B64.isna s = false ->
        (forall j s', j <> i -> nth_error scores j = Some s' ->
                      B64.isna s' = true) ->
        nth_error weights i = Some wt ->
        B64.normalize_partial scores weights
        = B64.truediv (B64.nadd (B64.Py B64.zero) (B64.nmul s wt))
            (B64.nadd (B64.Py B64.zero) wt)).
Proof.
  split; [apply B64CombinationFacts.normalize_partial_weighted|]. split.
  - intros H. rewrite B64CombinationFacts.normalize_partial_weighted.
    unfold B64.weighted_partial_average.
    now rewrite B64CombinationFacts.surviving_all_missing.
  - intros i s wt Hs Hp Ho Hw.
    rewrite B64CombinationFacts.normalize_partial_weighted.
    unfold B64.weighted_partial_average.
    now rewrite (B64CombinationFacts.surviving_single scores weights i s wt
                   Hs Hp Ho Hw).
Qed.

Lemma normalize_partial_float_witness :
  B64.normalize_partial
    [B64.Py B64.nan; B64.Np (B64.of_Z 2); B64.Py B64.nan; B64.Py B64.nan]
    B64.SHS_weights
  = B64.truediv
      (B64.nadd (B64.Py B64.zero)
         (B64.nmul (B64.Np (B64.of_Z 2)) (B64.Py (B64.dec 30 100))))
      (B64.nadd (B64.Py B64.zero) (B64.Py (B64.dec 30 100))).
Proof.
  apply (proj2 (proj2 (normalize_partial_float
                         [B64.Py B64.nan; B64.Np (B64.of_Z 2); B64.Py B64.nan;
                          B64.Py B64.nan] B64.SHS_weights)) 1%nat).
  - reflexivity.
  - reflexivity.
  - intros [|[|[|[|j]]]] s' Hj Hn; cbn in Hn;
      try (injection Hn as <-; reflexivity);
      try (exfalso; apply Hj; reflexivity).
    destruct j; discriminate Hn.
  - reflexivity.
Defined.

(** With the age score alone present, at 7, under its weight 0.30, the
    composite is not 7: it is 7.000000000000001. *)
Lemma normalize_partial_single_inexact :
  B64.normalize_partial
    [B64.Py B64.nan; B64.Np (B64.of_Z 7); B64.Py B64.nan; B64.Py B64.nan]
    B64.SHS_weights
  = Ok (B64.Np (S754_finite false 7881299347898369 (-50)))
  /\ B64.of_Z 7 = S754_finite false 7881299347898368 (-50)
  /\ B64.normalize_partial
       [B64.Py B64.nan; B64.Np (B64.of_Z 7); B64.Py B64.nan; B64.Py B64.nan]
       B64.SHS_weights
     <> Ok (B64.Np (B64.of_Z 7)).
Proof.
  split; [vm_compute; reflexivity|]. split; [vm_compute; reflexivity|].
  vm_compute. discriminate.
Qed.


(* ================================================================== *)
(** * The emitted scores on binary64 numbers *)
(* ================================================================== *)

Module B64OutputFacts.

Import B64 B64Facts.

Lemma rint_not_nan (x : float) : is_nan x = false -> is_nan (rint x) = false.
Proof.
  destruct x as [s|s| |s m e]; try discriminate; intros _; try reflexivity.
  destruct e as [|p|p]; try reflexivity. cbn [rint].
  destruct (round_half_even (Zpos m # Pos.pow 2 p)); try reflexivity;
    apply binary_normalize_not_nan.
Qed.

Lemma of_Z_10000 : of_Z 10000 = S754_finite false 5497558138880000 (-39).
Proof. reflexivity. Qed.

Lemma np_round4_not_nan (x : float) :
  is_nan x = false -> is_nan (np_round4 x) = false.
Proof.
  intros H. unfold np_round4. rewrite of_Z_10000.
  apply div_finite_r_not_nan, rint_not_nan.
  now apply mul_finite_r_not_nan.
Qed.

Lemma float_round4_not_nan (x : float) :
  is_nan x = false -> is_nan (float_round4 x) = false.
Proof.
  destruct x as [s|s| |s m e]; try discriminate; intros _; try reflexivity.
  cbn [float_round4]. cbv zeta.
  destruct (round_half_even _); try reflexivity.
  now apply div_finite_r_not_nan.
Qed.

Lemma round4_not_nan (x : num) : isna x = false -> isna (round4 x) = false.
Proof.
  destruct x as [x|x]; unfold isna; cbn [val round4].
  - apply float_round4_not_nan.
  - apply np_round4_not_nan.
Qed.

Lemma emit_emitted (x : num) : emitted_from x (emit x).
Proof.
  unfold emitted_from, emit. destruct (isna x) eqn:E; cbn [negb].
  - left. now split.
  - right. split; [reflexivity|]. split; [reflexivity|].
    now apply round4_not_nan.
Qed.

(** The combination never raises under the weights of the script: whichever
    scores are present, the sum of their weights is not zero. *)
Ltac returns_by_cases :=
  unfold normalize_partial, SHS_weights, MPI_weights, APS_weights;
  cbn [combine filter fst];
  repeat match goal with
         | |- context [isna ?a] => destruct (isna a)
         end;
  cbn [negb]; try (eexists; reflexivity);
  match goal with
  | |- exists x, truediv ?n ?d = Ok x =>
      destruct (truediv_of_nonzero n d) as [x [E _]];
      [vm_compute; reflexivity|exists x; exact E]
  end.

Lemma SHS_combination_returns (a b c d : num) :
  exists x, normalize_partial [a; b; c; d] SHS_weights = Ok x.
Proof. returns_by_cases. Qed.

Lemma MPI_combination_returns (a b : num) :
  exists x, normalize_partial [a; b] MPI_weights = Ok x.
Proof. returns_by_cases. Qed.

Lemma APS_combination_returns (a b c : num) :
  exists x, normalize_partial [a; b; c] APS_weights = Ok x.
Proof. returns_by_cases. Qed.

Lemma SHS_returns (b : baselines) (row : joined) :
  exists x, SHS b row = Ok x.
Proof.
  unfold SHS, GBS, LCS, TAS.
  destruct (safe_div_returns (Py (female_voters row))
              (Py (total_registered_voters row))) as [g [-> _]].
  cbn [bind].
  destruct (deviation_score_returns g (Py IDEAL_GENDER_RATIO))
    as [gbs [-> _]].
  cbn [bind].
  destruct (deviation_score_returns (Py (literacy_rate_percent row))
              (Np (national_literacy_avg b))) as [lcs [-> _]].
  cbn [bind].
  destruct (deviation_score_returns (Py (last_election_turnout_percent row))
              (Np (national_turnout_avg b))) as [tas [-> _]].
  cbn [bind]. apply SHS_combination_returns.
Qed.

Lemma MPI_returns (b : baselines) (row : joined) :
  exists x, MPI b row = Ok x.
Proof.
  unfold MPI.
  destruct (safe_div_returns (nabs (Py (net_migration row)))
              (Py (form6_addition_requests row))) as [nmi [-> _]].
  cbn [bind].
  destruct (safe_div_returns (Py (form6_addition_requests row))
              (Np (national_form6_avg b))) as [f6r [-> _]].
  cbn [bind]. apply MPI_combination_returns.
Qed.

Lemma APS_returns (b : baselines) (row : joined) :
  exists x, APS b row = Ok x.
Proof.
  unfold APS.
  destruct (safe_div_returns (Py (rejected row)) (Py (total_requests row)))
    as [rr [-> _]].
  cbn [bind].
  destruct (safe_div_returns rr (Np (national_rejection_rate_avg b)))
    as [rrd [-> _]].
  cbn [bind].
  destruct (safe_div_returns (Py (objections_raised row))
              (Py (total_requests row))) as [orate [-> _]].
  cbn [bind].
  destruct (safe_div_returns orate (Np (national_objection_rate_avg b)))
    as [odd [-> _]].
  cbn [bind].
  destruct (safe_div_returns (Py (cases_per_officer row))
              (Np (national_max_cases_per_officer b))) as [alp [-> _]].
  cbn [bind]. apply APS_combination_returns.
Qed.

Lemma score_row_emitted (b : baselines) (row : joined) :
  exists r, score_row b row = Ok r /\ scores_emitted b row r.
Proof.
  destruct (SHS_returns b row) as [shs Hs].
  destruct (MPI_returns b row) as [mpi Hm].
  destruct (APS_returns b row) as [aps Ha].
  unfold score_row. rewrite Hs, Hm, Ha. cbn [bind].
  eexists. split; [reflexivity|]. split; [reflexivity|].
  exists shs, mpi, aps. repeat split; try assumption; apply emit_emitted.
Qed.

(** ** A row without age brackets *)

Lemma sub_nan_l (x y : float) : is_nan x = true -> sub x y = nan.
Proof. destruct x; try discriminate. reflexivity. Qed.

Lemma vec_sub_without_brackets (u v : list float) :
  Forall (fun a => is_nan a = true) u ->
  filter (fun x => negb (is_nan x)) (map abs (vec_sub u v)) = [].
Proof.
  intros H. revert v. induction H as [|a u Ha _ IH]; intros [|m v];
    try reflexivity.
  cbn [vec_sub map filter]. rewrite (sub_nan_l a m Ha). cbn. apply IH.
Qed.

Lemma ADS_without_brackets (b : baselines) (row : joined) :
  Forall (fun a => is_nan a = true) (age_vec row) -> ADS b row = Np nan.
Proof.
  intros H. unfold ADS, nanmean. now rewrite vec_sub_without_brackets.
Qed.

Lemma rows_emitted (b : baselines) (t : list joined) :
  exists rs,
    mapM (score_row b) t = Ok rs /\ Forall2 (scores_emitted b) t rs.
Proof.
  induction t as [|row t [rs [E H]]].
  - exists []. split; [reflexivity|constructor].
  - destruct (score_row_emitted b row) as [r [Er Hr]].
    exists (r :: rs). cbn [mapM]. rewrite Er, E. cbn [bind].
    split; [reflexivity|]. now constructor.
Qed.

End B64OutputFacts.

(** C7: on binary64 numbers, the loop of the script returns one record per
    row, with the identity columns of the row, in which each score is [None]
    when the composite is missing and is otherwise the composite rounded by
    [round], which is never [NaN]; this holds whatever the national
    reference values are, those computed from the table among them. *)
Theorem output_scores_never_nan (t : list B64.joined) :
  (forall b : B64.baselines,
      exists rs,
        mapM (B64.score_row b) t = Ok rs
        /\ Forall2 (B64.scores_emitted b) t rs)
  /\ exists rs,
       B64.results t = Ok rs
       /\ Forall2 (B64.scores_emitted (B64.compute_baselines t)) t rs.
Proof.
  split; [intros b|]; apply B64OutputFacts.rows_emitted.
Qed.

(** C10: when the four age brackets of a row are missing, the Age
    Distribution Score is the missing value, nothing raises, and the
    Statistical Health Score is the weighted average of the gender,
    literacy and turnout scores over the weights [0.25, 0.20, 0.25]: when
    the three are present it is the sum of their products with these
    weights over the sum of the three weights. *)
Theorem SHS_without_age (b : B64.baselines) (row : B64.joined) :
  B64.is_nan (B64.age_18_25 row) = true ->
  B64.is_nan (B64.age_26_40 row) = true ->
  B64.is_nan (B64.age_41_60 row) = true ->
  B64.is_nan (B64.age_60_plus row) = true ->
  B64.isna (B64.ADS b row) = true
  /\ exists gbs lcs tas shs,
       B64.GBS row = Ok gbs /\ B64.LCS b row = Ok lcs
       /\ B64.TAS b row = Ok tas /\ B64.SHS b row = Ok shs
       /\ Ok shs
          = B64.weighted_partial_average [gbs; lcs; tas]
              [B64.Py (B64.dec 25 100); B64.Py (B64.dec 20 100);
               B64.Py (B64.dec 25 100)]
       /\ (B64.isna gbs = false -> B64.isna lcs = false ->
           B64.isna tas = false ->
           Ok shs
           = B64.truediv
               (B64.nadd
                  (B64.nadd
                     (B64.nadd (B64.Py B64.zero)
                        (B64.nmul gbs (B64.Py (B64.dec 25 100))))
                     (B64.nmul lcs (B64.Py (B64.dec 20 100))))
                  (B64.nmul tas (B64.Py (B64.dec 25 100))))
               (B64.nadd
                  (B64.nadd
                     (B64.nadd (B64.Py B64.zero) (B64.Py (B64.dec 25 100)))
                     (B64.Py (B64.dec 20 100)))
                  (B64.Py (B64.dec 25 100)))).
Proof.
  intros H1 H2 H3 H4.
  assert (HA : B64.ADS b row = B64.Np B64.nan).
  { apply B64OutputFacts.ADS_without_brackets. unfold B64.age_vec.
    repeat constructor; assumption. }
  split; [now rewrite HA|].
  destruct (B64OutputFacts.SHS_returns b row) as [shs Hs].
  revert Hs. unfold B64.SHS, B64.GBS, B64.LCS, B64.TAS.
  destruct (B64Facts.safe_div_returns (B64.Py (B64.female_voters row))
              (B64.Py (B64.total_registered_voters row))) as [g [-> _]].
  cbn [bind].
  destruct (B64Facts.deviation_score_returns g
              (B64.Py B64.IDEAL_GENDER_RATIO)) as [gbs [-> _]].
  cbn [bind].
  destruct (B64Facts.deviation_score_returns
              (B64.Py (B64.literacy_rate_percent row))
              (B64.Np (B64.national_literacy_avg b))) as [lcs [-> _]].
  cbn [bind].
  destruct (B64Facts.deviation_score_returns
              (B64.Py (B64.last_election_turnout_percent row))
              (B64.Np (B64.national_turnout_avg b))) as [tas [-> _]].
  cbn [bind]. rewrite HA.
  rewrite B64CombinationFacts.normalize_partial_weighted.
  intros Hs. exists gbs, lcs, tas, shs.
  repeat (split; [reflexivity|]).
  assert (E : B64.weighted_partial_average
                [gbs; B64.Np B64.nan; lcs; tas] B64.SHS_weights
              = B64.weighted_partial_average [gbs; lcs; tas]
                  [B64.Py (B64.dec 25 100); B64.Py (B64.dec 20 100);
                   B64.Py (B64.dec 25 100)]).
  { unfold B64.weighted_partial_average, B64.SHS_weights.
    cbn [B64.surviving]. destruct (B64.isna gbs); reflexivity. }
  rewrite E in Hs. split; [exact Hs|]. split; [now rewrite Hs|].
  intros Ng Nl Nt. rewrite <- Hs.
  unfold B64.weighted_partial_average. cbn [B64.surviving].
  rewrite Ng, Nl, Nt. reflexivity.
Qed.

(** On the sample row the gender, literacy and turnout scores are 0.9, 0.5
    and 1, and the Statistical Health Score is the float
    [0.8214285714285714]. *)
Lemma SHS_without_age_witness :
  B64.SHS B64.sample_baselines B64.no_age_row
  = Ok (B64.Np (S754_finite false 7398770816394386 (-53)))
  /\ B64.dec 8214285714285714 10000000000000000
     = S754_finite false 7398770816394386 (-53).
Proof.
  destruct (SHS_without_age B64.sample_baselines B64.no_age_row)
    as [_ [gbs [lcs [tas [shs [Eg [El [Et [Es _]]]]]]]]];
    try reflexivity.
  split; [|vm_compute; reflexivity].
  rewrite Es. revert Es. vm_compute. congruence.
Defined.

(** Two rows whose first age bracket holds [1e308], a finite number: the
    mean of the column overflows, and the script writes minus infinity as
    the Statistical Health Score of both. *)
Lemma huge_age_table_scores :
  B64.is_finite (B64.of_Z (10 ^ 308)) = true
  /\ B64.results B64.huge_age_table
     = Ok [ B64.mk_score (sample_key "PC001") (Some (B64.Np B64.ninf)) None
              None;
            B64.mk_score (sample_key "PC002") (Some (B64.Np B64.ninf)) None
              None ]
  /\ B64.is_finite B64.ninf = false.
Proof. repeat split; vm_compute; reflexivity. Qed.

(* ================================================================== *)
(** * Scaling the weights by a power of two *)
(* ================================================================== *)

Module B64ScalingFacts.

Import B64 B64Facts.

#[local] Open Scope Z_scope.

(** ** The number of binary digits *)

Lemma digits2_pos_bounds (p : positive) :
  2 ^ (Zpos (digits2_pos p) - 1) <= Zpos p < 2 ^ Zpos (digits2_pos p).
Proof.
  induction p as [p IH|p IH|]; cbn [digits2_pos].
  - rewrite Pos2Z.inj_succ.
    replace (Z.succ (Zpos (digits2_pos p)) - 1)
      with (Z.succ (Zpos (digits2_pos p) - 1)) by lia.
    rewrite !Z.pow_succ_r by lia. lia.
  - rewrite Pos2Z.inj_succ.
    replace (Z.succ (Zpos (digits2_pos p)) - 1)
      with (Z.succ (Zpos (digits2_pos p) - 1)) by lia.
    rewrite !Z.pow_succ_r by lia. lia.
  - cbn. lia.
Qed.

Lemma digits2_pos_le (p : positive) (k : Z) :
  Zpos p < 2 ^ k -> Zpos (digits2_pos p) <= k.
Proof.
  intros H. destruct (Z_le_gt_dec (Zpos (digits2_pos p)) k) as [L|G];
    [exact L|exfalso].
  destruct (Z_lt_le_dec k 0) as [N|N].
  - rewrite (Z.pow_neg_r 2 k N) in H. lia.
  - pose proof (digits2_pos_bounds p) as [B _].
    assert (2 ^ k <= 2 ^ (Zpos (digits2_pos p) - 1))
      by (apply Z.pow_le_mono_r; lia).
    lia.
Qed.

Lemma digits2_pos_ge (p : positive) (k : Z) :
  2 ^ (k - 1) <= Zpos p -> k <= Zpos (digits2_pos p).
Proof.
  intros H. destruct (Z_le_gt_dec k (Zpos (digits2_pos p))) as [L|G];
    [exact L|exfalso].
  pose proof (digits2_pos_bounds p) as [_ B].
  assert (2 ^ Zpos (digits2_pos p) <= 2 ^ (k - 1))
    by (apply Z.pow_le_mono_r; lia).
  lia.
Qed.

Lemma digits2_pos_shift (n m : positive) :
  Zpos (digits2_pos (Pos.iter xO m n)) = Zpos (digits2_pos m) + Zpos n.
Proof.
  revert m. induction n as [|n IH] using Pos.peano_ind; intros m.
  - cbn [Pos.iter digits2_pos]. lia.
  - rewrite Pos.iter_succ. cbn [digits2_pos]. rewrite Pos2Z.inj_succ, IH. lia.
Qed.

(** ** Shifting a mantissa to the right *)

Lemma shr_1_half (mrs : shr_record) :
  0 <= shr_m mrs -> shr_m (shr_1 mrs) = shr_m mrs / 2.
Proof.
  destruct mrs as [m r s]. cbn [shr_m]. intros H.
  rewrite <- Z.div2_div.
  destruct m as [|p|p]; [reflexivity| |lia]. now destruct p.
Qed.

Lemma iter_shr_1_div (p : positive) (mrs : shr_record) :
  0 <= shr_m mrs ->
  shr_m (iter_pos shr_1 p mrs) = shr_m mrs / 2 ^ Zpos p.
Proof.
  revert mrs. induction p as [p IH|p IH|]; intros mrs H; cbn [iter_pos].
  - rewrite IH by (apply iter_shr_1_nonneg; now apply shr_1_nonneg).
    rewrite IH by now apply shr_1_nonneg.
    rewrite shr_1_half by exact H.
    rewrite !Z.div_div by lia.
    f_equal.
    replace (Zpos p~1) with (1 + Zpos p + Zpos p) by lia.
    rewrite !Z.pow_add_r by lia. lia.
  - rewrite IH by now apply iter_shr_1_nonneg.
    rewrite IH by exact H.
    rewrite !Z.div_div by lia.
    f_equal.
    replace (Zpos p~0) with (Zpos p + Zpos p) by lia.
    rewrite !Z.pow_add_r by lia. lia.
  - rewrite shr_1_half by exact H. reflexivity.
Qed.


(** ** Rounding, and the same at another exponent *)

Lemma shr_fexp_spec (m e : Z) (l : location) :
  0 <= m ->
  snd (shr_fexp prec emax m e l)
  = e + Z.max 0 (fexp prec emax (Zdigits2 m + e) - e)
  /\ shr_m (fst (shr_fexp prec emax m e l))
     = m / 2 ^ Z.max 0 (fexp prec emax (Zdigits2 m + e) - e)
  /\ (Z.max 0 (fexp prec emax (Zdigits2 m + e) - e) = 0 ->
      fst (shr_fexp prec emax m e l) = shr_record_of_loc m l).
Proof.
  intros H. unfold shr_fexp, shr.
  assert (E : shr_m (shr_record_of_loc m l) = m) by now destruct l as [|[]].
  destruct (fexp prec emax (Zdigits2 m + e) - e) as [|p|p];
    cbn [fst snd Z.max Z.compare].
  - rewrite E, Z.div_1_r. repeat split. lia.
  - rewrite iter_shr_1_div by (rewrite E; exact H). rewrite E.
    repeat split. intros C. discriminate C.
  - rewrite E, Z.div_1_r. repeat split. lia.
Qed.

Lemma shr_fexp_shift (m e j : Z) (l : location) :
  -1074 <= e + Z.max 0 (Zdigits2 m - 53) ->
  -1074 <= e + j + Z.max 0 (Zdigits2 m - 53) ->
  shr_fexp prec emax m (e + j) l
  = (fst (shr_fexp prec emax m e l), snd (shr_fexp prec emax m e l) + j)
  /\ snd (shr_fexp prec emax m e l) = e + Z.max 0 (Zdigits2 m - 53).
Proof.
  intros C C'. unfold shr_fexp.
  destruct (Z_lt_le_dec 0 (Zdigits2 m - 53)) as [L|L].
  - replace (fexp prec emax (Zdigits2 m + (e + j)) - (e + j))
      with (Zdigits2 m - 53) by (unfold fexp, emin, prec, emax; lia).
    replace (fexp prec emax (Zdigits2 m + e) - e)
      with (Zdigits2 m - 53) by (unfold fexp, emin, prec, emax; lia).
    destruct (Zdigits2 m - 53) as [|p|p]; try lia.
    cbn [shr fst snd]. split; [f_equal|]; lia.
  - assert (N' : fexp prec emax (Zdigits2 m + (e + j)) - (e + j) <= 0)
      by (unfold fexp, emin, prec, emax; lia).
    assert (N : fexp prec emax (Zdigits2 m + e) - e <= 0)
      by (unfold fexp, emin, prec, emax; lia).
    destruct (fexp prec emax (Zdigits2 m + (e + j)) - (e + j)) as [|p|p];
      destruct (fexp prec emax (Zdigits2 m + e) - e) as [|q|q];
      try lia; cbn [shr fst snd]; (split; [reflexivity|lia]).
Qed.

Lemma round_nearest_even_bounds (m : Z) (l : location) :
  m <= round_nearest_even m l <= m + 1.
Proof.
  destruct l as [|[]]; cbn [round_nearest_even]; try lia.
  destruct (Z.even m); lia.
Qed.

(** Rounding at an exponent moved by [j] gives the same mantissa, at the
    exponent moved by [j], when neither rounding falls below the normal
    numbers or overflows. *)
Lemma binary_round_aux_shift (s : bool) (m e j : Z) (l : location)
    (s' : bool) (m' : positive) (e' : Z) :
  0 <= m ->
  -1074 <= e + Z.max 0 (Zdigits2 m - 53) ->
  -1074 <= e + j + Z.max 0 (Zdigits2 m - 53) ->
  binary_round_aux prec emax s m e l = S754_finite s' m' e' ->
  e' + j <= 971 ->
  binary_round_aux prec emax s m (e + j) l = S754_finite s' m' (e' + j).
Proof.
  intros Hm C C'. unfold binary_round_aux.
  destruct (shr_fexp_shift m e j l C C') as [E1 E1']. rewrite E1.
  destruct (shr_fexp prec emax m e l) as [r1 e1]. cbn [fst snd] in *.
  destruct (shr_fexp_shift
              (round_nearest_even (shr_m r1) (loc_of_shr_record r1)) e1 j
              loc_Exact) as [E2 _]; [lia|lia|].
  rewrite E2.
  destruct (shr_fexp prec emax
              (round_nearest_even (shr_m r1) (loc_of_shr_record r1)) e1
              loc_Exact) as [r2 e2].
  cbn [fst snd]. destruct (shr_m r2) as [|q|q]; try discriminate.
  destruct (e2 <=? emax - prec) eqn:B; try discriminate.
  intros H Hj. injection H as <- <- <-.
  assert (B' : (e2 + j <=? emax - prec) = true)
    by (apply Z.leb_le; unfold emax, prec; lia).
  now rewrite B'.
Qed.

(** An exact value that rounds to a normal number above the smallest one is
    itself in the range of the normal numbers. *)
Lemma binary_round_aux_normal (s : bool) (m : positive) (e : Z)
    (s' : bool) (m' : positive) (e' : Z) :
  binary_round_aux prec emax s (Zpos m) e loc_Exact = S754_finite s' m' e' ->
  Zpos (digits2_pos m') = 53 ->
  -1074 < e' ->
  -1074 <= Zpos (digits2_pos m) + e - 53
  /\ e' <= Zpos (digits2_pos m) + e - 52.
Proof.
  unfold binary_round_aux.
  destruct (shr_fexp_spec (Zpos m) e loc_Exact ltac:(lia)) as [S1 [M1 Z1]].
  destruct (shr_fexp prec emax (Zpos m) e loc_Exact) as [r1 e1].
  cbn [fst snd] in S1, M1, Z1.
  pose proof (round_nearest_even_bounds (shr_m r1) (loc_of_shr_record r1))
    as R.
  assert (P1 : 0 <= shr_m r1)
    by (rewrite M1; apply Z.div_pos; [lia|apply Z.pow_pos_nonneg; lia]).
  set (m1 := round_nearest_even (shr_m r1) (loc_of_shr_record r1)) in *.
  destruct (shr_fexp_spec m1 e1 loc_Exact ltac:(lia)) as [S2 [M2 _]].
  destruct (shr_fexp prec emax m1 e1 loc_Exact) as [r2 e2].
  cbn [fst snd] in S2, M2.
  destruct (shr_m r2) as [|q|q] eqn:Q; try discriminate.
  destruct (e2 <=? emax - prec); try discriminate.
  intros H D He. injection H as _ <- <-.
  pose proof (digits2_pos_bounds m) as [Bl Bu].
  cbn [Zdigits2] in S1, M1, Z1.
  set (d := Zpos (digits2_pos m)) in *.
  assert (Hd : 0 < d) by (unfold d; lia).
  (* the digits of the rounded mantissa *)
  assert (G1 : 0 < m1).
  { destruct (Z_lt_le_dec 0 m1) as [G|G]; [exact G|exfalso].
    assert (m1 = 0) by lia.
    rewrite H in M2. rewrite Z.div_0_l in M2; [discriminate M2|].
    apply Z.pow_nonzero; lia. }
  destruct m1 as [|q1|q1] eqn:Em1; try lia.
  cbn [Zdigits2] in S2, M2.
  set (d1 := Zpos (digits2_pos q1)) in *.
  assert (E1min : -1074 <= e1)
    by (rewrite S1; unfold fexp, emin, prec, emax; lia).
  destruct (Z.eq_dec (Z.max 0 (fexp prec emax (d + e) - e)) 0) as [A|B].
  - (* no shift at the first step *)
    specialize (Z1 A). rewrite A in *. rewrite Z.div_1_r in M1.
    subst r1. cbn in Em1. injection Em1 as <-.
    assert (Hd53 : d <= 53)
      by (revert A; unfold fexp, emin, prec, emax; lia).
    assert (N2 : Z.max 0 (fexp prec emax (d1 + e1) - e1) = 0)
      by (unfold d1, d in *; unfold fexp, emin, prec, emax; lia).
    rewrite N2 in *. rewrite Z.div_1_r in M2. injection M2 as <-.
    fold d in D. lia.
  - destruct (Z_lt_le_dec (d + e - 53) (-1074)) as [Cl|Un].
    + (* below the normal numbers: the result has the least exponent *)
      exfalso.
      assert (N1 : Z.max 0 (fexp prec emax (d + e) - e) = -1074 - e)
        by (revert B; unfold fexp, emin, prec, emax; lia).
      rewrite N1 in *.
      assert (X : shr_m r1 < 2 ^ 52).
      { rewrite M1. apply Z.div_lt_upper_bound.
        - apply Z.pow_pos_nonneg; lia.
        - rewrite <- Z.pow_add_r by lia.
          apply Z.lt_le_trans with (1 := Bu).
          apply Z.pow_le_mono_r; lia. }
      assert (D1 : d1 <= 53).
      { apply digits2_pos_le. change (2 ^ 53) with (2 * 2 ^ 52). lia. }
      assert (N2 : Z.max 0 (fexp prec emax (d1 + e1) - e1) = 0)
        by (unfold fexp, emin, prec, emax; lia).
      lia.
    + assert (N1 : Z.max 0 (fexp prec emax (d + e) - e) = d - 53)
        by (revert B; unfold fexp, emin, prec, emax; lia).
      rewrite N1 in *.
      assert (X : shr_m r1 < 2 ^ 53).
      { rewrite M1. apply Z.div_lt_upper_bound.
        - apply Z.pow_pos_nonneg; lia.
        - rewrite <- Z.pow_add_r by lia.
          replace (d - 53 + 53) with d by lia. exact Bu. }
      assert (D1 : d1 <= 54).
      { apply digits2_pos_le. change (2 ^ 54) with (2 * 2 ^ 53). lia. }
      assert (N2 : Z.max 0 (fexp prec emax (d1 + e1) - e1) <= 1)
        by (unfold fexp, emin, prec, emax; lia).
      lia.
Qed.


Lemma binary_round_shift (s : bool) (m : positive) (e j : Z)
    (s' : bool) (m' : positive) (e' : Z) :
  binary_round prec emax s m e = S754_finite s' m' e' ->
  Zpos (digits2_pos m') = 53 ->
  -1074 < e' -> -1074 < e' + j -> e' + j <= 971 ->
  binary_round prec emax s m (e + j) = S754_finite s' m' (e' + j).
Proof.
  unfold binary_round, shl_align. intros H D L Lj Uj.
  destruct (fexp prec emax (Zpos (digits2_pos m) + e) - e) as [|k|k] eqn:K.
  - destruct (binary_round_aux_normal _ _ _ _ _ _ H D L) as [N1 N2].
    replace (fexp prec emax (Zpos (digits2_pos m) + (e + j)) - (e + j))
      with 0 by (revert K; unfold fexp, emin, prec, emax; lia).
    apply binary_round_aux_shift; try assumption; cbn [Zdigits2]; lia.
  - destruct (binary_round_aux_normal _ _ _ _ _ _ H D L) as [N1 N2].
    replace (fexp prec emax (Zpos (digits2_pos m) + (e + j)) - (e + j))
      with (Zpos k) by (revert K; unfold fexp, emin, prec, emax; lia).
    apply binary_round_aux_shift; try assumption; cbn [Zdigits2]; lia.
  - destruct (binary_round_aux_normal _ _ _ _ _ _ H D L) as [N1 N2].
    rewrite digits2_pos_shift in N1, N2.
    assert (F : fexp prec emax (Zpos (digits2_pos m) + e)
                = Zpos (digits2_pos m) + e - 53)
      by (revert K N1; unfold fexp, emin, prec, emax; lia).
    replace (fexp prec emax (Zpos (digits2_pos m) + (e + j)) - (e + j))
      with (Zneg k) by (revert K F N2; unfold fexp, emin, prec, emax; lia).
    replace (fexp prec emax (Zpos (digits2_pos m) + (e + j)))
      with (fexp prec emax (Zpos (digits2_pos m) + e) + j)
      by (revert K F N2; unfold fexp, emin, prec, emax; lia).
    apply binary_round_aux_shift; try assumption;
      cbn [Zdigits2]; rewrite ?digits2_pos_shift; lia.
Qed.

(** ** The operations on scaled operands *)

Lemma scalable_finite (j : Z) (x : float) :
  scalable j x = true ->
  exists s m e,
    x = S754_finite s m e /\ Zpos (digits2_pos m) = 53
    /\ -1074 < e <= 971 /\ -1074 < e + j <= 971.
Proof.
  destruct x as [s|s| |s m e]; try discriminate. cbn [scalable].
  intros H. apply andb_prop in H as [H H5]. apply andb_prop in H as [H H4].
  apply andb_prop in H as [H H3]. apply andb_prop in H as [H1 H2].
  exists s, m, e. split; [reflexivity|]. lia.
Qed.

Lemma mul_pow2 (j : Z) (x : float) :
  scalable j x = true -> mul (pow2 j) x = shifted j x.
Proof.
  intros H. apply scalable_finite in H as [s [m [e [-> [D [He Hj]]]]]].
  assert (Dm : digits2_pos m = 53%positive) by (injection D; trivial).
  unfold mul, pow2, shifted. cbn [SFmul xorb Pos.mul].
  unfold binary_round_aux, shr_fexp. cbn [Zdigits2 digits2_pos].
  rewrite Dm. cbn [Pos.succ].
  replace (fexp prec emax (105 + (j - 52 + e)) - (j - 52 + e)) with 52
    by (unfold fexp, emin, prec, emax; lia).
  cbn [shr iter_pos shr_1 shr_record_of_loc fst snd shr_m orb
         loc_of_shr_record round_nearest_even Zdigits2].
  rewrite Dm.
  replace (fexp prec emax (53 + (j - 52 + e + 52)) - (j - 52 + e + 52))
    with 0 by (unfold fexp, emin, prec, emax; lia).
  cbn [shr shr_m shr_record_of_loc].
  replace (j - 52 + e + 52) with (e + j) by lia.
  assert (B : (e + j <=? emax - prec) = true)
    by (apply Z.leb_le; unfold emax, prec; lia).
  now rewrite B.
Qed.

Lemma mul_shift (j : Z) (x y : float) :
  scalable j (mul x y) = true -> mul x (shifted j y) = shifted j (mul x y).
Proof.
  intros H. apply scalable_finite in H as [s [m [e [E [D [He Hj]]]]]].
  rewrite E. unfold mul in *.
  destruct x as [sx|sx| |sx mx ex]; destruct y as [sy|sy| |sy my ey];
    try discriminate E.
  cbn [shifted SFmul] in *.
  destruct (binary_round_aux_normal _ _ _ _ _ _ E D ltac:(lia)) as [N1 N2].
  replace (ex + (ey + j)) with (ex + ey + j) by lia.
  apply binary_round_aux_shift; try assumption; cbn [Zdigits2]; lia.
Qed.

Lemma shl_align_shift (m : positive) (e e' j : Z) :
  fst (shl_align m (e + j) (e' + j)) = fst (shl_align m e e').
Proof.
  unfold shl_align. replace (e' + j - (e + j)) with (e' - e) by lia.
  now destruct (e' - e).
Qed.

Lemma add_shift (j : Z) (x y : float) :
  scalable j (add x y) = true ->
  add (shifted j x) (shifted j y) = shifted j (add x y).
Proof.
  intros H. apply scalable_finite in H as [s [m [e [E [D [He Hj]]]]]].
  rewrite E. unfold add in *.
  destruct x as [sx|sx| |sx mx ex]; destruct y as [sy|sy| |sy my ey];
    try discriminate E;
    try (destruct sx, sy; discriminate E);
    cbn [shifted SFadd] in *;
    try (now inversion E).
  rewrite Z.add_min_distr_r, !shl_align_shift.
  revert E.
  set (M := cond_Zopp sx _ + cond_Zopp sy _).
  unfold binary_normalize. destruct M as [|p|p]; try discriminate;
    intros E; apply binary_round_shift; try assumption; lia.
Qed.

Lemma div_shift (j : Z) (x y : float) :
  div (shifted j x) (shifted j y) = div x y.
Proof.
  unfold div.
  destruct x as [sx|sx| |sx mx ex]; destruct y as [sy|sy| |sy my ey];
    try reflexivity.
  cbn [shifted SFdiv]. unfold SFdiv_core_binary.
  replace (Zdigits2 (Zpos mx) + (ex + j) - (Zdigits2 (Zpos my) + (ey + j)))
    with (Zdigits2 (Zpos mx) + ex - (Zdigits2 (Zpos my) + ey)) by lia.
  replace (ex + j - (ey + j)) with (ex - ey) by lia.
  reflexivity.
Qed.

Lemma eqb_zero_shifted (j : Z) (x : float) :
  eqb (shifted j x) zero = eqb x zero.
Proof. destruct x as [[]|[]| |[] m e]; reflexivity. Qed.


(** ** The combination on scaled weights *)

Lemma nmul_pow2 (j : Z) (w : num) :
  scalable j (val w) = true -> nmul (Py (pow2 j)) w = nshifted j w.
Proof.
  destruct w as [x|x]; cbn [val nmul lift2 nshifted]; intros H;
    f_equal; now apply mul_pow2.
Qed.

Lemma nmul_shift (j : Z) (s w : num) :
  scalable j (val (nmul s w)) = true ->
  nmul s (nshifted j w) = nshifted j (nmul s w).
Proof.
  destruct s as [x|x], w as [y|y]; cbn [val nmul lift2 nshifted]; intros H;
    f_equal; now apply mul_shift.
Qed.

Lemma nadd_shift (j : Z) (a b : num) :
  scalable j (val (nadd a b)) = true ->
  nadd (nshifted j a) (nshifted j b) = nshifted j (nadd a b).
Proof.
  destruct a as [x|x], b as [y|y]; cbn [val nadd lift2 nshifted]; intros H;
    f_equal; now apply add_shift.
Qed.

Lemma truediv_shift (j : Z) (a b : num) :
  truediv (nshifted j a) (nshifted j b) = truediv a b.
Proof.
  destruct a as [x|x], b as [y|y]; cbn [truediv nshifted val];
    rewrite ?eqb_zero_shifted, ?div_shift; reflexivity.
Qed.

Lemma fold_nadd_shift (j : Z) (l : list num) (acc : num) :
  Forall (fun x => scalable j (val x) = true) (partial_sums acc l) ->
  fold_left nadd (map (nshifted j) l) (nshifted j acc)
  = nshifted j (fold_left nadd l acc).
Proof.
  revert acc. induction l as [|x l IH]; intros acc H; [reflexivity|].
  cbn [partial_sums] in H. inversion H as [|? ? H1 H2]; subst.
  cbn [map fold_left]. rewrite nadd_shift by exact H1. now apply IH.
Qed.

Lemma py_sum_shift (j : Z) (l : list num) :
  Forall (fun x => scalable j (val x) = true) (partial_sums (Py zero) l) ->
  py_sum (map (nshifted j) l) = nshifted j (py_sum l).
Proof. intros H. now apply (fold_nadd_shift j l (Py zero)). Qed.

Lemma surviving_map_weights (f : num -> num) (scores weights : list num) :
  surviving scores (map f weights)
  = map (fun p => (fst p, f (snd p))) (surviving scores weights).
Proof.
  revert weights. induction scores as [|s ss IH]; intros [|wt ws];
    try reflexivity.
  cbn [map surviving]. rewrite IH. now destruct (isna s).
Qed.

Lemma weighted_mean_scaled (j : Z) (ps : list (num * num)) :
  Forall (fun x => scalable j (val x) = true) (map snd ps) ->
  Forall (fun x => scalable j (val x) = true)
    (map (fun p => nmul (fst p) (snd p)) ps) ->
  Forall (fun x => scalable j (val x) = true)
    (partial_sums (Py zero) (map snd ps)) ->
  Forall (fun x => scalable j (val x) = true)
    (partial_sums (Py zero) (map (fun p => nmul (fst p) (snd p)) ps)) ->
  weighted_mean (map (fun p => (fst p, nmul (Py (pow2 j)) (snd p))) ps)
  = weighted_mean ps.
Proof.
  intros Hw Hp Hsw Hsp. unfold weighted_mean.
  assert (Ew : map snd (map (fun p => (fst p, nmul (Py (pow2 j)) (snd p))) ps)
               = map (nshifted j) (map snd ps)).
  { rewrite !map_map. apply map_ext_in. intros [s w] Hin. cbn [fst snd].
    apply nmul_pow2.
    rewrite Forall_forall in Hw. apply Hw.
    apply in_map_iff. now exists (s, w). }
  assert (Ep : map (fun p => nmul (fst p) (snd p))
                 (map (fun p => (fst p, nmul (Py (pow2 j)) (snd p))) ps)
               = map (nshifted j) (map (fun p => nmul (fst p) (snd p)) ps)).
  { rewrite !map_map. apply map_ext_in. intros [s w] Hin. cbn [fst snd].
    rewrite nmul_pow2.
    - apply nmul_shift.
      rewrite Forall_forall in Hp. apply Hp.
      apply in_map_iff. now exists (s, w).
    - rewrite Forall_forall in Hw. apply Hw.
      apply in_map_iff. now exists (s, w). }
  rewrite Ew, Ep, !py_sum_shift by assumption.
  apply truediv_shift.
Qed.

End B64ScalingFacts.



(* ================================================================== *)
(** * The Age Distribution Score on binary64 numbers *)
(* ================================================================== *)

Module B64AgeFacts.

Import B64 B64Facts B64ScalingFacts.

#[local] Open Scope Z_scope.

(** ** Counts *)

Lemma binary_round_aux_canonical (s : bool) (m : positive) (e : Z) :
  Zpos (digits2_pos m) = 53 -> -1074 <= e <= 971 ->
  binary_round_aux prec emax s (Zpos m) e loc_Exact = S754_finite s m e.
Proof.
  intros D He.
  assert (Dm : digits2_pos m = 53%positive) by (injection D; trivial).
  unfold binary_round_aux, shr_fexp. cbn [Zdigits2]. rewrite Dm.
  replace (fexp prec emax (53 + e) - e) with 0
    by (unfold fexp, emin, prec, emax; lia).
  cbn [shr shr_record_of_loc fst snd shr_m loc_of_shr_record
         round_nearest_even Zdigits2].
  rewrite Dm.
  replace (fexp prec emax (53 + e) - e) with 0
    by (unfold fexp, emin, prec, emax; lia).
  cbn [shr shr_m shr_record_of_loc].
  assert (B : (e <=? emax - prec) = true)
    by (apply Z.leb_le; unfold emax, prec; lia).
  now rewrite B.
Qed.

(** A count below [2^53] is a binary64 number. *)
Lemma of_Z_finite (z : Z) :
  0 < z < 2 ^ 53 -> exists m e, of_Z z = S754_finite false m e.
Proof.
  intros [Hz Hu]. destruct z as [|p|p]; try lia.
  unfold of_Z, binary_normalize, binary_round, shl_align.
  pose proof (digits2_pos_le p 53 Hu) as Hd.
  assert (Hd1 : 0 < Zpos (digits2_pos p)) by lia.
  replace (fexp prec emax (Zpos (digits2_pos p) + 0))
    with (Zpos (digits2_pos p) - 53)
    by (unfold fexp, emin, prec, emax; lia).
  destruct (Zpos (digits2_pos p) - 53 - 0) as [|k|k] eqn:K; try lia.
  - exists p, 0. apply binary_round_aux_canonical; lia.
  - exists (Pos.iter xO p k), (Zpos (digits2_pos p) - 53).
    apply binary_round_aux_canonical; [|lia].
    rewrite digits2_pos_shift. lia.
Qed.

Lemma filter_length_at_most {A : Type} (f : A -> bool) (l : list A) :
  (List.length (filter f l) <= List.length l)%nat.
Proof.
  induction l as [|a l IH]; [apply le_n|]. cbn [filter].
  destruct (f a); cbn [List.length]; lia.
Qed.

(** ** Sums that keep away from [NaN] *)

Lemma add_finite_r_not_nan (x y : float) :
  is_nan x = false -> is_finite y = true -> is_nan (add x y) = false.
Proof.
  destruct x as [sx|sx| |sx mx ex], y as [sy|sy| |sy my ey];
    try discriminate; intros _ _; try reflexivity.
  - now destruct sx, sy.
  - apply binary_normalize_not_nan.
Qed.

Lemma fold_add_finite_not_nan (l : list float) (acc : float) :
  is_nan acc = false -> Forall (fun x => is_finite x = true) l ->
  is_nan (fold_left add l acc) = false.
Proof.
  intros Ha H. revert acc Ha.
  induction H as [|x l Hx _ IH]; intros acc Ha; [exact Ha|].
  cbn [fold_left]. apply IH. now apply add_finite_r_not_nan.
Qed.

(** The mean of a column whose cells are numbers or missing, with a number
    among them, is not [NaN]. *)
Lemma nanmean_not_nan (column : list float) (x : float) :
  Z.of_nat (List.length column) < 2 ^ 53 ->
  Forall (fun c => is_inf c = false) column ->
  In x column -> is_nan x = false ->
  is_nan (nanmean column) = false.
Proof.
  intros Hl Hc Hin Hx. unfold nanmean.
  assert (Hp : In x (filter (fun c => negb (is_nan c)) column))
    by (apply filter_In; split; [exact Hin|now rewrite Hx]).
  assert (Hf : Forall (fun c => is_finite c = true)
                 (filter (fun c => negb (is_nan c)) column)).
  { apply Forall_forall. intros c Hcin. apply filter_In in Hcin.
    destruct Hcin as [Hcin Hn]. rewrite Forall_forall in Hc.
    specialize (Hc c Hcin). destruct c; try discriminate; reflexivity. }
  pose proof (filter_length_at_most (fun c => negb (is_nan c)) column)
    as Hle.
  destruct (filter (fun c => negb (is_nan c)) column) as [|c v] eqn:E;
    [destruct Hp|].
  destruct (of_Z_finite (Z.of_nat (List.length (c :: v)))) as [m [e ->]].
  - cbn [List.length] in *. lia.
  - apply div_finite_r_not_nan. unfold np_sum.
    now apply fold_add_finite_not_nan.
Qed.

(** ** Sums of absolute values *)

Lemma binary_round_aux_sign (s : bool) (m e : Z) (l : location) :
  0 <= m -> is_negative (binary_round_aux prec emax s m e l) = s.
Proof.
  intros H. unfold binary_round_aux.
  pose proof (shr_fexp_nonneg m e l H) as H1.
  destruct (shr_fexp prec emax m e l) as [mrs' e']. cbn [fst] in H1.
  pose proof (round_nearest_even_nonneg _ (loc_of_shr_record mrs') H1) as H2.
  pose proof (shr_fexp_nonneg _ e' loc_Exact H2) as H3.
  destruct (shr_fexp prec emax
              (round_nearest_even (shr_m mrs') (loc_of_shr_record mrs')) e'
              loc_Exact) as [mrs'' e''].
  cbn [fst] in H3.
  destruct (shr_m mrs'') as [|q|q]; [reflexivity| |lia].
  now destruct (e'' <=? emax - prec).
Qed.

Lemma add_count_ok (x y : float) :
  count_ok x -> count_ok y -> count_ok (add x y).
Proof.
  unfold count_ok.
  destruct x as [sx|sx| |sx mx ex], y as [sy|sy| |sy my ey];
    cbn [is_nan is_negative]; intros [Hx Sx] [Hy Sy];
    try discriminate; subst; try (split; reflexivity).
  unfold add, SFadd. cbv zeta. cbn [cond_Zopp Z.add binary_normalize].
  unfold binary_round.
  destruct (shl_align _ _ _) as [mz ez].
  split.
  - apply binary_round_aux_not_nan. lia.
  - apply binary_round_aux_sign. lia.
Qed.

Lemma fold_add_count_ok (l : list float) (acc : float) :
  count_ok acc -> Forall count_ok l -> count_ok (fold_left add l acc).
Proof.
  intros Ha H. revert acc Ha.
  induction H as [|x l Hx _ IH]; intros acc Ha; [exact Ha|].
  cbn [fold_left]. apply IH. now apply add_count_ok.
Qed.

Lemma abs_count_ok (x : float) : is_nan x = false -> count_ok (abs x).
Proof. destruct x; try discriminate; intros _; split; reflexivity. Qed.

(** One minus the mean of terms that are absolute values is not [NaN]. *)
Lemma score_of_terms_not_nan (x : float) (ts : list float) :
  Z.of_nat (List.length (x :: ts)) < 2 ^ 53 ->
  Forall count_ok (x :: ts) ->
  is_nan
    (sub one
       (div (np_sum (x :: ts)) (of_Z (Z.of_nat (List.length (x :: ts))))))
  = false.
Proof.
  intros Hl H.
  destruct (of_Z_finite (Z.of_nat (List.length (x :: ts)))) as [m [e ->]].
  - cbn [List.length] in *. lia.
  - apply sub_finite_l_not_nan; [reflexivity|].
    apply div_finite_r_not_nan. unfold np_sum.
    apply (fold_add_count_ok (x :: ts) zero); [split; reflexivity|exact H].
Qed.

(** ** The terms of a row *)

Lemma mean_present_nanmean (column : list float) :
  mean_present column = nanmean column.
Proof.
  unfold mean_present, nanmean.
  now destruct (filter (fun x => negb (is_nan x)) column).
Qed.

Lemma bracket_nan (a m : float) :
  is_nan a = true -> is_nan (abs (sub a m)) = true.
Proof. now destruct a. Qed.

Lemma bracket_present (a m : float) :
  is_nan a = false -> is_inf a = false -> is_nan m = false ->
  count_ok (abs (sub a m)).
Proof.
  intros Ha Hi Hm. apply abs_count_ok.
  apply sub_finite_l_not_nan; [|exact Hm].
  destruct a; try discriminate; reflexivity.
Qed.

Section Row.

Variable t : list joined.
Variable row : joined.
Hypothesis table_size : Z.of_nat (List.length t) < 2 ^ 53.
Hypothesis table_ages : forallb ages_not_infinite t = true.
Hypothesis row_in : In row t.

Lemma ages_of_rows (r : joined) :
  In r t ->
  is_inf (age_18_25 r) = false /\ is_inf (age_26_40 r) = false
  /\ is_inf (age_41_60 r) = false /\ is_inf (age_60_plus r) = false.
Proof.
  intros Hr. pose proof (proj1 (forallb_forall _ _) table_ages r Hr) as H.
  unfold ages_not_infinite in H.
  apply andb_prop in H as [H H4]. apply andb_prop in H as [H H3].
  apply andb_prop in H as [H1 H2].
  repeat split; now apply negb_true_iff.
Qed.

Lemma column_term (f : joined -> float) :
  (forall r, In r t -> is_inf (f r) = false) ->
  (is_nan (f row) = true ->
   is_nan (abs (sub (f row) (nanmean (map f t)))) = true)
  /\ (is_nan (f row) = false ->
      count_ok (abs (sub (f row) (nanmean (map f t))))).
Proof.
  intros Hf. split; [apply bracket_nan|].
  intros Ha. apply bracket_present; [exact Ha|now apply Hf|].
  apply (nanmean_not_nan (map f t) (f row)).
  - now rewrite length_map.
  - apply Forall_forall. intros c Hc. apply in_map_iff in Hc.
    destruct Hc as [r [<- Hr]]. now apply Hf.
  - now apply in_map.
  - exact Ha.
Qed.

Lemma count_ok_kept (x : float) :
  count_ok x -> negb (is_nan x) = true.
Proof. intros [H _]. now rewrite H. Qed.

Lemma nan_dropped (x : float) : is_nan x = true -> negb (is_nan x) = false.
Proof. now intros ->. Qed.

(** The terms [np.nanmean] keeps are those of the brackets of the row that
    have a value, and each is an absolute value. *)
Lemma kept_terms :
  filter (fun x => negb (is_nan x))
    (map abs (vec_sub (age_vec row) (national_age_avg (compute_baselines t))))
  = age_terms t row
  /\ Forall count_ok (age_terms t row).
Proof.
  unfold age_terms, bracket_term, age_vec.
  cbn [compute_baselines national_age_avg vec_sub map filter].
  rewrite !mean_present_nanmean.
  destruct (column_term age_18_25
              (fun r Hr => proj1 (ages_of_rows r Hr))) as [N1 P1].
  destruct (column_term age_26_40
              (fun r Hr => proj1 (proj2 (ages_of_rows r Hr)))) as [N2 P2].
  destruct (column_term age_41_60
              (fun r Hr => proj1 (proj2 (proj2 (ages_of_rows r Hr)))))
    as [N3 P3].
  destruct (column_term age_60_plus
              (fun r Hr => proj2 (proj2 (proj2 (ages_of_rows r Hr)))))
    as [N4 P4].
  destruct (is_nan (age_18_25 row)) eqn:E1;
    [rewrite (nan_dropped _ (N1 eq_refl))
    |rewrite (count_ok_kept _ (P1 eq_refl))];
    (destruct (is_nan (age_26_40 row)) eqn:E2;
     [rewrite (nan_dropped _ (N2 eq_refl))
     |rewrite (count_ok_kept _ (P2 eq_refl))]);
    (destruct (is_nan (age_41_60 row)) eqn:E3;
     [rewrite (nan_dropped _ (N3 eq_refl))
     |rewrite (count_ok_kept _ (P3 eq_refl))]);
    (destruct (is_nan (age_60_plus row)) eqn:E4;
     [rewrite (nan_dropped _ (N4 eq_refl))
     |rewrite (count_ok_kept _ (P4 eq_refl))]);
    simpl app; (split; [reflexivity|]);
    repeat (apply Forall_cons;
            [solve [ apply P1; reflexivity | apply P2; reflexivity
                   | apply P3; reflexivity | apply P4; reflexivity ]|]);
    apply Forall_nil.
Qed.

Lemma age_terms_short : (List.length (age_terms t row) <= 4)%nat.
Proof.
  unfold age_terms, bracket_term.
  destruct (is_nan (age_18_25 row)), (is_nan (age_26_40 row)),
    (is_nan (age_41_60 row)), (is_nan (age_60_plus row));
    simpl; lia.
Qed.

Lemma age_terms_nil :
  age_terms t row = [] <->
  is_nan (age_18_25 row) = true /\ is_nan (age_26_40 row) = true
  /\ is_nan (age_41_60 row) = true /\ is_nan (age_60_plus row) = true.
Proof.
  unfold age_terms, bracket_term.
  destruct (is_nan (age_18_25 row)), (is_nan (age_26_40 row)),
    (is_nan (age_41_60 row)), (is_nan (age_60_plus row));
    simpl; split; intros H; try discriminate H; try tauto;
    destruct H as [H1 [H2 [H3 H4]]]; discriminate.
Qed.

Lemma ADS_of_terms :
  ADS (compute_baselines t) row = ADS_spec t row.
Proof.
  unfold ADS, ADS_spec, nanmean. rewrite (proj1 kept_terms).
  now destruct (age_terms t row).
Qed.

End Row.

End B64AgeFacts.



(** National averages of zero leave the Age Distribution Score defined:
    with brackets of zero where present, it is 1. *)
Example ADS_zero_average_float :
  B64.national_age_avg (B64.compute_baselines [B64.zero_ages_row])
  = [B64.zero; B64.nan; B64.zero; B64.zero]
  /\ B64.ADS (B64.compute_baselines [B64.zero_ages_row]) B64.zero_ages_row
     = B64.Np B64.one.
Proof. split; vm_compute; reflexivity. Qed.
